(** * Triple verification plugin: the verification engine

    A shallow embedding of the rule engine (scripts/lib/rules-engine.mjs),
    the research verifier (scripts/lib/research-verifier.mjs), the path
    helpers of scripts/lib/utils.mjs and the routing of
    scripts/pre-tool-gate.mjs, with the properties stated about them; and
    of the configuration merge (scripts/lib/config-loader.mjs), the search
    for the project root, the Stop gate with its search for markdown files
    and the metadata of the post-tool audit.

    JavaScript strings are sequences of UTF-16 code units; they are modelled
    as [list N].  Regular expressions are modelled by a backtracking matcher
    that returns, in the priority order of the ECMAScript matcher, every end
    position reachable from a start position; the head of that list is the
    match [RegExp.prototype.exec] reports. *)

From Stdlib Require Import Strings.String Strings.Ascii.
From Stdlib Require Import Numbers.DecimalString.
From Stdlib Require Import List NArith ZArith Bool Arith Lia.
Import ListNotations.

Set Implicit Arguments.

(* ================================================================== *)
(** ** JavaScript strings *)
(* ================================================================== *)

Module JS.

Definition jstring := list N.

(** An ASCII literal as a sequence of code units. *)
Definition js (s : string) : jstring :=
  map N_of_ascii (list_ascii_of_string s).

(** Code units used where a literal cannot show them. *)
Definition LF : N := 10.
Definition DQUOTE : N := 34.
Definition SQUOTE : N := 39.
Definition BACKTICK : N := 96.
Definition BACKSLASH : N := 92.
Definition SLASH : N := 47.
Definition DOT : N := 46.

Definition inRange (lo hi c : N) : bool := (lo <=? c)%N && (c <=? hi)%N.

Definition isUpperAscii (c : N) : bool := inRange 65 90 c.
Definition isLowerAscii (c : N) : bool := inRange 97 122 c.

(** The lower case of an ASCII letter; other code units are left as they
    are. *)
Definition lowerUnit (c : N) : N := if isUpperAscii c then (c + 32)%N else c.

(** Capital sigma and its two lower cases. *)
Definition SIGMA : N := 931.
Definition SMALL_SIGMA : N := 963.
Definition FINAL_SIGMA : N := 962.

(** The properties Cased and Case_Ignorable of Unicode, on ASCII and the
    sigmas: the letters; and the apostrophe, the full stop, the colon, the
    circumflex and the grave accent. *)
Definition isCased (c : N) : bool :=
  isUpperAscii c || isLowerAscii c
  || (c =? SIGMA)%N || (c =? SMALL_SIGMA)%N || (c =? FINAL_SIGMA)%N.
Definition isCaseIgnorable (c : N) : bool :=
  existsb (N.eqb c) [39; 46; 58; 94; 96]%N.

(** What follows is case-ignorable characters and then a cased letter. *)
Fixpoint followedByCased (rest : jstring) : bool :=
  match rest with
  | [] => false
  | d :: rest' => isCased d || (isCaseIgnorable d && followedByCased rest')
  end.

(** The lower case of the code unit [c], given whether a cased letter and
    then case-ignorable characters come before it, and what follows it: a
    capital sigma becomes the final sigma when such a letter comes before
    and none comes after (the condition Final_Sigma), the small sigma
    otherwise. *)
Definition lowerAt (before : bool) (c : N) (rest : jstring) : N :=
  if (c =? SIGMA)%N then
    if before && negb (followedByCased rest) then FINAL_SIGMA
    else SMALL_SIGMA
  else lowerUnit c.

Fixpoint lowerFrom (before : bool) (s : jstring) : jstring :=
  match s with
  | [] => []
  | c :: rest =>
      lowerAt before c rest
        :: lowerFrom (isCased c || (isCaseIgnorable c && before)) rest
  end.

(** [String.prototype.toLowerCase], exact on strings of ASCII characters
    and sigmas, where it is the case mapping of the letters with the one
    context rule of the language-neutral algorithm, Final_Sigma.  Any other
    code unit is left as it is and counts as neither cased nor
    case-ignorable: the case mapping of the other letters of the runtime is
    not modelled.  The only such code units that the runtime maps to ASCII
    letters are U+0130 and U+212A, which give i (with a combining dot) and
    k; none of the strings a path or a tool name is compared with below can
    be reached through them. *)
Definition toLowerCase (s : jstring) : jstring := lowerFrom false s.

(** [a === b] on strings. *)
Fixpoint eqb (a b : jstring) : bool :=
  match a, b with
  | [], [] => true
  | x :: a', y :: b' => (x =? y)%N && eqb a' b'
  | _, _ => false
  end.

Fixpoint startsWith (p s : jstring) : bool :=
  match p, s with
  | [], _ => true
  | _ :: _, [] => false
  | a :: p', b :: s' => (a =? b)%N && startsWith p' s'
  end.

(** [s.includes(p)]: [p] occurs in [s] at some index. *)
Fixpoint includes (s p : jstring) : bool :=
  startsWith p s ||
  match s with
  | [] => false
  | _ :: s' => includes s' p
  end.

(** [s.endsWith(p)]. *)
Definition endsWith (s p : jstring) : bool :=
  (length p <=? length s) && eqb (skipn (length s - length p) s) p.

(** [arr.includes(x)] for an array of strings. *)
Definition arrayIncludes (l : list jstring) (x : jstring) : bool :=
  existsb (eqb x) l.

(** [s.lastIndexOf(c)] for a one-unit needle: the greatest index holding
    [c], or -1. *)
Fixpoint lastIndexFrom (c : N) (s : jstring) (i : Z) (acc : Z) : Z :=
  match s with
  | [] => acc
  | x :: s' => lastIndexFrom c s' (i + 1) (if (x =? c)%N then i else acc)
  end.
Definition lastIndexOf (s : jstring) (c : N) : Z := lastIndexFrom c s 0 (-1).

(** Relative index of [slice]: negative counts from the end, everything is
    clamped to [0, length]. *)
Definition relIndex (len k : Z) : Z :=
  if (k <? 0)%Z then Z.max (len + k) 0 else Z.min k len.

(** [s.slice(from, to)]. *)
Definition slice (s : jstring) (from to : Z) : jstring :=
  let len := Z.of_nat (length s) in
  let a := relIndex len from in
  let b := relIndex len to in
  firstn (Z.to_nat (b - a)) (skipn (Z.to_nat a) s).

(** [s.slice(from)]. *)
Definition sliceFrom (s : jstring) (from : Z) : jstring :=
  slice s from (Z.of_nat (length s)).

(** [s.replace(/\\/g, '/')]. *)
Definition replaceBackslashes (s : jstring) : jstring :=
  map (fun c => if (c =? BACKSLASH)%N then SLASH else c) s.

(** [s.split(sep)] for a one-unit separator; the result is never empty. *)
Fixpoint split (sep : N) (s : jstring) : list jstring :=
  match s with
  | [] => [[]]
  | c :: s' =>
      match split sep s' with
      | [] => [[]]
      | seg :: segs => if (c =? sep)%N then [] :: seg :: segs
                       else (c :: seg) :: segs
      end
  end.

(** [arr.join(sep)]. *)
Fixpoint join (sep : jstring) (l : list jstring) : jstring :=
  match l with
  | [] => []
  | [x] => x
  | x :: rest => x ++ sep ++ join sep rest
  end.

(** Decimal rendering of a length, as a template literal does. *)
Definition numberToString (n : nat) : jstring :=
  js (NilZero.string_of_uint (Nat.to_uint n)).

(** Values a caller may hand over where a string is expected. *)
Inductive value :=
| Null
| Undefined
| Str (s : jstring).

(** [ToString], applied by [RegExp.prototype.test] to its argument. *)
Definition toString (v : value) : jstring :=
  match v with
  | Null => js "null"
  | Undefined => js "undefined"
  | Str s => s
  end.

End JS.
Import JS.

(* ================================================================== *)
(** ** Regular expressions *)
(* ================================================================== *)

Module RegExp.

(** Members of a character class. *)
Inductive citem :=
| CChar (c : N)
| CRange (lo hi : N)
| CSpace            (* \s *)
| CDigit            (* \d *)
| CWord.            (* \w *)

Inductive regex :=
| Eps
| Cls (neg : bool) (items : list citem)
| Dot
| Seq (a b : regex)
| Alt (a b : regex)
| Star (greedy : bool) (a : regex)
| Opt (a : regex)
| Bol                (* ^ *)
| Eol                (* $ *)
| WordB              (* \b *)
| NotAhead (a : regex).  (* (?!a) *)

(** A RegExp object: its pattern and the flags [i] and [m].  The flag [g]
    is carried by the function used ([execAll] instead of [exec]). *)
Record t := mk { source : regex; ignoreCase : bool; multiline : bool }.

Definition isLineTerminator (c : N) : bool :=
  existsb (N.eqb c) [10; 13; 8232; 8233]%N.

(** WhiteSpace and LineTerminator code units: the members of \s. *)
Definition spaceUnits : list N :=
  [9; 10; 11; 12; 13; 32; 160; 5760;
   8192; 8193; 8194; 8195; 8196; 8197; 8198; 8199; 8200; 8201; 8202;
   8232; 8233; 8239; 8287; 12288; 65279]%N.

Definition isSpace (c : N) : bool := existsb (N.eqb c) spaceUnits.
Definition isDigit (c : N) : bool := inRange 48 57 c.
Definition isWordChar (c : N) : bool :=
  inRange 97 122 c || inRange 65 90 c || inRange 48 57 c || (c =? 95)%N.

(** Canonicalize of the non-Unicode matcher, on ASCII: with [i] a letter is
    compared through its upper case.  A code unit from 128 on never
    canonicalizes to an ASCII one, and every class member of the patterns
    below is ASCII. *)
Definition canonicalize (ic : bool) (c : N) : N :=
  if ic && isLowerAscii c then (c - 32)%N else c.

Definition itemMatch (ic : bool) (it : citem) (ch : N) : bool :=
  match it with
  | CChar c => (canonicalize ic c =? canonicalize ic ch)%N
  | CRange lo hi =>
      if ic then
        let u := canonicalize ic ch in
        inRange lo hi u || (isUpperAscii u && inRange lo hi (u + 32))
      else inRange lo hi ch
  | CSpace => isSpace ch
  | CDigit => isDigit ch
  | CWord => isWordChar ch
  end.

Definition clsMatch (ic neg : bool) (items : list citem) (ch : N) : bool :=
  xorb neg (existsb (fun it => itemMatch ic it ch) items).

(** A position of the matcher: the code unit just before it, if any, and
    the input still to read. *)
Definition state := (option N * jstring)%type.

Definition remaining (st : state) : nat := length (snd st).

Definition progress (st st' : state) : bool := remaining st' <? remaining st.

(** Iteration of [a*]: an iteration that consumes nothing is not considered
    (RepeatMatcher, step 2.b); greedy tries one more iteration before
    stopping, lazy stops first. *)
Fixpoint starLoop (greedy : bool) (f : state -> list state)
    (fuel : nat) (st : state) : list state :=
  match fuel with
  | O => [st]
  | S k =>
      let more :=
        flat_map (fun st' => if progress st st' then starLoop greedy f k st'
                             else []) (f st) in
      if greedy then more ++ [st] else st :: more
  end.

Definition atBol (ml : bool) (st : state) : bool :=
  match fst st with
  | None => true
  | Some c => ml && isLineTerminator c
  end.

Definition atEol (ml : bool) (st : state) : bool :=
  match snd st with
  | [] => true
  | c :: _ => ml && isLineTerminator c
  end.

Definition atWordB (st : state) : bool :=
  let a := match fst st with Some c => isWordChar c | None => false end in
  let b := match snd st with c :: _ => isWordChar c | [] => false end in
  xorb a b.

(** Every end position reachable from [st], best first. *)
Fixpoint m (ic ml : bool) (r : regex) : state -> list state :=
  match r with
  | Eps => fun st => [st]
  | Cls neg items => fun st =>
      match snd st with
      | c :: rest => if clsMatch ic neg items c then [(Some c, rest)] else []
      | [] => []
      end
  | Dot => fun st =>
      match snd st with
      | c :: rest => if isLineTerminator c then [] else [(Some c, rest)]
      | [] => []
      end
  | Seq a b => fun st => flat_map (m ic ml b) (m ic ml a st)
  | Alt a b => fun st => m ic ml a st ++ m ic ml b st
  | Star greedy a => fun st => starLoop greedy (m ic ml a) (remaining st) st
  | Opt a => fun st => filter (progress st) (m ic ml a st) ++ [st]
  | Bol => fun st => if atBol ml st then [st] else []
  | Eol => fun st => if atEol ml st then [st] else []
  | WordB => fun st => if atWordB st then [st] else []
  | NotAhead a => fun st =>
      match m ic ml a st with
      | [] => [st]
      | _ :: _ => []
      end
  end.

Definition run (re : t) : state -> list state :=
  m (ignoreCase re) (multiline re) (source re).

(** A match: where it starts and the text it covers. *)
Record Match := mkMatch { index : Z; text : jstring }.

(** The text between a start position and an end position reached from
    it. *)
Definition consumed (rest : jstring) (e : state) : jstring :=
  firstn (length rest - remaining e) rest.

(** The search of [exec]: the first index, from the current position on,
    at which the pattern matches.  Returns the match and the position after
    it. *)
Fixpoint search (re : t) (prev : option N) (rest : jstring) (i : Z)
  : option (Match * state) :=
  match run re (prev, rest) with
  | e :: _ =>
      Some (mkMatch i (consumed rest e), e)
  | [] =>
      match rest with
      | [] => None
      | c :: rest' => search re (Some c) rest' (i + 1)
      end
  end.

(** [re.exec(s)] for a pattern without [g]: the search starts at 0. *)
Definition exec (re : t) (s : jstring) : option Match :=
  option_map fst (search re None s 0).

(** [re.test(s)]. *)
Definition test (re : t) (s : jstring) : bool :=
  match exec re s with
  | Some _ => true
  | None => false
  end.

(** The loop [while ((match = re.exec(s)) !== null)] over a pattern with
    [g]: each search starts at [lastIndex], the end of the previous match.
    A match of the empty string leaves [lastIndex] where it is and the loop
    never ends: that, and running out of fuel, is [None]. *)
Fixpoint execLoop (re : t) (fuel : nat) (prev : option N) (rest : jstring)
    (i : Z) : option (list Match) :=
  match fuel with
  | O => None
  | S k =>
      match search re prev rest i with
      | None => Some []
      | Some (mt, (prev', rest')) =>
          match text mt with
          | [] => None
          | _ :: _ =>
              option_map (cons mt)
                (execLoop re k prev' rest'
                   (index mt + Z.of_nat (length (text mt))))
          end
      end
  end.

Definition execAll (re : t) (s : jstring) : option (list Match) :=
  execLoop re (S (length s)) None s 0.

(** *** Pattern syntax *)

Definition chr (c : N) : regex := Cls false [CChar c].

(** A literal run of ASCII characters. *)
Definition lit (s : string) : regex :=
  fold_right (fun c r => Seq (chr c) r) Eps (js s).

Definition seqs (l : list regex) : regex := fold_right Seq Eps l.

Fixpoint alts (l : list regex) : regex :=
  match l with
  | [] => NotAhead Eps
  | [a] => a
  | a :: rest => Alt a (alts rest)
  end.

Definition plus (a : regex) : regex := Seq a (Star true a).

(** [a{n}]. *)
Fixpoint rep (n : nat) (a : regex) : regex :=
  match n with
  | O => Eps
  | S k => Seq a (rep k a)
  end.

(** [a{n,}]. *)
Definition repFrom (n : nat) (a : regex) : regex := Seq (rep n a) (Star true a).

(** [a{0,n}], greedy. *)
Fixpoint upTo (n : nat) (a : regex) : regex :=
  match n with
  | O => Eps
  | S k => Opt (Seq a (upTo k a))
  end.

Definition space : regex := Cls false [CSpace].
Definition digit : regex := Cls false [CDigit].
Definition spaces : regex := Star true space.    (* \s* *)
Definition spaces1 : regex := plus space.        (* \s+ *)
Definition digits1 : regex := plus digit.        (* \d+ *)
Definition anything : regex := Star true Dot.    (* .* *)

End RegExp.
Import RegExp.

(* ================================================================== *)
(** ** scripts/lib/rules-engine.mjs *)
(* ================================================================== *)

Module RulesEngine.

(** Each rule: { id, description, pattern, appliesTo, fileExtensions,
    message }; [fileExtensions] is an array or null. *)
Record Rule := mkRule {
  id : jstring;
  description : jstring;
  pattern : RegExp.t;
  appliesTo : jstring;
  fileExtensions : option (list jstring);
  message : jstring
}.

Record Violation := mkViolation {
  ruleId : jstring;
  cycle : N;
  vmessage : jstring
}.

(** The configuration object the loader hands over: [disabledRules] and the
    toggle [cycle4.enabled] may each be absent. *)
Record Cycle4Config := mkCycle4Config { enabled : option bool }.
Record Config := mkConfig {
  disabledRules : option (list jstring);
  cycle4 : option Cycle4Config
}.

(** The object [{}]. *)
Definition emptyConfig : Config := mkConfig None None.

(** An array constant of the module: its identity (what [===] compares) and
    its elements. *)
Record RuleArray := mkRuleArray { arrayId : nat; elements : list Rule }.

Definition quote : regex :=
  Cls false [CChar SQUOTE; CChar DQUOTE; CChar BACKTICK].  (* the three quotes *)
Definition quote2 : regex :=
  Cls false [CChar SQUOTE; CChar DQUOTE].        (* single or double quote *)
Definition letters : regex :=
  Star true (Cls false [CRange 97 122; CRange 65 90]).         (* [a-zA-Z]* *)
Definition sep : regex := Opt (Cls false [CChar 95; CChar 45]). (* [_-]? *)
Definition sqlVerb : regex :=
  alts [lit "SELECT"; lit "INSERT"; lit "UPDATE"; lit "DELETE";
        lit "DROP"; lit "ALTER"; lit "CREATE"].

Definition jsExtensions : list jstring :=
  [js ".js"; js ".ts"; js ".jsx"; js ".tsx"; js ".mjs"; js ".cjs"].

(** *** Cycle 1: code quality rules *)

Definition cycle1Rules : list Rule := [
  mkRule (js "no-todo")
    (js "Block TODO/FIXME/HACK/XXX comments in code")
    (* /\b(TODO|FIXME|HACK|XXX)\b/ *)
    (RegExp.mk
       (seqs [WordB; alts [lit "TODO"; lit "FIXME"; lit "HACK"; lit "XXX"];
              WordB]) false false)
    (js "file-write") None
    (js "Code contains a TODO/FIXME/HACK/XXX comment. Remove placeholder comments and implement the actual logic.");
  mkRule (js "no-empty-pass")
    (js "Block placeholder " ++ [DQUOTE] ++ js "pass" ++ [DQUOTE]
       ++ js " statements in Python")
    (* /^\s*pass\s*$/m *)
    (RegExp.mk (seqs [Bol; spaces; lit "pass"; spaces; Eol]) false true)
    (js "file-write") (Some [js ".py"; js ".pyi"])
    (js "Python file contains a bare " ++ [DQUOTE] ++ js "pass" ++ [DQUOTE]
       ++ js " statement. Implement the actual logic instead of using a placeholder.");
  mkRule (js "no-not-implemented")
    (js "Block NotImplementedError in Python")
    (* /raise\s+NotImplementedError/ *)
    (RegExp.mk (seqs [lit "raise"; spaces1; lit "NotImplementedError"])
       false false)
    (js "file-write") (Some [js ".py"; js ".pyi"])
    (js "Code raises NotImplementedError. Implement the actual functionality instead of leaving a stub.");
  mkRule (js "no-ellipsis")
    (js "Block ellipsis placeholder in Python")
    (* /^\s*\.\.\.\s*$/m *)
    (RegExp.mk (seqs [Bol; spaces; lit "..."; spaces; Eol]) false true)
    (js "file-write") (Some [js ".py"; js ".pyi"])
    (js "Python file contains an ellipsis (...) placeholder. Implement the actual logic.");
  mkRule (js "no-placeholder-text")
    (js "Block placeholder/stub text in code")
    (* /\b(placeholder|stub|mock implementation|implement\s+this|add\s+implementation\s+here|your\s+code\s+here)\b/i *)
    (RegExp.mk
       (seqs [WordB;
              alts [lit "placeholder"; lit "stub"; lit "mock implementation";
                    seqs [lit "implement"; spaces1; lit "this"];
                    seqs [lit "add"; spaces1; lit "implementation"; spaces1;
                          lit "here"];
                    seqs [lit "your"; spaces1; lit "code"; spaces1;
                          lit "here"]];
              WordB]) true false)
    (js "file-write") None
    (js "Code contains placeholder/stub text. Write the complete implementation.");
  mkRule (js "no-throw-not-impl")
    (js "Block " ++ [DQUOTE] ++ js "throw new Error(not implemented)"
       ++ [DQUOTE] ++ js " in JS/TS")
    (* the pattern of rules-engine.mjs line 59, flag i *)
    (RegExp.mk
       (seqs [lit "throw"; spaces1; lit "new"; spaces1; lit "Error"; spaces;
              lit "("; spaces; quote; anything; lit "not"; spaces1;
              lit "implemented"]) true false)
    (js "file-write") (Some jsExtensions)
    (js "Code throws a " ++ [DQUOTE] ++ js "not implemented" ++ [DQUOTE]
       ++ js " error. Implement the actual functionality.")
].

Definition CYCLE1_RULES : RuleArray := mkRuleArray 1 cycle1Rules.

(** *** Cycle 2: security rules *)

Definition cycle2Rules : list Rule := [
  mkRule (js "no-eval")
    (js "Block eval() usage")
    (* /\beval\s*\(/ *)
    (RegExp.mk (seqs [WordB; lit "eval"; spaces; lit "("]) false false)
    (js "file-write") (Some (jsExtensions ++ [js ".py"]))
    (js "Code uses eval(). This is a critical security risk (code injection). Use a safe alternative.");
  mkRule (js "no-exec")
    (js "Block exec() usage in Python")
    (* /\bexec\s*\(/ *)
    (RegExp.mk (seqs [WordB; lit "exec"; spaces; lit "("]) false false)
    (js "file-write") (Some [js ".py"])
    (js "Python code uses exec(). This allows arbitrary code execution. Use a safe alternative.");
  mkRule (js "no-os-system")
    (js "Block os.system() in Python")
    (* /\bos\.system\s*\(/ *)
    (RegExp.mk (seqs [WordB; lit "os.system"; spaces; lit "("]) false false)
    (js "file-write") (Some [js ".py"])
    (js "Python code uses os.system(). Use subprocess.run() with shell=False instead.");
  mkRule (js "no-shell-true")
    (js "Block shell=True in Python subprocess")
    (* /shell\s*=\s*True/ *)
    (RegExp.mk (seqs [lit "shell"; spaces; lit "="; spaces; lit "True"])
       false false)
    (js "file-write") (Some [js ".py"])
    (js "Python code uses shell=True in subprocess. This enables shell injection. Use shell=False and pass args as a list.");
  mkRule (js "no-hardcoded-secrets")
    (js "Block hardcoded API keys, passwords, and tokens")
    (* the pattern of rules-engine.mjs line 104, flag i *)
    (RegExp.mk
       (seqs [alts [seqs [lit "api"; sep; lit "key"];
                    seqs [lit "api"; sep; lit "secret"];
                    lit "password"; lit "passwd";
                    seqs [lit "secret"; sep; lit "key"];
                    seqs [lit "access"; sep; lit "token"];
                    seqs [lit "auth"; sep; lit "token"];
                    seqs [lit "private"; sep; lit "key"]];
              spaces; Cls false [CChar 58; CChar 61]; spaces; quote;
              repFrom 8
                (Cls false [CRange 65 90; CRange 97 122; CRange 48 57;
                            CChar 43; CChar 47; CChar 61; CChar 95;
                            CChar 45])]) true false)
    (js "file-write") None
    (js "Code contains what appears to be a hardcoded secret (API key, password, or token). Use environment variables or a secrets manager instead.");
  mkRule (js "no-raw-sql")
    (js "Block SQL injection via string concatenation")
    (* the pattern of rules-engine.mjs line 112, flag i *)
    (RegExp.mk
       (Alt
          (seqs [lit "f"; quote; anything; sqlVerb; spaces1; anything;
                 lit "{"])
          (seqs [sqlVerb; spaces1; anything;
                 alts [seqs [quote2; spaces; lit "+"];
                       seqs [lit "+"; spaces; quote2];
                       lit "${"; lit "%s"; lit ".format("]]))
       true false)
    (js "file-write") None
    (js "Code constructs SQL using string concatenation/interpolation. Use parameterized queries to prevent SQL injection.");
  mkRule (js "no-innerhtml")
    (js "Block innerHTML assignment (XSS risk)")
    (* /\.innerHTML\s*=/ *)
    (RegExp.mk (seqs [lit ".innerHTML"; spaces; lit "="]) false false)
    (js "file-write") (Some (jsExtensions ++ [js ".html"]))
    (js "Code assigns to .innerHTML which enables XSS attacks. Use .textContent or a sanitization library instead.");
  mkRule (js "no-rm-rf")
    (js "Block destructive rm -rf on root or home")
    (* the pattern of rules-engine.mjs line 128, flag i *)
    (RegExp.mk
       (seqs [lit "rm"; spaces1; Opt (Seq (lit "-") letters); lit "r";
              letters; lit "f"; letters; spaces1;
              alts [seqs [lit "/"; space]; lit "/*"; lit "$HOME";
                    lit "${HOME}"; lit "~/"; lit "/root";
                    seqs [lit "C:"; chr BACKSLASH]]]) true false)
    (js "bash") None
    (js "Command attempts destructive recursive delete on a critical path. This could destroy the system.");
  mkRule (js "no-chmod-777")
    (js "Block world-writable permissions")
    (* /chmod\s+(?:.*\s)?777\b/ *)
    (RegExp.mk
       (seqs [lit "chmod"; spaces1; Opt (Seq anything space); lit "777";
              WordB]) false false)
    (js "bash") None
    (js "Command sets world-writable permissions (777). Use more restrictive permissions (e.g. 755 or 644).");
  mkRule (js "no-curl-pipe-sh")
    (js "Block curl/wget piped to shell execution")
    (* /(?:curl|wget)\s+.*\|\s*(?:ba)?sh/ *)
    (RegExp.mk
       (seqs [alts [lit "curl"; lit "wget"]; spaces1; anything; lit "|";
              spaces; Opt (lit "ba"); lit "sh"]) false false)
    (js "bash") None
    (js "Command pipes downloaded content directly to a shell. Download first, inspect, then execute.");
  mkRule (js "no-insecure-url")
    (js "Block non-HTTPS URLs (except localhost)")
    (* /http:\/\/(?!localhost|127\.0\.0\.1|0\.0\.0\.0|\[::1\])/ *)
    (RegExp.mk
       (seqs [lit "http://";
              NotAhead (alts [lit "localhost"; lit "127.0.0.1";
                              lit "0.0.0.0"; lit "[::1]"])]) false false)
    (js "web") None
    (js "URL uses insecure HTTP instead of HTTPS. Use HTTPS for all non-localhost connections.")
].

Definition CYCLE2_RULES : RuleArray := mkRuleArray 2 cycle2Rules.

(** [config.disabledRules || []]. *)
Definition disabledOf (config : Config) : list jstring :=
  match disabledRules config with
  | Some l => l
  | None => []
  end.

(** One turn of the loop of [_runRules]: the three [continue]s, then the
    test of the pattern and the push. *)
Definition ruleStep (rules : RuleArray) (content : value)
    (fileExt context : jstring) (disabled : list jstring)
    (violations : list Violation) (rule : Rule) : list Violation :=
  if arrayIncludes disabled (id rule) then violations
  else if negb (JS.eqb (appliesTo rule) (js "all"))
          && negb (JS.eqb (appliesTo rule) context) then violations
  else if match fileExtensions rule with
          | Some exts =>
              match fileExt with
              | [] => false
              | _ :: _ => negb (arrayIncludes exts fileExt)
              end
          | None => false
          end then violations
  else if RegExp.test (pattern rule) (toString content) then
    violations ++
      [mkViolation (id rule)
         (if arrayId rules =? arrayId CYCLE1_RULES then 1%N else 2%N)
         (message rule)]
  else violations.

Definition _runRules (rules : RuleArray) (content : value)
    (fileExt context : jstring) (config : Config) : list Violation :=
  fold_left (ruleStep rules content fileExt context (disabledOf config))
    (elements rules) [].

Definition runCycle1 (content : value) (fileExt context : jstring)
    (config : Config) : list Violation :=
  _runRules CYCLE1_RULES content fileExt context config.

Definition runCycle2 (content : value) (fileExt context : jstring)
    (config : Config) : list Violation :=
  _runRules CYCLE2_RULES content fileExt context config.

End RulesEngine.
Import RulesEngine.

(* ================================================================== *)
(** ** scripts/lib/research-verifier.mjs *)
(* ================================================================== *)

Module ResearchVerifier.

(** *** Pass 1: vague language phrases *)

Definition VAGUE_PHRASES : list string := [
  "studies show";
  "research indicates";
  "experts say";
  "according to research";
  "data suggests";
  "it is known that";
  "generally accepted";
  "industry reports";
  "recent surveys";
  "analysts estimate";
  "sources suggest";
  "widely reported";
  "it has been shown";
  "evidence suggests"
]%string.

(** [p.replace(/\s+/g, '\\s+')] read as a pattern: every run of white space
    of the phrase stands for \s+, every other character for itself. *)
Fixpoint phraseUnits (inSpace : bool) (p : jstring) : regex :=
  match p with
  | [] => Eps
  | c :: p' =>
      if isSpace c then
        if inSpace then phraseUnits true p'
        else Seq spaces1 (phraseUnits true p')
      else Seq (chr c) (phraseUnits false p')
  end.

Definition phrasePattern (p : string) : regex := phraseUnits false (js p).

(** [new RegExp(VAGUE_PHRASES.map(...).join('|'), 'i')]. *)
Definition VAGUE_PATTERN : RegExp.t :=
  RegExp.mk (alts (map phrasePattern VAGUE_PHRASES)) true false.

(** *** Pass 2: claim patterns *)

Definition decimals : regex := Opt (Seq (lit ".") digits1).   (* (\.\d+)? *)

Definition CLAIM_PATTERNS : list RegExp.t := [
  (* /\d+(\.\d+)?\s*%/ *)
  RegExp.mk (seqs [digits1; decimals; spaces; lit "%"]) false false;
  (* /\d+(\.\d+)?x\b/ *)
  RegExp.mk (seqs [digits1; decimals; lit "x"; WordB]) false false;
  (* /\d+-fold\b/i *)
  RegExp.mk (seqs [digits1; lit "-fold"; WordB]) true false;
  (* /\b\d{1,3}(,\d{3})+\b/ *)
  RegExp.mk
    (seqs [WordB; digit; upTo 2 digit; plus (Seq (lit ",") (rep 3 digit));
           WordB]) false false;
  (* /\$\s*\d+(\.\d+)?\s*(million|billion|trillion|[MBTmbt])\b/i *)
  RegExp.mk
    (seqs [lit "$"; spaces; digits1; decimals; spaces;
           alts [lit "million"; lit "billion"; lit "trillion";
                 Cls false [CChar 77; CChar 66; CChar 84;
                            CChar 109; CChar 98; CChar 116]];
           WordB]) true false;
  (* /\b(study|survey|report)\s+(by|from|at)\b/i *)
  RegExp.mk
    (seqs [WordB; alts [lit "study"; lit "survey"; lit "report"]; spaces1;
           alts [lit "by"; lit "from"; lit "at"]; WordB]) true false;
  (* /\b[A-Z][a-z]+\s+(University|Institute|Lab)\b/ *)
  RegExp.mk
    (seqs [WordB; Cls false [CRange 65 90]; plus (Cls false [CRange 97 122]);
           spaces1; alts [lit "University"; lit "Institute"; lit "Lab"];
           WordB]) false false;
  (* /\b\d+(\.\d+)?\s*times\s+(more|less|faster|slower|higher|lower|greater|better|worse)\b/i *)
  RegExp.mk
    (seqs [WordB; digits1; decimals; spaces; lit "times"; spaces1;
           alts [lit "more"; lit "less"; lit "faster"; lit "slower";
                 lit "higher"; lit "lower"; lit "greater"; lit "better";
                 lit "worse"];
           WordB]) true false;
  (* /\b(in|since|by|from)\s+\d{4}\b/i *)
  RegExp.mk
    (seqs [WordB; alts [lit "in"; lit "since"; lit "by"; lit "from"];
           spaces1; rep 4 digit; WordB]) true false
].

(** *** Source proximity check *)

Definition scheme : regex := seqs [lit "http"; Opt (lit "s"); lit "://"].

Definition SOURCE_PATTERNS : list RegExp.t := [
  (* /\[.*?\]\(https?:\/\/[^\s)]+\)/ : markdown link *)
  RegExp.mk
    (seqs [lit "["; Star false Dot; lit "]("; scheme;
           plus (Cls true [CSpace; CChar 41]); lit ")"]) false false;
  (* /https?:\/\/[^\s)>\]]+/ : bare URL *)
  RegExp.mk
    (seqs [scheme; plus (Cls true [CSpace; CChar 41; CChar 62; CChar 93])])
    false false;
  (* /\[(Source|Ref|Verified):?[^\]]*\]/i : bracketed marker *)
  RegExp.mk
    (seqs [lit "["; alts [lit "Source"; lit "Ref"; lit "Verified"];
           Opt (lit ":"); Star true (Cls true [CChar 93]); lit "]"])
    true false
].

Definition VERIFICATION_TAG : jstring := js "<!-- PERPLEXITY_VERIFIED -->".
Definition SOURCE_PROXIMITY : Z := 300.

(** *** Rule definitions *)

Record Cycle4Rule := mkCycle4Rule {
  c4id : jstring;
  c4description : jstring;
  c4appliesTo : jstring;
  c4message : jstring
}.

Definition CYCLE4_RULES : list Cycle4Rule := [
  mkCycle4Rule (js "no-vague-claims")
    (js "Block vague unsourced language like " ++ [DQUOTE]
       ++ js "studies show" ++ [DQUOTE] ++ js ", " ++ [DQUOTE]
       ++ js "experts say" ++ [DQUOTE])
    (js "research-md")
    (js "Research file contains vague language (e.g. " ++ [DQUOTE]
       ++ js "studies show" ++ [DQUOTE] ++ js ", " ++ [DQUOTE]
       ++ js "experts say" ++ [DQUOTE]
       ++ js "). Replace with specific, sourced claims: name the study, author, institution, and year, then link the source.");
  mkCycle4Rule (js "no-unverified-claims")
    (js "Block statistical/factual claims without PERPLEXITY_VERIFIED tag")
    (js "research-md")
    (js "Research file contains statistical or factual claims but is missing the <!-- PERPLEXITY_VERIFIED --> tag. Verify all claims using Perplexity MCP tools and add the tag to confirm verification.");
  mkCycle4Rule (js "no-unsourced-claims")
    (js "Block claims that lack a nearby source URL (within 300 chars)")
    (js "research-md")
    (js "Research file has the PERPLEXITY_VERIFIED tag but some claims lack a source URL within 300 characters. Add a markdown link, bare URL, or [Source:]/[Ref:]/[Verified:] marker near each claim.")
].

(** [CYCLE4_RULES[i].message]. *)
Definition ruleMessage (i : nat) : jstring :=
  match nth_error CYCLE4_RULES i with
  | Some r => c4message r
  | None => js "undefined"
  end.

(** *** Internal helpers *)

Record Claim := mkClaim { ctext : jstring; cindex : Z }.

(** The pattern rebuilt with flags 'gi' or 'g': [i] is kept, [m] is not. *)
Definition globalPattern (p : RegExp.t) : RegExp.t :=
  RegExp.mk (source p) (ignoreCase p) false.

(** The key [`${match.index}:${match[0]}`]. *)
Definition claimKey (mt : Match) : jstring :=
  numberToString (Z.to_nat (index mt)) ++ js ":" ++ text mt.

(** The body of the while loop over the matches of one pattern: a match
    whose key was seen is skipped, another one is recorded and pushed. *)
Fixpoint pushMatches (ms : list Match) (seen : list jstring)
    (claims : list Claim) : list jstring * list Claim :=
  match ms with
  | [] => (seen, claims)
  | mt :: ms' =>
      let key := claimKey mt in
      if arrayIncludes seen key then pushMatches ms' seen claims
      else pushMatches ms' (seen ++ [key])
             (claims ++ [mkClaim (text mt) (index mt)])
  end.

(** The for loop over [CLAIM_PATTERNS]; [None] when a while loop does not
    end. *)
Fixpoint extractLoop (patterns : list RegExp.t) (content : jstring)
    (seen : list jstring) (claims : list Claim) : option (list Claim) :=
  match patterns with
  | [] => Some claims
  | p :: patterns' =>
      match execAll (globalPattern p) content with
      | None => None
      | Some ms =>
          let '(seen', claims') := pushMatches ms seen claims in
          extractLoop patterns' content seen' claims'
      end
  end.

(** Extract all statistical/factual claims from content with their
    positions. *)
Definition extractClaims (content : jstring) : option (list Claim) :=
  extractLoop CLAIM_PATTERNS content [] [].

(** Check if there is a source within SOURCE_PROXIMITY chars of a claim. *)
Definition hasNearbySource (content : jstring) (claimIndex : Z) : bool :=
  let start := Z.max 0 (claimIndex - SOURCE_PROXIMITY) in
  let end_ := Z.min (Z.of_nat (length content))
                    (claimIndex + SOURCE_PROXIMITY) in
  let window := slice content start end_ in
  existsb (fun p => RegExp.test p window) SOURCE_PATTERNS.

(** *** Public API *)

(** [(config && config.disabledRules) || []]: here [config] may be null. *)
Definition disabledOf4 (config : option Config) : list jstring :=
  match config with
  | Some c => disabledOf c
  | None => []
  end.

(** Run Cycle 4 against content.  [None]: the call does not return. *)
Definition runCycle4 (content : value) (filePath : jstring)
    (config : option Config) : option (list Violation) :=
  let disabled := disabledOf4 config in
  match content with
  | Str ((_ :: _) as content) =>
      (* Pass 1: vague language detection *)
      match (if arrayIncludes disabled (js "no-vague-claims") then None
             else RegExp.exec VAGUE_PATTERN content) with
      | Some mt =>
          Some [mkViolation (js "no-vague-claims") 4
                  (ruleMessage 0 ++ [LF; LF] ++ js "Found: " ++ [DQUOTE]
                     ++ text mt ++ [DQUOTE])]
      | None =>
          (* Pass 2: claim extraction and proximity *)
          match extractClaims content with
          | None => None
          | Some [] => Some []
          | Some ((_ :: _) as claims) =>
              let hasVerificationTag := includes content VERIFICATION_TAG in
              if negb hasVerificationTag
                 && negb (arrayIncludes disabled (js "no-unverified-claims"))
              then
                Some [mkViolation (js "no-unverified-claims") 4
                        (ruleMessage 1 ++ [LF; LF] ++ js "Found "
                           ++ numberToString (length claims)
                           ++ js " claim(s) without verification tag.")]
              else if hasVerificationTag
                      && negb (arrayIncludes disabled
                                 (js "no-unsourced-claims"))
              then
                let unsourced :=
                  filter (fun claim =>
                            negb (hasNearbySource content (cindex claim)))
                         claims in
                match unsourced with
                | [] => Some []
                | _ :: _ =>
                    Some [mkViolation (js "no-unsourced-claims") 4
                            (ruleMessage 2 ++ [LF; LF] ++ js "Found "
                               ++ numberToString (length unsourced)
                               ++ js " unsourced claim(s).")]
                end
              else Some []
          end
      end
  | _ => Some []
  end.

End ResearchVerifier.
Import ResearchVerifier.

(* ================================================================== *)
(** ** scripts/lib/utils.mjs *)
(* ================================================================== *)

Module Utils.

(** Detect file extension from a file path string.  Returns lowercase
    extension with dot or the empty string if none. *)
Definition getFileExtension (filePath : value) : jstring :=
  match filePath with
  | Str ((_ :: _) as filePath) =>
      let lastDot := lastIndexOf filePath DOT in
      if (lastDot =? -1)%Z || (lastDot =? Z.of_nat (length filePath) - 1)%Z
      then []
      else toLowerCase (sliceFrom filePath lastDot)
  | _ => []
  end.

(** [arr.pop() || ''] on the result of a split: its last element. *)
Definition pop (l : list jstring) : jstring := last l [].

(** Check if a file path is a research markdown file. *)
Definition isResearchFile (filePath : value) : bool :=
  match filePath with
  | Str ((_ :: _) as filePath) =>
      let normalized := toLowerCase (replaceBackslashes filePath) in
      if negb (endsWith normalized (js ".md")) then false
      else
        let fileName := pop (split SLASH normalized) in
        includes normalized (js "/research/")
        || includes fileName (js "research")
  | _ => false
  end.

End Utils.
Import Utils.

(* ================================================================== *)
(** ** scripts/pre-tool-gate.mjs *)
(* ================================================================== *)

Module PreToolGate.

(** A field of [tool_input]: a string, or a value of another type.  The
    fields the hooks read by name (file_path, content, new_string, command,
    url, query, pattern) are strings in the tool schemas of the host.  One
    that is absent, or falsy (null, false, 0), reads as the empty string.
    On a truthy value of another type (a number, an array, an object) the
    code goes on with that value: a pattern converts it to a string, and a
    string method called on it is missing or is another method.  The model
    does not follow the code there, and what is proved of a field read by
    name is proved for a string or an absent field, see [stringField]. *)
Inductive field :=
| FStr (s : jstring)
| FOther.

Definition ToolInput := list (jstring * field).

Record HookInput := mkHookInput {
  tool_name : option jstring;
  tool_input : option ToolInput
}.

(** [toolInput.key || '']. *)
Definition getField (toolInput : ToolInput) (key : string) : jstring :=
  match find (fun kv => JS.eqb (fst kv) (js key)) toolInput with
  | Some (_, FStr s) => s
  | _ => []
  end.

(** [Object.values(toolInput).filter(v => typeof v === 'string')]. *)
Fixpoint stringValues (toolInput : ToolInput) : list jstring :=
  match toolInput with
  | [] => []
  | (_, FStr s) :: rest => s :: stringValues rest
  | (_, FOther) :: rest => stringValues rest
  end.

Record Extracted := mkExtracted {
  content : jstring;
  context : jstring;
  fileExt : jstring;
  filePath : jstring
}.

(** Extract verifiable content from tool input based on tool type. *)
Definition extractContent (toolName : jstring) (toolInput : ToolInput)
  : Extracted :=
  let normalized := toLowerCase toolName in
  let filePath := getField toolInput "file_path" in
  if JS.eqb normalized (js "write") then
    mkExtracted (getField toolInput "content") (js "file-write")
      (getFileExtension (Str filePath)) filePath
  else if JS.eqb normalized (js "edit") then
    mkExtracted (getField toolInput "new_string") (js "file-write")
      (getFileExtension (Str filePath)) filePath
  else if JS.eqb normalized (js "bash") then
    mkExtracted (getField toolInput "command") (js "bash") [] []
  else if JS.eqb normalized (js "webfetch")
          || JS.eqb normalized (js "websearch") then
    mkExtracted
      (match getField toolInput "url" with
       | [] => getField toolInput "query"
       | u => u
       end) (js "web") [] []
  else if startsWith (js "mcp__") normalized
          || startsWith (js "mcp_") normalized then
    mkExtracted (join [LF] (stringValues toolInput)) (js "mcp") [] []
  else mkExtracted [] (js "unknown") [] [].

(** [config.cycle4?.enabled !== false]. *)
Definition cycle4Enabled (config : Config) : bool :=
  match cycle4 config with
  | Some c => match enabled c with
              | Some false => false
              | _ => true
              end
  | None => true
  end.

(** Route to the appropriate verification cycles (lines 50 to 60). *)
Definition allViolations (config : Config) (e : Extracted)
  : option (list Violation) :=
  if isResearchFile (Str (filePath e)) && cycle4Enabled config then
    runCycle4 (Str (content e)) (filePath e) (Some config)
  else
    let cycle1Violations :=
      runCycle1 (Str (content e)) (fileExt e) (context e) config in
    let cycle2Violations :=
      runCycle2 (Str (content e)) (fileExt e) (context e) config in
    Some (cycle1Violations ++ cycle2Violations).

Inductive Decision :=
| Approve
| Block (reason : jstring).

(** [`[Cycle ${v.cycle} - ${v.ruleId}] ${v.message}`]. *)
Definition reasonOf (v : Violation) : jstring :=
  js "[Cycle " ++ numberToString (N.to_nat (cycle v)) ++ js " - "
    ++ ruleId v ++ js "] " ++ vmessage v.

Definition reasonText (violations : list Violation) : jstring :=
  js "Triple Verification BLOCKED this operation:" ++ [LF; LF]
    ++ join [LF; LF] (map reasonOf violations) ++ [LF; LF]
    ++ js "Fix these issues and try again.".

(** [input.tool_name || ''] and [input.tool_input || {}]. *)
Definition toolNameOf (input : HookInput) : jstring :=
  match tool_name input with Some n => n | None => [] end.
Definition toolInputOf (input : HookInput) : ToolInput :=
  match tool_input input with Some t => t | None => [] end.

(** The violations the gate decides on: none when there is no input or no
    content to verify. *)
Definition gateViolations (config : Config) (input : option HookInput)
  : option (list Violation) :=
  match input with
  | None => Some []
  | Some input =>
      let e := extractContent (toolNameOf input) (toolInputOf input) in
      match content e with
      | [] => Some []
      | _ :: _ => allViolations config e
      end
  end.

(** The decision written to stdout. *)
Definition gate (config : Config) (input : option HookInput)
  : option Decision :=
  match gateViolations config input with
  | None => None
  | Some [] => Some Approve
  | Some ((_ :: _) as violations) => Some (Block (reasonText violations))
  end.

(** *** The hook as a process *)

(** The property tool_name of the parsed input. *)
Inductive ToolName :=
| NameAbsent                  (* none, or a falsy value *)
| NameString (s : jstring)
| NameOther.                  (* a truthy value that is not a string *)

(** What is on stdin.  A parsed value that is truthy and not an object
    with these properties (a number, a string, an array, true) is
    [StdinValue NameAbsent None]; a tool_input that is a string or an
    array reads as the object of its elements under their indices, one that
    is a number or true as the empty object. *)
Inductive Stdin :=
| StdinBlank                  (* nothing but white space *)
| StdinUnparsable             (* [JSON.parse] throws *)
| StdinFalsy                  (* null, false, 0 or the empty string *)
| StdinValue (name : ToolName) (toolInput : option ToolInput).

(** What the process leaves on stdout. *)
Inductive Outcome :=
| Printed (d : Decision)
| Silent.

(** [readStdinJSON]: the parsed input, [Some None] for null and the other
    falsy values, or [None] when [JSON.parse] throws. *)
Definition readStdinJSON (stdin : Stdin)
  : option (option (ToolName * option ToolInput)) :=
  match stdin with
  | StdinBlank => Some None
  | StdinUnparsable => None
  | StdinFalsy => Some None
  | StdinValue name toolInput => Some (Some (name, toolInput))
  end.

(** The input as the gate reads it; there is none for a tool name on which
    [toolName.toLowerCase()] throws. *)
Definition hookInput (name : ToolName) (toolInput : option ToolInput)
  : option HookInput :=
  match name with
  | NameAbsent => Some (mkHookInput None toolInput)
  | NameString s => Some (mkHookInput (Some s) toolInput)
  | NameOther => None
  end.

(** [await failOpen(async () => { ... })]: an exception thrown on the way
    is caught, a line goes to stderr and the process exits with nothing on
    stdout. *)
Definition preToolGate (config : Config) (stdin : Stdin) : option Outcome :=
  match readStdinJSON stdin with
  | None => Some Silent
  | Some None => option_map Printed (gate config None)
  | Some (Some (name, toolInput)) =>
      match hookInput name toolInput with
      | None => Some Silent
      | Some input => option_map Printed (gate config (Some input))
      end
  end.

End PreToolGate.
Import PreToolGate.

(* ================================================================== *)
(** ** scripts/lib/config-loader.mjs *)
(* ================================================================== *)

Module ConfigLoader.

(** What [JSON.parse] returns.  The value of a number plays no part in the
    merge. *)
#[warnings="-register-all"]
Inductive json :=
| JNull
| JBool (b : bool)
| JNum (n : Z)
| JStr (s : jstring)
| JArr (items : list json)
| JObj (fields : list (jstring * json)).

(** The own properties of an object, as key and value pairs.  The order of
    the pairs is the order of insertion; the place the runtime gives to
    integer-like keys when it enumerates an object is not modelled, and an
    object is read through [get] only. *)
Definition Fields := list (jstring * json).

(** [obj[key]], on own properties: [None] is undefined.  The inherited
    properties of a plain object are functions, which the merge treats as
    it treats undefined; the accessor __proto__ is the exception, see
    [assign]. *)
Fixpoint get (fields : Fields) (key : jstring) : option json :=
  match fields with
  | [] => None
  | (k, v) :: rest => if JS.eqb k key then Some v else get rest key
  end.

(** Storing [v] under [key] among the own properties. *)
Fixpoint set (fields : Fields) (key : jstring) (v : json) : Fields :=
  match fields with
  | [] => [(key, v)]
  | (k, x) :: rest =>
      if JS.eqb k key then (k, v) :: rest else (k, x) :: set rest key v
  end.

(** [result[key] = value].  The key __proto__ is stored only where
    [result] holds it as a property of its own, as the copy of a parsed
    object does.  Elsewhere the assignment reaches the accessor of
    Object.prototype: an object, an array or null becomes the prototype of
    [result], which is then no value that [json] records, [None]; any other
    value is ignored. *)
Definition assign (result : Fields) (key : jstring) (value : json)
  : option Fields :=
  match get result key with
  | Some _ => Some (set result key value)
  | None =>
      if JS.eqb key (js "__proto__") then
        match value with
        | JObj _ | JArr _ | JNull => None
        | _ => Some result
        end
      else Some (set result key value)
  end.

(** [{ ...arr }] and [Object.keys(arr)] on an array: its elements under
    their indices. *)
Definition indexed (items : list json) : Fields :=
  combine (map numberToString (seq 0 (length items))) items.

Section Merge.

Variable deepMerge : json -> json -> option json.

(** The value assigned under [key]: the merge of the two values when both
    are objects that are neither null nor arrays, the overriding value
    otherwise. *)
Definition mergeValue (result : Fields) (key : jstring) (ov : json)
  : option json :=
  match ov, get result key with
  | JObj _, Some (JObj _ as rv) => deepMerge rv ov
  | _, _ => Some ov
  end.

(** One round of the loop. *)
Definition mergeStep (result : Fields) (key : jstring) (ov : json)
  : option Fields :=
  match mergeValue result key ov with
  | Some value => assign result key value
  | None => None
  end.

(** The loop over [Object.keys(override)], for an object. *)
Fixpoint mergeKeys (result : Fields) (entries : Fields) : option Fields :=
  match entries with
  | [] => Some result
  | (key, ov) :: rest =>
      match mergeStep result key ov with
      | Some result' => mergeKeys result' rest
      | None => None
      end
  end.

(** The same loop for an array, whose keys are its indices. *)
Fixpoint mergeItems (result : Fields) (i : nat) (items : list json)
  : option Fields :=
  match items with
  | [] => Some result
  | ov :: rest =>
      match mergeStep result (numberToString i) ov with
      | Some result' => mergeItems result' (S i) rest
      | None => None
      end
  end.

End Merge.

(** Deep merge two objects.  The two guards return [base] when [override]
    is null or not an object, and [override] when [base] is; an array
    passes both guards and is spread as an object.  [None]: an assignment
    has changed a prototype. *)
Fixpoint deepMerge (base override : json) {struct override} : option json :=
  match override with
  | JObj entries =>
      match base with
      | JObj fields => option_map JObj (mergeKeys deepMerge fields entries)
      | JArr items =>
          option_map JObj (mergeKeys deepMerge (indexed items) entries)
      | _ => Some override
      end
  | JArr oitems =>
      match base with
      | JObj fields => option_map JObj (mergeItems deepMerge fields 0 oitems)
      | JArr items =>
          option_map JObj (mergeItems deepMerge (indexed items) 0 oitems)
      | _ => Some override
      end
  | _ => Some base
  end.

(** Safely load a JSON file: the parsed value, or the empty object when
    the file does not exist or is invalid ([None]). *)
Definition loadJSONFile (parsed : option json) : json :=
  match parsed with
  | Some v => v
  | None => JObj []
  end.

(** Load and merge configuration from all sources: plugin defaults, user
    config, project config.  [None] when one of the two merges is. *)
Definition loadConfig (defaultsFile userFile projectFile : option json)
  : option json :=
  let defaults := loadJSONFile defaultsFile in
  let userConfig := loadJSONFile userFile in
  let projectConfig := loadJSONFile projectFile in
  match deepMerge defaults userConfig with
  | Some merged => deepMerge merged projectConfig
  | None => None
  end.

End ConfigLoader.
Import ConfigLoader.

(* ================================================================== *)
(** ** scripts/lib/utils.mjs: the project root *)
(* ================================================================== *)

Module ProjectRoot.

Section FileSystem.

(** The file system as the function reads it, and the path functions of
    node:path: [existsSync], [resolve] of a directory and a name,
    [dirname], and [process.cwd()]. *)
Variable existsSync : jstring -> bool.
Variable resolve : jstring -> jstring -> jstring.
Variable dirname : jstring -> jstring.
Variable cwd : jstring.

Definition markers : list jstring :=
  [js ".git"; js "package.json"; js ".claude"].

(** The inner loop: one of the markers exists in [dir]. *)
Definition hasMarker (dir : jstring) : bool :=
  existsb (fun marker => existsSync (resolve dir marker)) markers.

(** The outer loop, with [n] turns left: the directory it returns from, or
    [None] when it breaks at the file system root or runs out of turns. *)
Fixpoint walk (n : nat) (dir : jstring) : option jstring :=
  match n with
  | O => None
  | S k =>
      if hasMarker dir then Some dir
      else
        let parent := dirname dir in
        if JS.eqb parent dir then None else walk k parent
  end.

(** [startDir || process.cwd()]. *)
Definition startOf (startDir : value) : jstring :=
  match startDir with
  | Str ((_ :: _) as d) => d
  | _ => cwd
  end.

(** Determine the project root directory. *)
Definition findProjectRoot (startDir : value) : jstring :=
  match walk 20 (startOf startDir) with
  | Some dir => dir
  | None => startOf startDir
  end.

End FileSystem.

End ProjectRoot.
Import ProjectRoot.

(* ================================================================== *)
(** ** The Stop gate (scripts/post-tool-audit.mjs, from line 56) *)
(* ================================================================== *)

Module StopGate.

(** What [statSync] and [readdirSync] show of a path: a file, a directory
    with its entries ([None] when it cannot be read), something that is
    neither, or a path whose [statSync] throws.  Links are followed by
    [statSync]; a cycle of links is a tree as deep as one wishes, and the
    search looks at a bounded depth only. *)
#[warnings="-register-all"]
Inductive node :=
| File
| Dir (entries : option (list (jstring * node)))
| Other
| Inaccessible.

Section Search.

(** [join] of node:path, applied to a directory and an entry name. *)
Variable join : jstring -> jstring -> jstring.

(** Skip node_modules and dot-directories. *)
Definition skipped (entry : jstring) : bool :=
  JS.eqb entry (js "node_modules") || startsWith (js ".") entry.

(** Recursively find .md files in a directory, up to maxDepth levels.
    [t] is what the file system holds at [dir]. *)
Fixpoint findMarkdownFiles (dir : jstring) (t : node)
    (maxDepth currentDepth : nat) {struct t} : list jstring :=
  if maxDepth <=? currentDepth then []
  else
    match t with
    | Dir (Some entries) =>
        (fix loop (entries : list (jstring * node)) : list jstring :=
           match entries with
           | [] => []
           | (entry, n) :: rest =>
               (if skipped entry then []
                else
                  let fullPath := join dir entry in
                  match n with
                  | Dir _ =>
                      findMarkdownFiles fullPath n maxDepth
                        (S currentDepth)
                  | File =>
                      if endsWith entry (js ".md") then [fullPath] else []
                  | Other | Inaccessible => []
                  end) ++ loop rest
           end) entries
    | _ => []
    end.

End Search.

Section Main.

(** The file system and the path functions the hook reads: [join] and
    [resolve] of node:path, what is found at a path ([None] when
    [existsSync] is false), the text of a file ([None] when
    [readFileSync] throws); and the loaded configuration. *)
Variable join : jstring -> jstring -> jstring.
Variable resolve : jstring -> list jstring -> jstring.
Variable lookup : jstring -> option node.
Variable readFileSync : jstring -> option jstring.
Variable config : Config.

(** Directories to scan for research files. *)
Definition searchDirs (projectRoot : jstring) : list jstring :=
  [resolve projectRoot [js "docs"; js "research"];
   resolve projectRoot [js "research"];
   resolve projectRoot [js "docs"]].

(** The loop over the files of one directory.  [None]: a call of
    [runCycle4] does not return. *)
Fixpoint scanFiles (files : list jstring)
    (violations : list (jstring * list Violation))
  : option (list (jstring * list Violation)) :=
  match files with
  | [] => Some violations
  | filePath :: rest =>
      if negb (isResearchFile (Str filePath)) then scanFiles rest violations
      else
        match readFileSync filePath with
        | None => scanFiles rest violations
        | Some content =>
            match runCycle4 (Str content) filePath (Some config) with
            | None => None
            | Some [] => scanFiles rest violations
            | Some ((_ :: _) as fileViolations) =>
                scanFiles rest (violations ++ [(filePath, fileViolations)])
            end
        end
  end.

(** The loop over the directories. *)
Fixpoint scanDirs (dirs : list jstring)
    (violations : list (jstring * list Violation))
  : option (list (jstring * list Violation)) :=
  match dirs with
  | [] => Some violations
  | dir :: rest =>
      match lookup dir with
      | None => scanDirs rest violations
      | Some t =>
          match scanFiles (findMarkdownFiles join dir t 5 0) violations with
          | None => None
          | Some violations' => scanDirs rest violations'
          end
      end
  end.

(** The summary of one file: its path, then one line for each of its
    violations. *)
Definition fileSummary (entry : jstring * list Violation) : jstring :=
  js "File: " ++ fst entry ++ [LF]
    ++ JS.join [LF] (map (fun v => js "  " ++ reasonOf v) (snd entry)).

Definition stopReason (violations : list (jstring * list Violation))
  : jstring :=
  js "Triple Verification BLOCKED session completion:" ++ [LF; LF]
    ++ JS.join [LF; LF] (map fileSummary violations) ++ [LF; LF]
    ++ js "Fix these research file issues before completing.".

(** The decision of the Stop hook, for a project root. *)
Definition stopGate (projectRoot : jstring) : option Decision :=
  if negb (cycle4Enabled config) then Some Approve
  else
    match scanDirs (searchDirs projectRoot) [] with
    | None => None
    | Some [] => Some Approve
    | Some ((_ :: _) as violations) => Some (Block (stopReason violations))
    end.

End Main.

End StopGate.
Import StopGate.

(* ================================================================== *)
(** ** scripts/post-tool-audit.mjs *)
(* ================================================================== *)

Module PostToolAudit.

(** The metadata object that is logged: each property may be absent. *)
Record Metadata := mkMetadata {
  mdFilePath : option jstring;
  mdCommand : option jstring;
  mdUrl : option jstring;
  mdPattern : option jstring;
  mdApplicableCycles : option jstring
}.

(** [if (x) ...] on a string field: the empty string is falsy. *)
Definition truthy (s : jstring) : option jstring :=
  match s with
  | [] => None
  | _ :: _ => Some s
  end.

(** Extract relevant metadata (avoid logging full content for privacy).
    The fields are read as [getField] reads them: what is proved of the
    logged command is proved for a command that is a string or absent. *)
Definition auditMetadata (toolInput : ToolInput) : Metadata :=
  let file_path := getField toolInput "file_path" in
  mkMetadata
    (truthy file_path)
    (option_map (fun command => slice command 0 200)
       (truthy (getField toolInput "command")))
    (truthy (getField toolInput "url"))
    (truthy (getField toolInput "pattern"))
    (option_map
       (fun p => if isResearchFile (Str p)
                 then js "Cycle 4 (Research Verification)"
                 else js "Cycles 1-3")
       (truthy file_path)).

End PostToolAudit.
Import PostToolAudit.

(* ================================================================== *)
(** ** Notions used to state the properties *)
(* ================================================================== *)

(** What is left after a match is a suffix of what was there before. *)
Definition suffixOf (st st' : state) : Prop :=
  exists w, snd st = w ++ snd st'.

(** [lastUnit prev w]: the code unit just before the position that is
    reached by reading [w] from a position that [prev] precedes. *)
Definition lastUnit (prev : option N) (w : jstring) : option N :=
  fold_left (fun _ c => Some c) w prev.

(** An end position lies further on in the input, and the code unit before
    it is the last one read. *)
Definition follows (st st' : state) : Prop :=
  exists w, snd st = w ++ snd st' /\ fst st' = lastUnit (fst st) w.

(** *** Patterns that cannot match the empty string *)

Fixpoint consuming (r : regex) : bool :=
  match r with
  | Cls _ _ | Dot => true
  | Seq a b => consuming a || consuming b
  | Alt a b => consuming a && consuming b
  | _ => false
  end.

(** *** Patterns that need a character that is not white space *)

Fixpoint needsNonSpace (ic : bool) (r : regex) : bool :=
  match r with
  | Cls neg items =>
      forallb (fun w => negb (clsMatch ic neg items w)) spaceUnits
  | Seq a b => needsNonSpace ic a || needsNonSpace ic b
  | Alt a b => needsNonSpace ic a && needsNonSpace ic b
  | _ => false
  end.

(** A text of white space only. *)
Definition allSpace (s : jstring) : Prop :=
  forall c, In c s -> isSpace c = true.

(** What one rule contributes: nothing, or its violation. *)
Definition contribution (rules : RuleArray) (content : value)
    (fileExt context : jstring) (disabled : list jstring) (rule : Rule)
  : list Violation :=
  ruleStep rules content fileExt context disabled [] rule.

(** No string occurs twice. *)
Fixpoint nodupb (l : list jstring) : bool :=
  match l with
  | [] => true
  | x :: l' => negb (arrayIncludes l' x) && nodupb l'
  end.

(** The rule no-empty-pass, second of the cycle 1 rules. *)
Definition ruleNoEmptyPass : Rule :=
  nth 1 cycle1Rules (mkRule [] [] (RegExp.mk Eps false false) [] None []).

(** Blank content: null, or a string of white space only (the empty string
    among them). *)
Definition blank (content : value) : Prop :=
  content = Null \/ exists s, content = Str s /\ allSpace s.

(** No ^, $, \b or lookahead: whether such a pattern matches a stretch of
    text does not depend on what surrounds it. *)
Fixpoint pure (r : regex) : bool :=
  match r with
  | Eps | Cls _ _ | Dot => true
  | Seq a b | Alt a b => pure a && pure b
  | Star _ a | Opt a => pure a
  | Bol | Eol | WordB | NotAhead _ => false
  end.

(** The texts a pure pattern matches from end to end. *)
Inductive Lang (ic : bool) : regex -> jstring -> Prop :=
| LEps : Lang ic Eps []
| LCls neg items c :
    clsMatch ic neg items c = true -> Lang ic (Cls neg items) [c]
| LDot c : isLineTerminator c = false -> Lang ic Dot [c]
| LSeq a b w1 w2 :
    Lang ic a w1 -> Lang ic b w2 -> Lang ic (Seq a b) (w1 ++ w2)
| LAltL a b w : Lang ic a w -> Lang ic (Alt a b) w
| LAltR a b w : Lang ic b w -> Lang ic (Alt a b) w
| LStarNil g a : Lang ic (Star g a) []
| LStarCons g a w1 w2 :
    Lang ic a w1 -> w1 <> [] -> Lang ic (Star g a) w2 ->
    Lang ic (Star g a) (w1 ++ w2)
| LOptNone a : Lang ic (Opt a) []
| LOptSome a w : Lang ic a w -> Lang ic (Opt a) w.

(** Two code units that are the same letter up to ASCII case. *)
Definition sameLetter (c d : N) : Prop :=
  canonicalize true c = canonicalize true d.

Fixpoint dropSpaces (p : jstring) : jstring :=
  match p with
  | [] => []
  | c :: p' => if isSpace c then dropSpaces p' else p
  end.

(** [flexMatch p w]: the text [w] is the phrase [p] up to the case of its
    letters, with one or more white space characters wherever the phrase has
    white space. *)
Inductive flexMatch : jstring -> jstring -> Prop :=
| FlexNil : flexMatch [] []
| FlexChar c d p w :
    isSpace c = false -> sameLetter c d -> flexMatch p w ->
    flexMatch (c :: p) (d :: w)
| FlexSpace c p ws w :
    isSpace c = true -> ws <> [] -> allSpace ws ->
    flexMatch (dropSpaces p) w ->
    flexMatch (c :: p) (ws ++ w).

(** The content holds one of the fixed vague phrases. *)
Definition vagueLanguage (content : jstring) : Prop :=
  exists phrase a w b,
    In phrase VAGUE_PHRASES /\ content = a ++ w ++ b /\
    flexMatch (js phrase) w.

(** Documents with a claim and a marker that is almost the right one: a
    space for the underscore, lower case, no spaces inside the comment. *)
Definition nearMisses : list jstring := [
  js "<!-- PERPLEXITY VERIFIED -->" ++ [LF] ++ js "Revenue grew by 45%.";
  js "<!-- perplexity_verified -->" ++ [LF] ++ js "Revenue grew by 45%.";
  js "<!--PERPLEXITY_VERIFIED-->" ++ [LF] ++ js "Revenue grew by 45%."
].

(** A stretch of text that, taken alone, matches one of SOURCE_PATTERNS. *)
Definition holdsSource (w : jstring) : bool :=
  existsb (fun p => RegExp.test p w) SOURCE_PATTERNS.

(** The classification as the specification words it: the path, with
    back-slashes read as slashes and letters in lower case, ends in .md and
    either one of its directory segments is research or its file name
    contains research. *)
Definition isResearchTarget (path : jstring) : bool :=
  let normalized := toLowerCase (replaceBackslashes path) in
  let segments := split SLASH normalized in
  endsWith normalized (js ".md")
  && (existsb (JS.eqb (js "research")) (removelast segments)
      || includes (last segments []) (js "research")).

(** The first of two or more segments is research. *)
Definition leadingResearch (normalized : jstring) : bool :=
  match split SLASH normalized with
  | seg :: _ :: _ => JS.eqb (js "research") seg
  | _ => false
  end.

(** The rule no-insecure-url, last of the cycle 2 rules and the only one
    of the web context. *)
Definition ruleNoInsecureUrl : Rule :=
  last cycle2Rules (mkRule [] [] (RegExp.mk Eps false false) [] None []).

(** The hosts the pattern of no-insecure-url lets through. *)
Definition localHosts : list string :=
  ["localhost"%string; "127.0.0.1"%string; "0.0.0.0"%string;
   "[::1]"%string].

(** The text holds http:// followed by none of the local hosts. *)
Definition insecureUrl (s : jstring) : Prop :=
  exists a b, s = a ++ js "http://" ++ b /\
    forall h, In h localHosts -> startsWith (js h) b = false.

(** Reading a setting through nested objects: [config.a.b]. *)
Fixpoint getPath (v : json) (path : list jstring) : option json :=
  match path with
  | [] => Some v
  | k :: rest =>
      match v with
      | JObj fields =>
          match get fields k with
          | Some x => getPath x rest
          | None => None
          end
      | _ => None
      end
  end.

(** An object as [JSON.parse] builds one, no key twice, and without a key
    __proto__, on which assignment is not a store; so at any depth below
    objects. *)
Fixpoint wellFormed (v : json) : bool :=
  match v with
  | JObj fields =>
      nodupb (map fst fields)
      && negb (arrayIncludes (map fst fields) (js "__proto__"))
      && (fix all (l : Fields) : bool :=
            match l with
            | [] => true
            | (_, x) :: r => wellFormed x && all r
            end) fields
  | _ => true
  end.

(** A value that is not merged but replaced: anything but an object that
    is neither null nor an array. *)
Definition isLeaf (v : json) : bool :=
  match v with
  | JObj _ => false
  | _ => true
  end.

(** The overriding object says nothing about the path: on the way down it
    holds objects only, until a key it does not have. *)
Fixpoint silent (v : json) (path : list jstring) : bool :=
  match path with
  | [] => false
  | k :: rest =>
      match v with
      | JObj entries =>
          match get entries k with
          | None => true
          | Some (JObj _ as ov) => silent ov rest
          | Some _ => false
          end
      | _ => false
      end
  end.

(** [reaches join maxDepth dir t depth path]: below the directory [dir],
    searched at depth [depth], the file [path] is reached through entries
    that are not skipped, it is a file whose name ends in .md, and every
    directory on the way is entered at a depth below [maxDepth]. *)
Inductive reaches (join : jstring -> jstring -> jstring) (maxDepth : nat)
  : jstring -> node -> nat -> jstring -> Prop :=
| ReachFile dir entries entry depth :
    depth < maxDepth -> In (entry, File) entries ->
    skipped entry = false -> endsWith entry (js ".md") = true ->
    reaches join maxDepth dir (Dir (Some entries)) depth (join dir entry)
| ReachDir dir entries entry sub depth path :
    depth < maxDepth -> In (entry, Dir sub) entries ->
    skipped entry = false ->
    reaches join maxDepth (join dir entry) (Dir sub) (S depth) path ->
    reaches join maxDepth dir (Dir (Some entries)) depth path.

(** [path.join] of a directory and an entry name, on POSIX, for a
    directory path that is already normalized. *)
Definition posixJoin (dir entry : jstring) : jstring :=
  dir ++ SLASH :: entry.

(** What one entry of a directory adds to the results. *)
Definition entryResult (join : jstring -> jstring -> jstring)
    (dir : jstring) (maxDepth currentDepth : nat) (e : jstring * node)
  : list jstring :=
  if skipped (fst e) then []
  else
    match snd e with
    | Dir _ =>
        findMarkdownFiles join (join dir (fst e)) (snd e) maxDepth
          (S currentDepth)
    | File => if endsWith (fst e) (js ".md") then [join dir (fst e)] else []
    | Other | Inaccessible => []
    end.

(** What one file adds to the violations of the Stop gate: nothing when
    it is not a research file, cannot be read or is clean. *)
Definition fileReport (readFileSync : jstring -> option jstring)
    (config : Config) (filePath : jstring)
  : list (jstring * list Violation) :=
  if negb (isResearchFile (Str filePath)) then []
  else
    match readFileSync filePath with
    | None => []
    | Some content =>
        match runCycle4 (Str content) filePath (Some config) with
        | Some ((_ :: _) as fileViolations) => [(filePath, fileViolations)]
        | _ => []
        end
    end.

(** What one directory adds. *)
Definition dirReport (join : jstring -> jstring -> jstring)
    (lookup : jstring -> option node)
    (readFileSync : jstring -> option jstring) (config : Config)
    (dir : jstring) : list (jstring * list Violation) :=
  match lookup dir with
  | None => []
  | Some t =>
      flat_map (fileReport readFileSync config)
        (findMarkdownFiles join dir t 5 0)
  end.

(** The code units that normalization leaves as they are, whatever
    stands around them. *)
Definition fixedUnit (c : N) : bool :=
  negb (c =? SIGMA)%N && (lowerUnit c =? c)%N && negb (c =? BACKSLASH)%N.

(** The field [key] of the tool input is a string, or there is none. *)
Definition stringField (toolInput : ToolInput) (key : string) : bool :=
  match find (fun kv => JS.eqb (fst kv) (js key)) toolInput with
  | Some (_, FOther) => false
  | _ => true
  end.

(** So are all the fields that the gate reads by name. *)
Definition stringFields (toolInput : ToolInput) : bool :=
  forallb (stringField toolInput)
    ["file_path"; "content"; "new_string"; "command"; "url"; "query"]%string.

(** What is on stdin is within the model: the fields that the gate reads
    by name are strings where there are any.  A tool name that is not a
    string ends the run before a field is read. *)
Definition modelled (stdin : Stdin) : bool :=
  match stdin with
  | StdinValue NameOther _ => true
  | StdinValue _ (Some toolInput) => stringFields toolInput
  | _ => true
  end.


(** [lowerOf c r]: the code unit [r] is a lower case of [c], one of the
    two for a capital sigma. *)
Definition lowerOf (c r : N) : Prop :=
  (c = SIGMA /\ (r = SMALL_SIGMA \/ r = FINAL_SIGMA))
  \/ (c <> SIGMA /\ r = lowerUnit c).

(* ================================================================== *)
(** ** Facts about strings *)
(* ================================================================== *)

Section StringFacts.

Lemma eqb_refl (a : jstring) : JS.eqb a a = true.
Proof.
  induction a as [|x a IH]; simpl; [reflexivity|].
  now rewrite N.eqb_refl, IH.
Qed.

Lemma eqb_eq (a b : jstring) : JS.eqb a b = true <-> a = b.
Proof.
  split.
  - revert b; induction a as [|x a IH]; intros [|y b]; simpl;
      try reflexivity; try discriminate.
    intros H. apply andb_true_iff in H as [Hx Hab].
    apply N.eqb_eq in Hx. apply IH in Hab. now subst.
  - intros ->. apply eqb_refl.
Qed.

Lemma eqb_neq (a b : jstring) : JS.eqb a b = false <-> a <> b.
Proof.
  rewrite <- eqb_eq. destruct (JS.eqb a b); split; intros H;
    try reflexivity; try discriminate; try congruence.
Qed.

Lemma arrayIncludes_In (l : list jstring) (x : jstring) :
  arrayIncludes l x = true <-> In x l.
Proof.
  unfold arrayIncludes. rewrite existsb_exists. split.
  - intros (y & Hy & E). apply eqb_eq in E. now subst.
  - intros H. exists x. split; [assumption | apply eqb_refl].
Qed.

Lemma arrayIncludes_not_In (l : list jstring) (x : jstring) :
  arrayIncludes l x = false <-> ~ In x l.
Proof.
  rewrite <- arrayIncludes_In. destruct (arrayIncludes l x); split;
    intros H; try reflexivity; try discriminate; try congruence.
Qed.

Lemma startsWith_prefix (p s : jstring) :
  startsWith p s = true <-> exists t, s = p ++ t.
Proof.
  revert s; induction p as [|a p IH]; intros s; simpl.
  - split; [intros _; now exists s | reflexivity].
  - destruct s as [|b s].
    + split; [discriminate | intros (t & E); discriminate].
    + rewrite andb_true_iff, N.eqb_eq, IH. split.
      * intros (-> & t & ->). now exists t.
      * intros (t & E). injection E as -> ->. split; [reflexivity|].
        now exists t.
Qed.

(** [includes] is the literal substring test. *)
Lemma includes_infix (s p : jstring) :
  includes s p = true <-> exists a b, s = a ++ p ++ b.
Proof.
  induction s as [|c s IH]; simpl.
  - rewrite orb_false_r, startsWith_prefix. split.
    + intros (t & E). now exists [], t.
    + intros (a & b & E). destruct a; [now exists b|discriminate].
  - rewrite orb_true_iff, startsWith_prefix, IH. split.
    + intros [(t & E) | (a & b & E)].
      * now exists [], t.
      * exists (c :: a), b. simpl. now rewrite E.
    + intros (a & b & E). destruct a as [|x a]; simpl in E.
      * left. now exists b.
      * right. injection E as _ E. now exists a, b.
Qed.

End StringFacts.

(* ================================================================== *)
(** ** Facts about the matcher *)
(* ================================================================== *)

Lemma flat_map_all_nil {A B : Type} (f : A -> list B) (l : list A) :
  (forall x, In x l -> f x = []) -> flat_map f l = [].
Proof.
  induction l as [|x l IH]; intros H; simpl; [reflexivity|].
  rewrite (H x) by now left. apply IH. intros y Hy. apply H. now right.
Qed.

Section MatcherFacts.

Variables ic ml : bool.

Lemma suffixOf_refl st : suffixOf st st.
Proof. now exists []. Qed.

Lemma suffixOf_trans a b c : suffixOf a b -> suffixOf b c -> suffixOf a c.
Proof.
  intros (w1 & E1) (w2 & E2). exists (w1 ++ w2).
  now rewrite E1, E2, app_assoc.
Qed.

Lemma suffixOf_remaining st st' : suffixOf st st' -> remaining st' <= remaining st.
Proof.
  intros (w & E). unfold remaining. rewrite E, length_app. lia.
Qed.

Lemma starLoop_suffix g (f : state -> list state) :
  (forall st st', In st' (f st) -> suffixOf st st') ->
  forall n st st', In st' (starLoop g f n st) -> suffixOf st st'.
Proof.
  intros Hf. induction n as [|n IH]; intros st st' H; simpl in H.
  - destruct H as [<- | []]. apply suffixOf_refl.
  - assert (Hmore : forall x,
      In x (flat_map (fun st1 => if progress st st1
                                 then starLoop g f n st1 else []) (f st)) ->
      suffixOf st x).
    { intros x Hx. apply in_flat_map in Hx as (st1 & H1 & H2).
      destruct (progress st st1); [|contradiction].
      eapply suffixOf_trans; [apply Hf, H1 | apply IH, H2]. }
    destruct g.
    + apply in_app_or in H as [H | [<- | []]];
        [now apply Hmore | apply suffixOf_refl].
    + destruct H as [<- | H]; [apply suffixOf_refl | now apply Hmore].
Qed.

Lemma m_suffix (r : regex) :
  forall st st', In st' (m ic ml r st) -> suffixOf st st'.
Proof.
  induction r as [ | neg items | | a IHa b IHb | a IHa b IHb | g a IHa
                 | a IHa | | | | a IHa ]; intros st st' H; simpl in H.
  - destruct H as [<- | []]. apply suffixOf_refl.
  - destruct st as [pv [|c rest]]; simpl in H; [contradiction|].
    destruct (clsMatch ic neg items c); [|contradiction].
    destruct H as [<- | []]. now exists [c].
  - destruct st as [pv [|c rest]]; simpl in H; [contradiction|].
    destruct (isLineTerminator c); [contradiction|].
    destruct H as [<- | []]. now exists [c].
  - apply in_flat_map in H as (st1 & H1 & H2).
    eapply suffixOf_trans; [apply IHa, H1 | apply IHb, H2].
  - apply in_app_or in H as [H | H]; [now apply IHa | now apply IHb].
  - eapply starLoop_suffix; [apply IHa | apply H].
  - apply in_app_or in H as [H | [<- | []]]; [|apply suffixOf_refl].
    apply filter_In in H as [H _]. now apply IHa.
  - destruct (atBol ml st); [|contradiction].
    destruct H as [<- | []]. apply suffixOf_refl.
  - destruct (atEol ml st); [|contradiction].
    destruct H as [<- | []]. apply suffixOf_refl.
  - destruct (atWordB st); [|contradiction].
    destruct H as [<- | []]. apply suffixOf_refl.
  - destruct (m ic ml a st); [|contradiction].
    destruct H as [<- | []]. apply suffixOf_refl.
Qed.

(** The fuel of the star loop is never the limit: any amount at least the
    length of the remaining input gives the same result. *)
Lemma starLoop_fuel g (f : state -> list state) :
  forall n1 n2 st, remaining st <= n1 -> remaining st <= n2 ->
    starLoop g f n1 st = starLoop g f n2 st.
Proof.
  induction n1 as [|n1 IH]; intros n2 st H1 H2.
  - destruct n2 as [|n2]; [reflexivity|]. simpl.
    assert (E : flat_map (fun st' => if progress st st'
                                     then starLoop g f n2 st' else [])
                  (f st) = []).
    { apply flat_map_all_nil. intros x _. unfold progress.
      destruct (Nat.ltb_spec (remaining x) (remaining st)); [lia|reflexivity]. }
    rewrite E. now destruct g.
  - destruct n2 as [|n2].
    + simpl.
      assert (E : flat_map (fun st' => if progress st st'
                                       then starLoop g f n1 st' else [])
                    (f st) = []).
      { apply flat_map_all_nil. intros x _. unfold progress.
        destruct (Nat.ltb_spec (remaining x) (remaining st)); [lia|reflexivity]. }
      rewrite E. now destruct g.
    + simpl.
      assert (E : flat_map (fun st' => if progress st st'
                                       then starLoop g f n1 st' else [])
                    (f st)
                  = flat_map (fun st' => if progress st st'
                                         then starLoop g f n2 st' else [])
                      (f st)).
      { apply flat_map_ext. intros x. unfold progress.
        destruct (Nat.ltb_spec (remaining x) (remaining st));
          [apply IH; lia | reflexivity]. }
      now rewrite E.
Qed.

(** The equation of the star. *)
Lemma m_star (g : bool) (a : regex) (st : state) :
  m ic ml (Star g a) st =
    let more :=
      flat_map (fun st' => if progress st st' then m ic ml (Star g a) st'
                           else []) (m ic ml a st) in
    if g then more ++ [st] else st :: more.
Proof.
  simpl. rewrite (starLoop_fuel g (m ic ml a) (n1 := remaining st)
                   (n2 := S (remaining st)) st) by lia.
  simpl.
  assert (E : flat_map (fun st' => if progress st st'
                          then starLoop g (m ic ml a) (remaining st) st'
                          else []) (m ic ml a st)
              = flat_map (fun st' => if progress st st'
                          then starLoop g (m ic ml a) (remaining st') st'
                          else []) (m ic ml a st)).
  { apply flat_map_ext. intros x. unfold progress.
    destruct (Nat.ltb_spec (remaining x) (remaining st));
      [apply starLoop_fuel; lia | reflexivity]. }
  now rewrite E.
Qed.

End MatcherFacts.

Lemma m_consuming (ic ml : bool) (r : regex) :
  consuming r = true ->
  forall st st', In st' (m ic ml r st) -> remaining st' < remaining st.
Proof.
  induction r as [ | neg items | | a IHa b IHb | a IHa b IHb | g a IHa
                 | a IHa | | | | a IHa ]; simpl; intros C st st' H;
    try discriminate.
  - destruct st as [pv [|c rest]]; simpl in H; [contradiction|].
    destruct (clsMatch ic neg items c); [|contradiction].
    destruct H as [<- | []]. unfold remaining; simpl; lia.
  - destruct st as [pv [|c rest]]; simpl in H; [contradiction|].
    destruct (isLineTerminator c); [contradiction|].
    destruct H as [<- | []]. unfold remaining; simpl; lia.
  - apply in_flat_map in H as (st1 & H1 & H2).
    pose proof (suffixOf_remaining (m_suffix _ _ _ _ _ H1)) as L1.
    pose proof (suffixOf_remaining (m_suffix _ _ _ _ _ H2)) as L2.
    apply orb_true_iff in C as [C | C].
    + specialize (IHa C _ _ H1). lia.
    + specialize (IHb C _ _ H2). lia.
  - apply andb_true_iff in C as [Ca Cb].
    apply in_app_or in H as [H | H]; [now apply IHa | now apply IHb].
Qed.

Lemma allSpace_suffix (st st' : state) :
  suffixOf st st' -> allSpace (snd st) -> allSpace (snd st').
Proof.
  intros (w & E) H c Hc. apply H. rewrite E. apply in_or_app. now right.
Qed.

Lemma m_needsNonSpace (ic ml : bool) (r : regex) :
  needsNonSpace ic r = true ->
  forall st, allSpace (snd st) -> m ic ml r st = [].
Proof.
  induction r as [ | neg items | | a IHa b IHb | a IHa b IHb | g a IHa
                 | a IHa | | | | a IHa ]; intros C st Hs;
    cbn [needsNonSpace] in C; cbn [m]; try discriminate.
  - destruct st as [pv [|c rest]]; cbn [snd] in *; [reflexivity|].
    assert (Hc : isSpace c = true) by (apply Hs; now left).
    unfold isSpace in Hc. apply existsb_exists in Hc as (w & Hw & E).
    apply N.eqb_eq in E. subst w.
    rewrite forallb_forall in C. specialize (C c Hw).
    apply negb_true_iff in C. now rewrite C.
  - apply orb_true_iff in C as [C | C].
    + now rewrite (IHa C st Hs).
    + apply flat_map_all_nil. intros st1 H1. apply IHb; [assumption|].
      eapply allSpace_suffix; [eapply m_suffix, H1 | assumption].
  - apply andb_true_iff in C as [Ca Cb].
    now rewrite (IHa Ca st Hs), (IHb Cb st Hs).
Qed.

(** *** The search of exec *)

Lemma search_none_intro (re : RegExp.t) :
  forall (rest : jstring) pv i,
    (forall pv' (a b : jstring), rest = a ++ b -> run re (pv', b) = []) ->
    search re pv rest i = None.
Proof.
  induction rest as [|c rest IH]; intros pv i H; cbn [search].
  - now rewrite (H pv [] [] eq_refl).
  - rewrite (H pv [] (c :: rest) eq_refl). apply IH.
    intros pv' a b E. apply (H pv' (c :: a) b). simpl. now rewrite E.
Qed.

Lemma consumed_app (w : jstring) (e : state) : consumed (w ++ snd e) e = w.
Proof.
  unfold consumed, remaining. rewrite length_app.
  replace (length w + length (snd e) - length (snd e))
    with (length w + 0) by lia.
  rewrite firstn_app_2. simpl. apply app_nil_r.
Qed.

Lemma search_some (re : RegExp.t) :
  forall (rest : jstring) pv i mt e,
    search re pv rest i = Some (mt, e) ->
    exists a pv',
      rest = a ++ text mt ++ snd e /\
      In e (run re (pv', text mt ++ snd e)) /\
      index mt = (i + Z.of_nat (length a))%Z.
Proof.
  assert (Hit : forall (rest : jstring) pv i e0 l,
    run re (pv, rest) = e0 :: l ->
    exists a pv',
      rest = a ++ consumed rest e0 ++ snd e0 /\
      In e0 (run re (pv', consumed rest e0 ++ snd e0)) /\
      i = (i + Z.of_nat (length a))%Z).
  { intros rest pv i e0 l R.
    assert (He : In e0 (e0 :: l)) by now left.
    rewrite <- R in He.
    destruct (m_suffix _ _ _ _ _ He) as (w & Ew). cbn [snd] in Ew.
    exists [], pv. rewrite Ew at 1 2 3. rewrite consumed_app.
    rewrite <- Ew. repeat split; [assumption | simpl; lia]. }
  induction rest as [|c rest IH]; intros pv i mt e H; cbn [search] in H.
  - destruct (run re _) as [|e0 l] eqn:R in H; [discriminate|].
    injection H as <- <-. cbn [text index]. eapply Hit, R.
  - destruct (run re _) as [|e0 l] eqn:R in H.
    + apply IH in H as (a & pv' & E & Hin & Hi).
      exists (c :: a), pv'. simpl. rewrite <- E. repeat split; [assumption|].
      rewrite Hi. lia.
    + injection H as <- <-. cbn [text index]. eapply Hit, R.
Qed.

(** A pattern that cannot match the empty string lets the loop over its
    matches end. *)
Lemma execLoop_total (re : RegExp.t) :
  consuming (source re) = true ->
  forall fuel pv rest i, length rest < fuel ->
    exists ms, execLoop re fuel pv rest i = Some ms.
Proof.
  intros C. induction fuel as [|fuel IH]; intros pv rest i L; [lia|].
  simpl. destruct (search re pv rest i) as [[mt [pv' rest']]|] eqn:S;
    [|now exists []].
  apply search_some in S as (a & pv0 & E & Hin & _). simpl in E, Hin.
  pose proof (m_consuming _ _ _ C _ _ Hin) as Lt.
  unfold remaining in Lt. simpl in Lt. rewrite length_app in Lt.
  destruct (text mt) as [|t0 tx] eqn:T; [simpl in Lt; lia|].
  destruct (IH pv' rest' (index mt + Z.of_nat (length (t0 :: tx)))%Z)
    as (ms & ->).
  { rewrite E in L. rewrite !length_app in L. simpl in L. lia. }
  simpl. now eexists.
Qed.

Lemma execAll_total (re : RegExp.t) (s : jstring) :
  consuming (source re) = true -> exists ms, execAll re s = Some ms.
Proof. intros C. apply execLoop_total; [assumption | lia]. Qed.

(* ================================================================== *)
(** ** Facts about the rule engine *)
(* ================================================================== *)

Section EngineFacts.

Variables (rules : RuleArray) (content : value) (fileExt context : jstring).
Variable disabled : list jstring.

Local Abbreviation contribution :=
  (contribution rules content fileExt context disabled).

Lemma ruleStep_contribution (violations : list Violation) (rule : Rule) :
  ruleStep rules content fileExt context disabled violations rule
  = violations ++ contribution rule.
Proof.
  unfold contribution, ruleStep.
  repeat match goal with
         | |- context [if ?b then _ else _] => destruct b
         end; try reflexivity; symmetry; apply app_nil_r.
Qed.

Lemma fold_ruleStep (l : list Rule) (acc : list Violation) :
  fold_left (ruleStep rules content fileExt context disabled) l acc
  = acc ++ flat_map contribution l.
Proof.
  revert acc; induction l as [|rule l IH]; intros acc; simpl.
  - symmetry; apply app_nil_r.
  - rewrite IH, ruleStep_contribution. now rewrite <- app_assoc.
Qed.

(** A violation of a rule says that none of the three filters skipped it
    and that its pattern matched. *)
Lemma contribution_inv (rule : Rule) (v : Violation) :
  In v (contribution rule) ->
  ruleId v = id rule /\
  cycle v = (if arrayId rules =? arrayId CYCLE1_RULES then 1%N else 2%N) /\
  vmessage v = message rule /\
  arrayIncludes disabled (id rule) = false /\
  (JS.eqb (appliesTo rule) (js "all") = true
   \/ JS.eqb (appliesTo rule) context = true) /\
  (forall exts, fileExtensions rule = Some exts -> fileExt <> [] ->
     arrayIncludes exts fileExt = true) /\
  RegExp.test (pattern rule) (toString content) = true.
Proof.
  unfold contribution, ruleStep. intros H.
  destruct (arrayIncludes disabled (id rule)) eqn:D; [destruct H|].
  destruct (negb (JS.eqb (appliesTo rule) (js "all"))
            && negb (JS.eqb (appliesTo rule) context)) eqn:A; [destruct H|].
  destruct (match fileExtensions rule with
            | Some exts =>
                match fileExt with
                | [] => false
                | _ :: _ => negb (arrayIncludes exts fileExt)
                end
            | None => false
            end) eqn:F; [destruct H|].
  destruct (RegExp.test (pattern rule) (toString content)) eqn:T;
    [|destruct H].
  destruct H as [<- | []]. cbn [ruleId cycle vmessage].
  repeat split.
  - apply andb_false_iff in A as [A | A]; apply negb_false_iff in A; auto.
  - intros exts E NE. rewrite E in F. destruct fileExt; [congruence|].
    now apply negb_false_iff in F.
Qed.

End EngineFacts.

Lemma runRules_flat_map rules content fileExt context config :
  _runRules rules content fileExt context config
  = flat_map (contribution rules content fileExt context (disabledOf config))
      (elements rules).
Proof. unfold _runRules. now rewrite fold_ruleStep. Qed.

Lemma runRules_inv rules content fileExt context config v :
  In v (_runRules rules content fileExt context config) ->
  exists rule, In rule (elements rules) /\
    In v (contribution rules content fileExt context (disabledOf config) rule).
Proof.
  rewrite runRules_flat_map. intros H.
  apply in_flat_map in H as (rule & H1 & H2). now exists rule.
Qed.

(** No pattern matches: no violation. *)
Lemma runRules_nil rules content fileExt context config :
  (forall rule, In rule (elements rules) ->
     RegExp.test (pattern rule) (toString content) = false) ->
  _runRules rules content fileExt context config = [].
Proof.
  intros H. rewrite runRules_flat_map. apply flat_map_all_nil.
  intros rule Hr. destruct (contribution _ _ _ _ _ rule) as [|v l] eqn:E;
    [reflexivity|].
  assert (Hv : In v (contribution rules content fileExt context
                       (disabledOf config) rule)) by (rewrite E; now left).
  apply contribution_inv in Hv. rewrite (H rule Hr) in Hv.
  now destruct Hv as (_ & _ & _ & _ & _ & _ & F).
Qed.

(** White space alone is matched by no pattern that needs another
    character. *)
Lemma test_allSpace (re : RegExp.t) (s : jstring) :
  needsNonSpace (ignoreCase re) (source re) = true ->
  allSpace s -> RegExp.test re s = false.
Proof.
  intros C Hs. unfold RegExp.test, exec.
  rewrite search_none_intro; [reflexivity|].
  intros pv' a b E. apply m_needsNonSpace; [assumption|].
  intros c Hc. apply Hs. rewrite E. apply in_or_app. now right.
Qed.

(* ================================================================== *)
(** ** Facts about the research verifier *)
(* ================================================================== *)

Lemma claim_patterns_consuming :
  forallb (fun p => consuming (source p)) CLAIM_PATTERNS = true.
Proof. reflexivity. Qed.

Lemma extractLoop_total (patterns : list RegExp.t) :
  forallb (fun p => consuming (source p)) patterns = true ->
  forall content seen claims,
    exists cl, extractLoop patterns content seen claims = Some cl.
Proof.
  induction patterns as [|p patterns IH]; intros C content seen claims;
    cbn [extractLoop].
  - now eexists.
  - cbn [forallb] in C. apply andb_true_iff in C as [Cp C].
    destruct (execAll_total (globalPattern p) content Cp) as (ms & ->).
    destruct (pushMatches ms seen claims) as [seen' claims'].
    now apply IH.
Qed.

(** The loops of [extractClaims] end on every content. *)
Lemma extractClaims_total (content : jstring) :
  exists claims, extractClaims content = Some claims.
Proof. apply extractLoop_total, claim_patterns_consuming. Qed.

(** Where no pattern matches, nothing is pushed. *)
Lemma extractLoop_no_match (patterns : list RegExp.t) (content : jstring) :
  (forall p, In p patterns -> RegExp.test (globalPattern p) content = false) ->
  forall seen claims, extractLoop patterns content seen claims = Some claims.
Proof.
  induction patterns as [|p patterns IH]; intros H seen claims;
    cbn [extractLoop]; [reflexivity|].
  assert (E : execAll (globalPattern p) content = Some []).
  { specialize (H p (or_introl eq_refl)). unfold RegExp.test, exec in H.
    unfold execAll. cbn [execLoop].
    destruct (search (globalPattern p) None content 0) as [[mt e]|];
      [discriminate | reflexivity]. }
  rewrite E. cbn [pushMatches]. apply IH. intros q Hq. apply H. now right.
Qed.

(** The shapes [runCycle4] can return: nothing, or one violation of a rule
    that is not disabled. *)
Lemma runCycle4_cases content filePath config :
  exists vs, runCycle4 content filePath config = Some vs /\
    (vs = [] \/
     exists rid msg, vs = [mkViolation rid 4 msg] /\
       arrayIncludes (disabledOf4 config) rid = false /\
       (rid = js "no-vague-claims" \/ rid = js "no-unverified-claims"
        \/ rid = js "no-unsourced-claims")).
Proof.
  assert (None_ : exists vs : list Violation, Some [] = Some vs /\
    (vs = [] \/
     exists rid msg, vs = [mkViolation rid 4 msg] /\
       arrayIncludes (disabledOf4 config) rid = false /\
       (rid = js "no-vague-claims" \/ rid = js "no-unverified-claims"
        \/ rid = js "no-unsourced-claims"))).
  { exists []. split; [reflexivity | now left]. }
  assert (One : forall rid msg,
    arrayIncludes (disabledOf4 config) rid = false ->
    (rid = js "no-vague-claims" \/ rid = js "no-unverified-claims"
     \/ rid = js "no-unsourced-claims") ->
    exists vs : list Violation, Some [mkViolation rid 4 msg] = Some vs /\
    (vs = [] \/
     exists rid msg, vs = [mkViolation rid 4 msg] /\
       arrayIncludes (disabledOf4 config) rid = false /\
       (rid = js "no-vague-claims" \/ rid = js "no-unverified-claims"
        \/ rid = js "no-unsourced-claims"))).
  { intros rid msg D Hr. exists [mkViolation rid 4 msg].
    split; [reflexivity|]. right. exists rid, msg. now repeat split. }
  unfold runCycle4. destruct content as [| |[|c0 s]]; try exact None_.
  destruct (extractClaims_total (c0 :: s)) as (claims & ->). cbv zeta.
  match goal with
  | |- context [match (if ?b then None else ?e) with _ => _ end] =>
      destruct (if b then None else e) as [mt|] eqn:P1
  end.
  - apply One; [|left; reflexivity].
    destruct (arrayIncludes (disabledOf4 config) (js "no-vague-claims"));
      [discriminate P1 | reflexivity].
  - destruct claims as [|cl claims]; [exact None_|].
    destruct (arrayIncludes (disabledOf4 config) (js "no-unverified-claims"))
      eqn:D2;
    destruct (arrayIncludes (disabledOf4 config) (js "no-unsourced-claims"))
      eqn:D3;
    destruct (includes (c0 :: s) VERIFICATION_TAG); cbn [negb andb];
    try exact None_.
    all: try (apply One; [exact D2 | right; left; reflexivity]).
    all: destruct (filter _ (cl :: claims)); try exact None_.
    all: apply One; [exact D3 | right; right; reflexivity].
Qed.

Lemma runCycle4_total content filePath config :
  exists vs, runCycle4 content filePath config = Some vs.
Proof.
  destruct (runCycle4_cases content filePath config) as (vs & E & _).
  now exists vs.
Qed.

(* ================================================================== *)
(** ** Properties of the rule engine and of the routing *)
(* ================================================================== *)

Lemma runRules_cycle rules content fileExt context config v :
  In v (_runRules rules content fileExt context config) ->
  cycle v = (if arrayId rules =? arrayId CYCLE1_RULES then 1%N else 2%N).
Proof.
  intros H. apply runRules_inv in H as (rule & _ & H).
  now apply contribution_inv in H.
Qed.

Lemma runCycle1_cycle content fileExt context config v :
  In v (runCycle1 content fileExt context config) -> cycle v = 1%N.
Proof.
  unfold runCycle1. intros H. apply runRules_cycle in H.
  rewrite H. reflexivity.
Qed.

Lemma runCycle2_cycle content fileExt context config v :
  In v (runCycle2 content fileExt context config) -> cycle v = 2%N.
Proof.
  unfold runCycle2. intros H. apply runRules_cycle in H.
  rewrite H. reflexivity.
Qed.

Lemma runRules_not_disabled rules content fileExt context config v :
  In v (_runRules rules content fileExt context config) ->
  ~ In (ruleId v) (disabledOf config).
Proof.
  intros H. apply runRules_inv in H as (rule & _ & H).
  apply contribution_inv in H as (E & _ & _ & D & _).
  rewrite E. now apply arrayIncludes_not_In.
Qed.

(** C1.  For an operation with content to verify: when the target path is
    a research file and cycle 4 is enabled, the violations the gate decides
    on are exactly those of [runCycle4], and every one of them carries
    cycle 4 (none is a code-quality or security violation); otherwise they
    are the violations of [runCycle1] followed by those of [runCycle2], the
    former all of cycle 1 and the latter all of cycle 2. *)
Theorem C1_dispatch_merge :
  forall (config : Config) (input : HookInput),
    let e := extractContent (toolNameOf input) (toolInputOf input) in
    content e <> [] ->
    (isResearchFile (Str (filePath e)) = true ->
     cycle4Enabled config = true ->
     gateViolations config (Some input)
       = runCycle4 (Str (content e)) (filePath e) (Some config) /\
     exists vs, gateViolations config (Some input) = Some vs /\
       forall v, In v vs -> cycle v = 4%N) /\
    (isResearchFile (Str (filePath e)) = false
     \/ cycle4Enabled config = false ->
     gateViolations config (Some input)
       = Some (runCycle1 (Str (content e)) (fileExt e) (context e) config
               ++ runCycle2 (Str (content e)) (fileExt e) (context e) config)
     /\ (forall v,
           In v (runCycle1 (Str (content e)) (fileExt e) (context e) config) ->
           cycle v = 1%N)
     /\ (forall v,
           In v (runCycle2 (Str (content e)) (fileExt e) (context e) config) ->
           cycle v = 2%N)).
Proof.
  intros config input e Hc.
  assert (G : gateViolations config (Some input) = allViolations config e).
  { unfold gateViolations. fold e.
    destruct (content e) eqn:E; [congruence | reflexivity]. }
  split.
  - intros R C. rewrite G. unfold allViolations. rewrite R, C. cbn [andb].
    split; [reflexivity|].
    destruct (runCycle4_cases (Str (content e)) (filePath e) (Some config))
      as (vs & E & Hvs).
    exists vs. split; [assumption|]. intros v Hv.
    destruct Hvs as [-> | (rid & msg & -> & _)]; [destruct Hv|].
    destruct Hv as [<- | []]. reflexivity.
  - intros H. rewrite G. unfold allViolations.
    assert (B : isResearchFile (Str (filePath e)) && cycle4Enabled config
                = false).
    { destruct H as [-> | ->]; [reflexivity | apply andb_false_r]. }
    rewrite B. split; [reflexivity|].
    split; intros v Hv; [exact (runCycle1_cycle _ _ _ _ _ Hv)
                        | exact (runCycle2_cycle _ _ _ _ _ Hv)].
Qed.

Lemma C1_dispatch_merge_witness :
  let input := mkHookInput (Some (js "Write"))
                 (Some [(js "file_path", FStr (js "docs/research/report.md"));
                        (js "content", FStr (js "Revenue grew 45%."))]) in
  let e := extractContent (toolNameOf input) (toolInputOf input) in
  content e <> [] /\
  gateViolations emptyConfig (Some input)
    = runCycle4 (Str (content e)) (filePath e) (Some emptyConfig).
Proof.
  intros input e.
  assert (Hc : content e <> []) by (vm_compute; discriminate).
  split; [exact Hc|].
  refine (proj1 (proj1 (C1_dispatch_merge emptyConfig input Hc) _ _));
    vm_compute; reflexivity.
Defined.

(** C2.  What the code does on this command: [runCycle2] on rm -rf / in
    the bash context with nothing disabled returns no violation, and the
    gate approves the command.  The alternative of the pattern for the root
    directory asks for white space after the slash: with a space added the
    rule fires. *)
Theorem C2_rm_rf_root_is_not_flagged :
  runCycle2 (Str (js "rm -rf /")) [] (js "bash") emptyConfig = [] /\
  gate emptyConfig
    (Some (mkHookInput (Some (js "Bash"))
             (Some [(js "command", FStr (js "rm -rf /"))]))) = Some Approve /\
  map ruleId (runCycle2 (Str (js "rm -rf / ")) [] (js "bash") emptyConfig)
    = [js "no-rm-rf"].
Proof. split; [|split]; vm_compute; reflexivity. Qed.

(** C6.  A rule id in [disabledRules] never appears as the ruleId of a
    violation returned by [runCycle1], [runCycle2] or [runCycle4] (which
    returns), whatever the content, extension, context and path. *)
Theorem C6_disabling_is_exhaustive :
  forall (r : jstring) (content : value) (fileExt context filePath : jstring)
         (config : Config),
    In r (disabledOf config) ->
    ~ In r (map ruleId (runCycle1 content fileExt context config)) /\
    ~ In r (map ruleId (runCycle2 content fileExt context config)) /\
    exists vs, runCycle4 content filePath (Some config) = Some vs /\
               ~ In r (map ruleId vs).
Proof.
  intros r content fileExt context filePath config Hr.
  assert (K : forall rules,
    ~ In r (map ruleId (_runRules rules content fileExt context config))).
  { intros rules H. apply in_map_iff in H as (v & <- & Hv).
    now apply runRules_not_disabled in Hv. }
  split; [apply K|]. split; [apply K|].
  destruct (runCycle4_cases content filePath (Some config))
    as (vs & E & Hvs).
  exists vs. split; [assumption|].
  destruct Hvs as [-> | (rid & msg & -> & D & _)]; [intros []|].
  intros [<- | []]. cbn [ruleId] in Hr.
  apply arrayIncludes_not_In in D. now apply D.
Qed.

Lemma C6_disabling_is_exhaustive_witness :
  let config := mkConfig (Some [js "no-vague-claims"; js "no-todo"]) None in
  In (js "no-todo") (disabledOf config) /\
  ~ In (js "no-todo")
      (map ruleId (runCycle1 (Str (js "# TODO: fix")) (js ".py")
                     (js "file-write") config)).
Proof.
  intros config.
  assert (H : In (js "no-todo") (disabledOf config)) by (right; now left).
  split; [exact H|].
  exact (proj1 (C6_disabling_is_exhaustive (js "no-todo")
                  (Str (js "# TODO: fix")) (js ".py") (js "file-write") []
                  config H)).
Defined.

(** *** File-type filter *)

Lemma NoDup_map_eq {A B : Type} (f : A -> B) (l : list A) (x y : A) :
  NoDup (map f l) -> In x l -> In y l -> f x = f y -> x = y.
Proof.
  induction l as [|a l IH]; intros ND Hx Hy E; [destruct Hx|].
  cbn [map] in ND. inversion ND as [|? ? Hnot ND']; subst.
  destruct Hx as [-> | Hx]; destruct Hy as [-> | Hy].
  - reflexivity.
  - elim Hnot. rewrite E. now apply in_map.
  - elim Hnot. rewrite <- E. now apply in_map.
  - now apply IH.
Qed.

Lemma nodupb_NoDup (l : list jstring) : nodupb l = true -> NoDup l.
Proof.
  induction l as [|x l IH]; intros H; [constructor|].
  cbn [nodupb] in H. apply andb_true_iff in H as [H1 H2].
  apply negb_true_iff, arrayIncludes_not_In in H1.
  constructor; [assumption | now apply IH].
Qed.

(** A rule that no filter skips and whose pattern matches contributes its
    violation. *)
Lemma contribution_fires rules content fileExt context disabled rule :
  arrayIncludes disabled (id rule) = false ->
  (appliesTo rule = js "all" \/ appliesTo rule = context) ->
  (forall exts, fileExtensions rule = Some exts -> fileExt <> [] ->
     arrayIncludes exts fileExt = true) ->
  RegExp.test (pattern rule) (toString content) = true ->
  exists v, contribution rules content fileExt context disabled rule = [v]
            /\ ruleId v = id rule.
Proof.
  intros D A F T. unfold contribution, ruleStep. rewrite D.
  assert (A' : negb (JS.eqb (appliesTo rule) (js "all"))
               && negb (JS.eqb (appliesTo rule) context) = false).
  { destruct A as [-> | ->]; rewrite eqb_refl; cbn [negb andb];
      [reflexivity | apply andb_false_r]. }
  rewrite A'.
  assert (F' : match fileExtensions rule with
               | Some exts =>
                   match fileExt with
                   | [] => false
                   | _ :: _ => negb (arrayIncludes exts fileExt)
                   end
               | None => false
               end = false).
  { destruct (fileExtensions rule) as [exts|]; [|reflexivity].
    destruct fileExt as [|c ext] eqn:FX; [reflexivity|].
    rewrite (F exts eq_refl); [reflexivity | discriminate]. }
  rewrite F', T. cbn [app]. eexists. split; reflexivity.
Qed.

(** C7.  A rule with a non-empty list of file extensions is skipped when a
    non-empty extension outside the list is supplied: its turn of the loop
    adds nothing and no violation carries its id.  With the empty extension
    the list is not looked at: the rule fires exactly when it is not
    disabled, its context applies and its pattern matches. *)
Theorem C7_file_type_filtering :
  forall (rules : RuleArray) (rule : Rule) (exts : list jstring)
         (content : value) (fileExt context : jstring) (config : Config),
    In rule (elements rules) ->
    NoDup (map id (elements rules)) ->
    fileExtensions rule = Some exts ->
    exts <> [] ->
    (fileExt <> [] -> ~ In fileExt exts ->
       (forall violations,
          ruleStep rules content fileExt context (disabledOf config)
            violations rule = violations) /\
       ~ In (id rule)
           (map ruleId (_runRules rules content fileExt context config))) /\
    (In (id rule) (map ruleId (_runRules rules content [] context config))
     <-> ~ In (id rule) (disabledOf config)
         /\ (appliesTo rule = js "all" \/ appliesTo rule = context)
         /\ RegExp.test (pattern rule) (toString content) = true).
Proof.
  intros rules rule exts content fileExt context config Hin ND FE NE.
  assert (Same : forall ext v rule',
            In rule' (elements rules) ->
            In v (contribution rules content ext context (disabledOf config)
                    rule') ->
            ruleId v = id rule -> rule' = rule).
  { intros ext v rule' Hin' Hv E. apply contribution_inv in Hv as (E' & _).
    apply (NoDup_map_eq id (elements rules)); congruence. }
  split.
  - intros NEx Hout.
    assert (Skip : contribution rules content fileExt context
                     (disabledOf config) rule = []).
    { destruct (contribution rules content fileExt context
                  (disabledOf config) rule) as [|v l] eqn:E; [reflexivity|].
      assert (Hv : In v (contribution rules content fileExt context
                           (disabledOf config) rule))
        by (rewrite E; now left).
      apply contribution_inv in Hv as (_ & _ & _ & _ & _ & F & _).
      specialize (F exts FE NEx). apply arrayIncludes_In in F.
      now elim Hout. }
    split.
    + intros violations. rewrite ruleStep_contribution, Skip.
      apply app_nil_r.
    + intros H. apply in_map_iff in H as (v & E & Hv).
      apply runRules_inv in Hv as (rule' & Hin' & Hv).
      pose proof (Same _ _ _ Hin' Hv E) as ->.
      rewrite Skip in Hv. destruct Hv.
  - split.
    + intros H. apply in_map_iff in H as (v & E & Hv).
      apply runRules_inv in Hv as (rule' & Hin' & Hv).
      pose proof (Same _ _ _ Hin' Hv E) as ->.
      apply contribution_inv in Hv as (_ & _ & _ & D & A & _ & T).
      split; [now apply arrayIncludes_not_In|]. split; [|assumption].
      destruct A as [A | A]; apply eqb_eq in A; auto.
    + intros (D & A & T). apply arrayIncludes_not_In in D.
      destruct (@contribution_fires rules content [] context
                  (disabledOf config) rule D A) as (v & Ev & Eid);
        [intros ? _ C; now elim C | assumption |].
      apply in_map_iff. exists v. split; [assumption|].
      rewrite runRules_flat_map. apply in_flat_map. exists rule.
      split; [assumption|]. rewrite Ev. now left.
Qed.

Lemma C7_file_type_filtering_witness :
  In ruleNoEmptyPass (elements CYCLE1_RULES) /\
  NoDup (map id (elements CYCLE1_RULES)) /\
  fileExtensions ruleNoEmptyPass = Some [js ".py"; js ".pyi"] /\
  ~ In (id ruleNoEmptyPass)
      (map ruleId (_runRules CYCLE1_RULES (Str (js "pass")) (js ".js")
                     (js "file-write") emptyConfig)).
Proof.
  assert (H1 : In ruleNoEmptyPass (elements CYCLE1_RULES))
    by (right; left; reflexivity).
  assert (H2 : NoDup (map id (elements CYCLE1_RULES)))
    by (apply nodupb_NoDup; vm_compute; reflexivity).
  assert (H3 : fileExtensions ruleNoEmptyPass = Some [js ".py"; js ".pyi"])
    by reflexivity.
  assert (H4 : [js ".py"; js ".pyi"] <> []) by discriminate.
  assert (H5 : js ".js" <> []) by (vm_compute; discriminate).
  assert (H6 : ~ In (js ".js") [js ".py"; js ".pyi"]).
  { apply arrayIncludes_not_In. vm_compute. reflexivity. }
  repeat (split; [assumption|]).
  exact (proj2 (proj1 (C7_file_type_filtering CYCLE1_RULES ruleNoEmptyPass
                         (Str (js "pass")) (js ".js") (js "file-write")
                         emptyConfig H1 H2 H3 H4) H5 H6)).
Defined.

(** *** Content without anything to check *)

Lemma rules_need_non_space :
  forallb (fun r => needsNonSpace (ignoreCase (pattern r))
                      (source (pattern r)))
    (cycle1Rules ++ cycle2Rules) = true.
Proof. vm_compute. reflexivity. Qed.

Lemma rules_reject_null :
  forallb (fun r => negb (RegExp.test (pattern r) (toString Null)))
    (cycle1Rules ++ cycle2Rules) = true.
Proof. vm_compute. reflexivity. Qed.

Lemma claim_patterns_need_non_space :
  forallb (fun p => needsNonSpace (ignoreCase (globalPattern p))
                      (source (globalPattern p)))
    CLAIM_PATTERNS = true.
Proof. vm_compute. reflexivity. Qed.

Lemma vague_pattern_needs_non_space :
  needsNonSpace (ignoreCase VAGUE_PATTERN) (source VAGUE_PATTERN) = true.
Proof. vm_compute. reflexivity. Qed.

Lemma test_false_exec (re : RegExp.t) (s : jstring) :
  RegExp.test re s = false -> RegExp.exec re s = None.
Proof.
  unfold RegExp.test. destruct (RegExp.exec re s); [discriminate|reflexivity].
Qed.

Lemma blank_rules (content : value) (rule : Rule) :
  blank content -> In rule (cycle1Rules ++ cycle2Rules) ->
  RegExp.test (pattern rule) (toString content) = false.
Proof.
  intros [-> | (s & -> & Hs)] Hin.
  - pose proof rules_reject_null as H. rewrite forallb_forall in H.
    apply negb_true_iff. now apply H.
  - pose proof rules_need_non_space as H. rewrite forallb_forall in H.
    cbn [toString]. apply test_allSpace; [now apply H | assumption].
Qed.

(** C8.  On content that is null, empty or white space only, [runCycle1],
    [runCycle2] and [runCycle4] each return the empty list of violations,
    for every file extension, context, path and configuration. *)
Theorem C8_blank_content_yields_nothing :
  forall (content : value),
    content = Null \/ (exists s, content = Str s /\
                         forall c, In c s -> isSpace c = true) ->
    forall (fileExt context filePath : jstring) (config : Config)
           (config4 : option Config),
      runCycle1 content fileExt context config = [] /\
      runCycle2 content fileExt context config = [] /\
      runCycle4 content filePath config4 = Some [].
Proof.
  intros content Hb fileExt context filePath config config4.
  split; [|split].
  - apply runRules_nil. intros rule Hr. apply blank_rules; [exact Hb|].
    apply in_or_app. left. exact Hr.
  - apply runRules_nil. intros rule Hr. apply blank_rules; [exact Hb|].
    apply in_or_app. right. exact Hr.
  - destruct Hb as [-> | (s & -> & Hs)]; [reflexivity|].
    destruct s as [|c0 s]; [reflexivity|].
    unfold runCycle4.
    rewrite (test_false_exec VAGUE_PATTERN (c0 :: s))
      by (apply test_allSpace;
          [exact vague_pattern_needs_non_space | exact Hs]).
    assert (E : extractClaims (c0 :: s) = Some []).
    { apply extractLoop_no_match. intros p Hp.
      pose proof claim_patterns_need_non_space as H.
      rewrite forallb_forall in H.
      apply test_allSpace; [now apply H | exact Hs]. }
    rewrite E.
    destruct (arrayIncludes (disabledOf4 config4) (js "no-vague-claims"));
      reflexivity.
Qed.

Lemma C8_blank_content_yields_nothing_witness :
  let content := Str [32; 10; 9; 32]%N in
  runCycle1 content (js ".py") (js "file-write") emptyConfig = [] /\
  runCycle2 content (js ".py") (js "file-write") emptyConfig = [] /\
  runCycle4 content (js "research/report.md") None = Some [].
Proof.
  intros content.
  apply (C8_blank_content_yields_nothing (content := content)).
  right. exists [32; 10; 9; 32]%N. split; [reflexivity|].
  intros c [<- | [<- | [<- | [<- | []]]]]; reflexivity.
Defined.

(* ================================================================== *)
(** ** Patterns without assertions: the language they denote *)
(* ================================================================== *)

Section LangFacts.

Variables ic ml : bool.

Lemma progress_app (pv pv' : option N) (w t : jstring) :
  w <> [] -> progress (pv, w ++ t) (pv', t) = true.
Proof.
  intros H. unfold progress, remaining. cbn [snd]. rewrite length_app.
  apply Nat.ltb_lt. destruct w; [now elim H | simpl; lia].
Qed.

(** Every text of the language is found by the matcher, whatever follows
    it. *)
Lemma m_complete (r : regex) (w : jstring) :
  Lang ic r w ->
  forall pv (t : jstring), exists pv', In (pv', t) (m ic ml r (pv, w ++ t)).
Proof.
  induction 1 as [ | neg items c Hc | c Hc | a b w1 w2 _ IH1 _ IH2
                 | a b w _ IH | a b w _ IH | g a
                 | g a w1 w2 _ IH1 Hne _ IH2 | a | a w _ IH ];
    intros pv t.
  - exists pv. now left.
  - exists (Some c). cbn [m app snd]. rewrite Hc. now left.
  - exists (Some c). cbn [m app snd]. rewrite Hc. now left.
  - destruct (IH1 pv (w2 ++ t)) as (pv1 & H1).
    destruct (IH2 pv1 t) as (pv2 & H2).
    exists pv2. cbn [m]. rewrite <- app_assoc. apply in_flat_map.
    now exists (pv1, w2 ++ t).
  - destruct (IH pv t) as (pv' & H'). exists pv'. cbn [m].
    apply in_or_app. now left.
  - destruct (IH pv t) as (pv' & H'). exists pv'. cbn [m].
    apply in_or_app. now right.
  - exists pv. rewrite m_star. cbv zeta. destruct g.
    + apply in_or_app. right. now left.
    + now left.
  - destruct (IH1 pv (w2 ++ t)) as (pv1 & H1).
    destruct (IH2 pv1 t) as (pv2 & H2).
    exists pv2. rewrite m_star. cbv zeta. rewrite <- app_assoc.
    assert (More : In (pv2, t)
      (flat_map (fun st' => if progress (pv, w1 ++ w2 ++ t) st'
                            then m ic ml (Star g a) st' else [])
                (m ic ml a (pv, w1 ++ w2 ++ t)))).
    { apply in_flat_map. exists (pv1, w2 ++ t). split; [assumption|].
      now rewrite progress_app. }
    destruct g; [apply in_or_app; now left | now right].
  - exists pv. cbn [m]. apply in_or_app. right. now left.
  - destruct w as [|c w].
    + exists pv. cbn [m]. apply in_or_app. right. now left.
    + destruct (IH pv t) as (pv' & H'). exists pv'. cbn [m].
      apply in_or_app. left. apply filter_In. split; [assumption|].
      now apply progress_app.
Qed.

Lemma progress_nonempty (st st' : state) (w : jstring) :
  snd st = w ++ snd st' -> progress st st' = true -> w <> [].
Proof.
  intros E P ->. unfold progress, remaining in P. rewrite E in P.
  apply Nat.ltb_lt in P. simpl in P. lia.
Qed.

(** The star of a pattern whose matches are in the language stays in the
    language. *)
Lemma m_star_sound (g : bool) (a : regex) :
  (forall st st', In st' (m ic ml a st) ->
     exists w, snd st = w ++ snd st' /\ Lang ic a w) ->
  forall n st st', remaining st <= n -> In st' (m ic ml (Star g a) st) ->
    exists w, snd st = w ++ snd st' /\ Lang ic (Star g a) w.
Proof.
  intros Ha. induction n as [|n IH]; intros st st' L H; rewrite m_star in H;
    cbv zeta in H.
  - assert (E : flat_map (fun st1 => if progress st st1
                            then m ic ml (Star g a) st1 else [])
                  (m ic ml a st) = []).
    { apply flat_map_all_nil. intros x _. unfold progress.
      destruct (Nat.ltb_spec (remaining x) (remaining st));
        [lia | reflexivity]. }
    rewrite E in H.
    assert (st' = st) as -> by (destruct g, H as [H | H]; now try destruct H).
    exists []. split; [reflexivity | constructor].
  - assert (More : In st'
      (flat_map (fun st1 => if progress st st1
                            then m ic ml (Star g a) st1 else [])
                (m ic ml a st)) ->
      exists w, snd st = w ++ snd st' /\ Lang ic (Star g a) w).
    { intros Hm. apply in_flat_map in Hm as (st1 & H1 & H2).
      destruct (progress st st1) eqn:P; [|destruct H2].
      destruct (Ha _ _ H1) as (w1 & E1 & L1).
      assert (R1 : remaining st1 <= n).
      { unfold progress in P. apply Nat.ltb_lt in P. lia. }
      destruct (IH _ _ R1 H2) as (w2 & E2 & L2).
      exists (w1 ++ w2). split.
      - now rewrite E1, E2, app_assoc.
      - constructor; [assumption | | assumption].
        eapply progress_nonempty; eassumption. }
    assert (Nil : st' = st ->
      exists w, snd st = w ++ snd st' /\ Lang ic (Star g a) w).
    { intros ->. exists []. split; [reflexivity | constructor]. }
    destruct g.
    + apply in_app_or in H as [H | [H | []]]; [now apply More|].
      apply Nil. now symmetry.
    + destruct H as [H | H]; [|now apply More]. apply Nil. now symmetry.
Qed.

(** Every match of a pure pattern covers a text of its language. *)
Lemma m_sound (r : regex) :
  pure r = true ->
  forall st st', In st' (m ic ml r st) ->
    exists w, snd st = w ++ snd st' /\ Lang ic r w.
Proof.
  induction r as [ | neg items | | a IHa b IHb | a IHa b IHb | g a IHa
                 | a IHa | | | | a IHa ]; intros P st st' H;
    cbn [pure] in P; try discriminate.
  - destruct H as [<- | []]. exists []. split; [reflexivity | constructor].
  - cbn [m] in H. destruct st as [pv [|c rest]]; cbn [snd] in H;
      [destruct H|].
    destruct (clsMatch ic neg items c) eqn:C; [|destruct H].
    destruct H as [<- | []]. exists [c]. split; [reflexivity|].
    now constructor.
  - cbn [m] in H. destruct st as [pv [|c rest]]; cbn [snd] in H;
      [destruct H|].
    destruct (isLineTerminator c) eqn:C; [destruct H|].
    destruct H as [<- | []]. exists [c]. split; [reflexivity|].
    now constructor.
  - apply andb_true_iff in P as [Pa Pb]. cbn [m] in H.
    apply in_flat_map in H as (st1 & H1 & H2).
    destruct (IHa Pa _ _ H1) as (w1 & E1 & L1).
    destruct (IHb Pb _ _ H2) as (w2 & E2 & L2).
    exists (w1 ++ w2). split; [now rewrite E1, E2, app_assoc|].
    now constructor.
  - apply andb_true_iff in P as [Pa Pb]. cbn [m] in H.
    apply in_app_or in H as [H | H].
    + destruct (IHa Pa _ _ H) as (w & E & L). exists w. split; [assumption|].
      now apply LAltL.
    + destruct (IHb Pb _ _ H) as (w & E & L). exists w. split; [assumption|].
      now apply LAltR.
  - eapply (m_star_sound g (IHa P)); [apply Nat.le_refl | exact H].
  - cbn [m] in H. apply in_app_or in H as [H | [<- | []]].
    + apply filter_In in H as [H _].
      destruct (IHa P _ _ H) as (w & E & L). exists w. split; [assumption|].
      now apply LOptSome.
    + exists []. split; [reflexivity | constructor].
Qed.

End LangFacts.

Lemma search_hit (re : RegExp.t) (rest : jstring) pv i e :
  In e (run re (pv, rest)) -> exists x, search re pv rest i = Some x.
Proof.
  intros H. destruct rest as [|c rest]; cbn [search];
    match goal with
    | |- context [match ?x with [] => _ | _ :: _ => _ end] =>
        change (In e x) in H; destruct x as [|e0 l]
    end; try (destruct H); eexists; reflexivity.
Qed.

(** A search finds a match as soon as some stretch of the input is in the
    language of the pattern. *)
Lemma search_finds (re : RegExp.t) (w b : jstring) :
  Lang (ignoreCase re) (source re) w ->
  forall (a : jstring) pv i,
    exists x, search re pv (a ++ w ++ b) i = Some x.
Proof.
  intros L. induction a as [|c a IH]; intros pv i.
  - cbn [app].
    destruct (@m_complete (ignoreCase re) (multiline re) _ _ L pv b)
      as (pv' & H).
    eapply search_hit. exact H.
  - cbn [app search]. destruct (run re _) as [|e l]; [apply IH | now eexists].
Qed.

(** For a pure pattern, [test] says that some stretch of the input is in its
    language. *)
Lemma test_pure_iff (re : RegExp.t) (s : jstring) :
  pure (source re) = true ->
  (RegExp.test re s = true <->
   exists a w b, s = a ++ w ++ b /\ Lang (ignoreCase re) (source re) w).
Proof.
  intros P. unfold RegExp.test, exec. split.
  - destruct (search re None s 0) as [[mt e]|] eqn:S; [|discriminate].
    intros _. apply search_some in S as (a & pv' & E & Hin & _).
    destruct (@m_sound _ _ _ P _ _ Hin) as (w & Ew & L). cbn [snd] in Ew.
    apply app_inv_tail in Ew. subst w. now exists a, (text mt), (snd e).
  - intros (a & w & b & -> & L).
    destruct (search_finds re b L a None 0) as (x & ->). reflexivity.
Qed.

(* ================================================================== *)
(** ** Pass 1: vague language *)
(* ================================================================== *)

Lemma phraseUnits_dropSpaces (p : jstring) :
  phraseUnits true p = phraseUnits false (dropSpaces p).
Proof.
  induction p as [|c p IH]; [reflexivity|].
  cbn [phraseUnits dropSpaces]. destruct (isSpace c) eqn:S.
  - exact IH.
  - cbn [phraseUnits]. now rewrite S.
Qed.

Lemma Lang_spaces (ic : bool) (ws : jstring) :
  allSpace ws -> Lang ic spaces ws.
Proof.
  induction ws as [|c ws IH]; intros H; [constructor|].
  change (c :: ws) with ([c] ++ ws). constructor.
  - constructor. unfold clsMatch. cbn [existsb itemMatch xorb].
    rewrite (H c (or_introl eq_refl)). reflexivity.
  - discriminate.
  - apply IH. intros x Hx. apply H. now right.
Qed.

Lemma Lang_spaces1 (ic : bool) (ws : jstring) :
  ws <> [] -> allSpace ws -> Lang ic spaces1 ws.
Proof.
  intros NE H. destruct ws as [|c ws]; [now elim NE|].
  change (c :: ws) with ([c] ++ ws). constructor.
  - constructor. unfold clsMatch. cbn [existsb itemMatch xorb].
    rewrite (H c (or_introl eq_refl)). reflexivity.
  - apply Lang_spaces. intros x Hx. apply H. now right.
Qed.

Lemma flexMatch_Lang (p w : jstring) :
  flexMatch p w -> Lang true (phraseUnits false p) w.
Proof.
  induction 1 as [ | c d p w S L _ IH | c p ws w S NE Hs _ IH ].
  - constructor.
  - cbn [phraseUnits]. rewrite S. change (d :: w) with ([d] ++ w).
    constructor; [|exact IH]. constructor.
    unfold clsMatch. cbn [existsb itemMatch xorb]. unfold sameLetter in L.
    rewrite L, N.eqb_refl. reflexivity.
  - cbn [phraseUnits]. rewrite S. constructor.
    + now apply Lang_spaces1.
    + now rewrite phraseUnits_dropSpaces.
Qed.

Lemma Lang_alts (ic : bool) (l : list regex) (r : regex) (w : jstring) :
  In r l -> Lang ic r w -> Lang ic (alts l) w.
Proof.
  induction l as [|a l IH]; intros Hin L; [destruct Hin|].
  destruct l as [|b l].
  - destruct Hin as [-> | []]. exact L.
  - change (alts (a :: b :: l)) with (Alt a (alts (b :: l))).
    destruct Hin as [-> | Hin]; [now apply LAltL|].
    apply LAltR. now apply IH.
Qed.

(** Content with a vague phrase is matched by VAGUE_PATTERN. *)
Lemma vagueLanguage_exec (content : jstring) :
  vagueLanguage content -> exists mt, RegExp.exec VAGUE_PATTERN content = Some mt.
Proof.
  intros (phrase & a & w & b & Hin & -> & F).
  assert (L : Lang (ignoreCase VAGUE_PATTERN) (source VAGUE_PATTERN) w).
  { apply (@Lang_alts true (map phrasePattern VAGUE_PHRASES)
             (phrasePattern phrase)).
    - now apply in_map.
    - now apply flexMatch_Lang. }
  destruct (search_finds VAGUE_PATTERN b L a None 0) as ([mt e] & S).
  exists mt. unfold exec. now rewrite S.
Qed.

Lemma Lang_Seq_inv (ic : bool) (a b : regex) (w : jstring) :
  Lang ic (Seq a b) w ->
  exists w1 w2, w = w1 ++ w2 /\ Lang ic a w1 /\ Lang ic b w2.
Proof. inversion 1; subst. now eexists _, _. Qed.

Lemma Lang_Cls_inv (ic neg : bool) (items : list citem) (w : jstring) :
  Lang ic (Cls neg items) w ->
  exists c, w = [c] /\ clsMatch ic neg items c = true.
Proof. inversion 1; subst. now eexists. Qed.

Lemma Lang_star_space_inv (ic : bool) (r : regex) (w : jstring) :
  Lang ic r w -> r = spaces -> allSpace w.
Proof.
  induction 1 as [ | | | | | | g a | g a w1 w2 L1 _ Hne _ IH2 | | ];
    intros E; try discriminate E.
  - intros c [].
  - injection E as -> ->. apply Lang_Cls_inv in L1 as (c & -> & C).
    unfold clsMatch in C. cbn [existsb itemMatch xorb] in C.
    rewrite orb_false_r in C.
    intros x [<- | Hx]; [exact C | now apply IH2].
Qed.

Lemma Lang_spaces1_inv (ic : bool) (ws : jstring) :
  Lang ic spaces1 ws -> ws <> [] /\ allSpace ws.
Proof.
  intros L. apply Lang_Seq_inv in L as (w1 & w2 & -> & L1 & L2).
  apply Lang_Cls_inv in L1 as (c & -> & C).
  unfold clsMatch in C. cbn [existsb itemMatch xorb] in C.
  rewrite orb_false_r in C.
  split; [discriminate|].
  pose proof (Lang_star_space_inv L2 eq_refl) as H2.
  intros x [<- | Hx]; [exact C | now apply H2].
Qed.

Lemma dropSpaces_length (p : jstring) : length (dropSpaces p) <= length p.
Proof.
  induction p as [|c p IH]; [apply Nat.le_refl|].
  cbn [dropSpaces]. destruct (isSpace c); simpl; lia.
Qed.

Lemma Lang_flexMatch (n : nat) :
  forall p w, length p <= n ->
    Lang true (phraseUnits false p) w -> flexMatch p w.
Proof.
  induction n as [|n IH]; intros [|c p] w Len L; cbn [length] in Len;
    try lia.
  - inversion L. constructor.
  - inversion L. constructor.
  - cbn [phraseUnits] in L. destruct (isSpace c) eqn:S.
    + apply Lang_Seq_inv in L as (ws & w2 & -> & L1 & L2).
      apply Lang_spaces1_inv in L1 as (NE & Hs).
      rewrite phraseUnits_dropSpaces in L2.
      apply FlexSpace; try assumption.
      apply IH; [|assumption]. pose proof (dropSpaces_length p). lia.
    + apply Lang_Seq_inv in L as (w1 & w2 & -> & L1 & L2).
      apply Lang_Cls_inv in L1 as (d & -> & C).
      unfold clsMatch in C. cbn [existsb itemMatch xorb] in C.
      rewrite orb_false_r in C. apply N.eqb_eq in C.
      apply FlexChar; [assumption | exact C |].
      apply IH; [lia | assumption].
Qed.

Lemma Lang_alts_inv (ic : bool) (l : list regex) (w : jstring) :
  l <> [] -> Lang ic (alts l) w -> exists r, In r l /\ Lang ic r w.
Proof.
  induction l as [|a l IH]; intros NE L; [now elim NE|].
  destruct l as [|b l].
  - exists a. split; [now left | exact L].
  - change (alts (a :: b :: l)) with (Alt a (alts (b :: l))) in L.
    inversion L; subst.
    + exists a. split; [now left | assumption].
    + destruct IH as (r & Hr & Lr); [discriminate | assumption |].
      exists r. split; [now right | assumption].
Qed.

Lemma vague_pattern_pure : pure (source VAGUE_PATTERN) = true.
Proof. reflexivity. Qed.

(** VAGUE_PATTERN matches exactly the contents that hold a vague phrase. *)
Lemma vague_test_iff (content : jstring) :
  RegExp.test VAGUE_PATTERN content = true <-> vagueLanguage content.
Proof.
  rewrite (test_pure_iff VAGUE_PATTERN content vague_pattern_pure). split.
  - intros (a & w & b & E & L).
    apply Lang_alts_inv in L as (r & Hr & Lr); [|discriminate].
    apply in_map_iff in Hr as (phrase & <- & Hp).
    exists phrase, a, w, b. repeat split; try assumption.
    eapply Lang_flexMatch; [apply Nat.le_refl | exact Lr].
  - intros (phrase & a & w & b & Hin & E & F).
    exists a, w, b. split; [assumption|].
    apply (@Lang_alts true (map phrasePattern VAGUE_PHRASES)
             (phrasePattern phrase)).
    + now apply in_map.
    + now apply flexMatch_Lang.
Qed.

(** C3.  Content that holds one of the fixed vague phrases, up to letter
    case and with any white space between its words, makes [runCycle4]
    return exactly one violation, of rule no-vague-claims, whenever that rule
    is not disabled: pass 2 is not run, whatever claims the content has. *)
Theorem C3_vague_language_short_circuit :
  forall (content filePath : jstring) (config : option Config),
    vagueLanguage content ->
    ~ In (js "no-vague-claims") (disabledOf4 config) ->
    exists found,
      runCycle4 (Str content) filePath config
      = Some [mkViolation (js "no-vague-claims") 4
                (ruleMessage 0 ++ [LF; LF] ++ js "Found: " ++ [DQUOTE]
                   ++ found ++ [DQUOTE])].
Proof.
  intros content filePath config V D.
  destruct (vagueLanguage_exec V) as (mt & E).
  apply arrayIncludes_not_In in D.
  destruct content as [|c0 s]; [vm_compute in E; discriminate E|].
  exists (text mt). unfold runCycle4. now rewrite D, E.
Qed.

Lemma C3_vague_language_short_circuit_witness :
  let content := js "STUDIES  show that revenue grew by 45%." in
  vagueLanguage content /\
  (exists claims, extractClaims content = Some claims /\ claims <> []) /\
  exists found,
    runCycle4 (Str content) (js "research/report.md") None
    = Some [mkViolation (js "no-vague-claims") 4
              (ruleMessage 0 ++ [LF; LF] ++ js "Found: " ++ [DQUOTE]
                 ++ found ++ [DQUOTE])].
Proof.
  intros content.
  assert (V : vagueLanguage content).
  { exists "studies show"%string, [], (js "STUDIES  show"),
      (js " that revenue grew by 45%.").
    split; [now left|]. split; [reflexivity|].
    change (js "studies show") with
      ([115; 116; 117; 100; 105; 101; 115; 32; 115; 104; 111; 119]%N).
    change (js "STUDIES  show") with
      ([83; 84; 85; 68; 73; 69; 83] ++ [32; 32] ++ [115; 104; 111; 119])%N.
    cbn [app].
    repeat (apply FlexChar; [reflexivity | reflexivity |]).
    apply (@FlexSpace 32 [115; 104; 111; 119]%N [32; 32]%N
             [115; 104; 111; 119]%N).
    - reflexivity.
    - discriminate.
    - intros c [<- | [<- | []]]; reflexivity.
    - cbn [dropSpaces]. repeat (apply FlexChar; [reflexivity | reflexivity |]).
      constructor. }
  split; [exact V|]. split.
  - eexists. split; [vm_compute; reflexivity | discriminate].
  - apply (C3_vague_language_short_circuit (js "research/report.md") None V).
    intros [].
Defined.

(* ================================================================== *)
(** ** Pass 2: the verification marker *)
(* ================================================================== *)

Lemma ids_differ (a b : jstring) : JS.eqb a b = false -> a <> b.
Proof. apply eqb_neq. Qed.

(** C4.  For a document with at least one extractable claim and no vague
    language, and with rule no-unverified-claims not disabled, [runCycle4]
    returns the no-unverified-claims violation exactly when the content does
    not hold the literal text of VERIFICATION_TAG as a substring; the
    near-miss markers do not count and give that violation. *)
Theorem C4_marker_exactness :
  (forall (content filePath : jstring) (config : option Config)
          (claims : list Claim),
     extractClaims content = Some claims -> claims <> [] ->
     ~ vagueLanguage content ->
     ~ In (js "no-unverified-claims") (disabledOf4 config) ->
     exists vs,
       runCycle4 (Str content) filePath config = Some vs /\
       (In (js "no-unverified-claims") (map ruleId vs) <->
        ~ exists a b, content = a ++ VERIFICATION_TAG ++ b) /\
       (includes content VERIFICATION_TAG = true <->
        exists a b, content = a ++ VERIFICATION_TAG ++ b)) /\
  (forall d, In d nearMisses ->
     includes d VERIFICATION_TAG = false /\
     option_map (map ruleId) (runCycle4 (Str d) [] None)
     = Some [js "no-unverified-claims"]).
Proof.
  split.
  - intros content filePath config claims EC NE NV D.
    apply arrayIncludes_not_In in D.
    assert (EV : RegExp.exec VAGUE_PATTERN content = None).
    { apply test_false_exec.
      destruct (RegExp.test VAGUE_PATTERN content) eqn:T; [|reflexivity].
      elim NV. now apply vague_test_iff. }
    destruct content as [|c0 s].
    { vm_compute in EC. injection EC as <-. now elim NE. }
    destruct claims as [|cl claims]; [now elim NE|].
    unfold runCycle4. rewrite EV, EC, D. cbv zeta.
    pose proof (includes_infix (c0 :: s) VERIFICATION_TAG) as I.
    assert (P1 : (if arrayIncludes (disabledOf4 config) (js "no-vague-claims")
                  then @None Match else None) = None)
      by (destruct (arrayIncludes (disabledOf4 config)
                      (js "no-vague-claims")); reflexivity).
    rewrite P1.
    destruct (includes (c0 :: s) VERIFICATION_TAG) eqn:Tag; cbn [negb andb].
    + assert (No : forall vs : list Violation,
                (vs = [] \/ exists msg,
                   vs = [mkViolation (js "no-unsourced-claims") 4 msg]) ->
                exists vs', Some vs = Some vs' /\
                  (In (js "no-unverified-claims") (map ruleId vs') <->
                   ~ exists a b, c0 :: s = a ++ VERIFICATION_TAG ++ b) /\
                  (true = true <->
                   exists a b, c0 :: s = a ++ VERIFICATION_TAG ++ b)).
      { intros vs Hvs. exists vs. split; [reflexivity|]. split; [|exact I].
        split.
        - intros Hin. exfalso.
          destruct Hvs as [-> | (msg & ->)]; [destruct Hin|].
          destruct Hin as [E | []]. cbn [ruleId] in E.
          revert E. apply ids_differ. vm_compute. reflexivity.
        - intros N. elim N. now apply I. }
      destruct (arrayIncludes (disabledOf4 config)
                  (js "no-unsourced-claims")); cbn [negb].
      * apply No. now left.
      * destruct (filter _ (cl :: claims));
          apply No; [now left | right; now eexists].
    + eexists. split; [reflexivity|]. split; [|exact I].
      split.
      * intros _ H. apply I in H. discriminate H.
      * intros _. now left.
  - intros d [<- | [<- | [<- | []]]]; split; vm_compute; reflexivity.
Qed.

Lemma C4_marker_exactness_witness :
  let content := js "Revenue grew by 45%. <!-- PERPLEXITY_VERIFIED -->" in
  (exists claims, extractClaims content = Some claims /\ claims <> []) /\
  ~ vagueLanguage content /\
  exists vs,
    runCycle4 (Str content) [] None = Some vs /\
    (In (js "no-unverified-claims") (map ruleId vs) <->
     ~ exists a b, content = a ++ VERIFICATION_TAG ++ b) /\
    (includes content VERIFICATION_TAG = true <->
     exists a b, content = a ++ VERIFICATION_TAG ++ b).
Proof.
  intros content.
  assert (EC : extractClaims content = Some [mkClaim (js "45%") 16])
    by (vm_compute; reflexivity).
  assert (NE : [mkClaim (js "45%") 16] <> []) by discriminate.
  assert (NV : ~ vagueLanguage content).
  { intros V. apply vague_test_iff in V. vm_compute in V. discriminate V. }
  split; [eexists; split; [exact EC | exact NE]|].
  split; [exact NV|].
  apply (proj1 C4_marker_exactness content [] None _ EC NE NV).
  intros [].
Defined.

(* ================================================================== *)
(** ** Pass 2: the source window *)
(* ================================================================== *)

Lemma source_patterns_pure :
  forallb (fun p => pure (source p)) SOURCE_PATTERNS = true.
Proof. reflexivity. Qed.

(** A pure pattern that matches inside a text matches inside every text
    around it. *)
Lemma test_pure_mono (re : RegExp.t) (a w b : jstring) :
  pure (source re) = true ->
  RegExp.test re w = true -> RegExp.test re (a ++ w ++ b) = true.
Proof.
  intros P T. apply (test_pure_iff re w P) in T as (a1 & w1 & b1 & -> & L).
  apply (test_pure_iff re _ P). exists (a ++ a1), w1, (b1 ++ b).
  split; [|assumption]. now rewrite <- !app_assoc.
Qed.

Lemma holdsSource_mono (a w b : jstring) :
  holdsSource w = true -> holdsSource (a ++ w ++ b) = true.
Proof.
  unfold holdsSource. rewrite !existsb_exists. intros (p & Hp & T).
  exists p. split; [assumption|]. apply test_pure_mono; [|assumption].
  pose proof source_patterns_pure as H. rewrite forallb_forall in H.
  now apply H.
Qed.

Lemma firstn_app_3 (n : nat) (x w y : jstring) :
  length x + length w <= n ->
  firstn n (x ++ w ++ y) = x ++ w ++ firstn (n - length x - length w) y.
Proof.
  intros L. rewrite firstn_app, firstn_all2 by lia.
  rewrite firstn_app, firstn_all2 by lia. reflexivity.
Qed.

(** The window of [hasNearbySource] for an index inside the content. *)
Lemma window_slice (content : jstring) (i : Z) :
  (0 <= i <= Z.of_nat (length content))%Z ->
  let s := Z.to_nat (Z.max 0 (i - SOURCE_PROXIMITY)) in
  let e := Z.to_nat (Z.min (Z.of_nat (length content))
                       (i + SOURCE_PROXIMITY)) in
  slice content (Z.max 0 (i - SOURCE_PROXIMITY))
    (Z.min (Z.of_nat (length content)) (i + SOURCE_PROXIMITY))
  = firstn (e - s) (skipn s content) /\ s <= e <= length content.
Proof.
  intros Hi s e. unfold slice, relIndex, SOURCE_PROXIMITY in *.
  destruct (Z.ltb_spec (Z.max 0 (i - 300)) 0); [lia|].
  destruct (Z.ltb_spec (Z.min (Z.of_nat (length content)) (i + 300)) 0);
    [lia|].
  split; [|subst s e; lia].
  f_equal; [|f_equal]; subst s e; lia.
Qed.

Lemma hasNearbySource_holds (content : jstring) (i : Z) :
  hasNearbySource content i
  = holdsSource (slice content (Z.max 0 (i - SOURCE_PROXIMITY))
                   (Z.min (Z.of_nat (length content))
                      (i + SOURCE_PROXIMITY))).
Proof. reflexivity. Qed.

(** The claim counts as sourced exactly when a stretch that holds a source
    lies inside the characters from i - 300 up to, not including,
    i + 300. *)
Lemma hasNearbySource_iff (content : jstring) (i : Z) :
  (0 <= i <= Z.of_nat (length content))%Z ->
  (hasNearbySource content i = true <->
   exists a w b,
     content = a ++ w ++ b /\ holdsSource w = true /\
     (i - 300 <= Z.of_nat (length a))%Z /\
     (Z.of_nat (length a + length w) <= i + 300)%Z).
Proof.
  intros Hi. rewrite hasNearbySource_holds.
  destruct (window_slice content Hi) as (-> & Hs & He).
  set (s := Z.to_nat (Z.max 0 (i - SOURCE_PROXIMITY))) in *.
  set (e := Z.to_nat (Z.min (Z.of_nat (length content))
                        (i + SOURCE_PROXIMITY))) in *.
  unfold SOURCE_PROXIMITY in *.
  split.
  - intros H.
    exists (firstn s content), (firstn (e - s) (skipn s content)),
      (skipn (e - s) (skipn s content)).
    split; [now rewrite (firstn_skipn (e - s)), (firstn_skipn s)|].
    split; [assumption|].
    rewrite !length_firstn, length_skipn. subst s e. lia.
  - intros (a & w & b & -> & H & La & Lw).
    rewrite !length_app in He.
    assert (Sa : s <= length a) by (subst s; lia).
    assert (Ea : length a + length w <= e)
      by (subst e; rewrite !length_app; lia).
    rewrite skipn_app.
    replace (s - length a) with 0 by lia. cbn [skipn].
    rewrite firstn_app_3 by (rewrite length_skipn; lia).
    now apply holdsSource_mono.
Qed.

Lemma bool_eq_iff (x y : bool) : (x = true <-> y = true) -> x = y.
Proof. destruct x, y; intros [H1 H2]; auto; symmetry; auto. Qed.

(** C5, amended.  For a claim at index i of the content, the
    claim counts as sourced exactly when a stretch of text that holds a
    source lies within the characters from index i - 300 up to, and not
    including, index i + 300.  Hence a source that begins exactly 300
    characters before the claim and is at most 600 long is nearby; what lies
    at index i + 300 or after plays no part, and neither does what lies
    before index i - 300. *)
Theorem C5_source_window :
  forall (content : jstring) (i : Z),
    (0 <= i <= Z.of_nat (length content))%Z ->
    (hasNearbySource content i = true <->
     exists a w b,
       content = a ++ w ++ b /\ holdsSource w = true /\
       (i - 300 <= Z.of_nat (length a))%Z /\
       (Z.of_nat (length a + length w) <= i + 300)%Z) /\
    (forall pre src post,
       content = pre ++ src ++ post -> holdsSource src = true ->
       Z.of_nat (length pre) = (i - 300)%Z -> length src <= 600 ->
       hasNearbySource content i = true) /\
    (forall pre tail,
       content = pre ++ tail -> (i + 300 <= Z.of_nat (length pre))%Z ->
       hasNearbySource content i = hasNearbySource pre i) /\
    (forall pre pre' rest,
       content = pre ++ rest -> (Z.of_nat (length pre) <= i - 300)%Z ->
       length pre' = length pre ->
       hasNearbySource content i = hasNearbySource (pre' ++ rest) i).
Proof.
  intros content i Hi.
  pose proof (hasNearbySource_iff content Hi) as Iff.
  split; [exact Iff|]. split; [|split].
  - intros pre src post E H Lp Ls. apply Iff.
    exists pre, src, post. repeat split; try assumption; lia.
  - intros pre tail E Lp.
    assert (Hp : (0 <= i <= Z.of_nat (length pre))%Z) by lia.
    apply bool_eq_iff. rewrite Iff, (hasNearbySource_iff pre Hp). split.
    + intros (a & w & b & E' & H & La & Lw).
      exists a, w, (firstn (length pre - length a - length w) b).
      split; [|now repeat split].
      rewrite <- firstn_app_3 by lia. rewrite <- E', E.
      rewrite firstn_app, firstn_all, Nat.sub_diag. cbn [firstn].
      now rewrite app_nil_r.
    + intros (a & w & b & E' & H & La & Lw).
      exists a, w, (b ++ tail). split; [|now repeat split].
      now rewrite E, E', <- !app_assoc.
  - intros pre pre' rest E Lp Lq.
    assert (Hq : (0 <= i <= Z.of_nat (length (pre' ++ rest)))%Z).
    { rewrite E in Hi. rewrite length_app in *. lia. }
    apply bool_eq_iff. rewrite Iff, (hasNearbySource_iff _ Hq).
    assert (Swap : forall p q : jstring,
      length p = length q -> (Z.of_nat (length p) <= i - 300)%Z ->
      (exists a w b, p ++ rest = a ++ w ++ b /\ holdsSource w = true /\
         (i - 300 <= Z.of_nat (length a))%Z /\
         (Z.of_nat (length a + length w) <= i + 300)%Z) ->
      exists a w b, q ++ rest = a ++ w ++ b /\ holdsSource w = true /\
         (i - 300 <= Z.of_nat (length a))%Z /\
         (Z.of_nat (length a + length w) <= i + 300)%Z).
    { intros p q Lpq Lpi (a & w & b & E' & H & La & Lw).
      assert (Ea : a = p ++ skipn (length p) a).
      { rewrite <- (firstn_skipn (length p) a) at 1. f_equal.
        transitivity (firstn (length p) (p ++ rest)).
        - rewrite E', firstn_app.
          replace (length p - length a) with 0 by lia.
          cbn [firstn]. now rewrite app_nil_r.
        - rewrite firstn_app, firstn_all, Nat.sub_diag. cbn [firstn].
          apply app_nil_r. }
      exists (q ++ skipn (length p) a), w, b.
      assert (Er : rest = skipn (length p) a ++ w ++ b).
      { rewrite Ea in E' at 1. rewrite <- app_assoc in E'.
        now apply app_inv_head in E'. }
      split; [now rewrite Er, <- app_assoc|]. split; [assumption|].
      rewrite length_app, length_skipn. lia. }
    rewrite E. split; apply Swap; auto; lia.
Qed.

Lemma C5_source_window_witness :
  let src := js "[Source: x]" in
  let content := src ++ repeat 97%N 289 ++ js "45%" in
  (0 <= 300 <= Z.of_nat (length content))%Z /\
  hasNearbySource content 300 = true.
Proof.
  intros src content.
  assert (Hi : (0 <= 300 <= Z.of_nat (length content))%Z)
    by (vm_compute; split; discriminate).
  split; [exact Hi|].
  apply (proj1 (proj2 (C5_source_window content Hi))
           [] src (repeat 97%N 289 ++ js "45%")).
  - reflexivity.
  - vm_compute. reflexivity.
  - reflexivity.
  - vm_compute. repeat constructor.
Defined.

(** C5 as the specification words it fails on the code.  In the first
    document the claim 45% starts at index 29 and a source marker starts at
    index 329, 300 characters after it: the claim is not counted as sourced.
    In the second the claim starts at index 301 and a markdown link starts
    at index 0, 301 characters before it: the link has lost its first
    character in the window, the URL inside it has not, and the claim is
    counted as sourced. *)
Lemma C5_symmetric_boundary_fails :
  let src := js "[Source: x]" in
  let pre := VERIFICATION_TAG ++ [LF] ++ js "45%" ++ repeat 97%N 297 in
  let content := pre ++ src in
  let link := js "[R](https://e.com/r)" in
  let content' := link ++ repeat 97%N 281 ++ js "45%" in
  (holdsSource src = true /\
   extractClaims content = Some [mkClaim (js "45%") 29] /\
   Z.of_nat (length pre) = (29 + 300)%Z /\
   hasNearbySource content 29 = false /\
   option_map (map ruleId) (runCycle4 (Str content) [] None)
   = Some [js "no-unsourced-claims"]) /\
  (holdsSource link = true /\
   extractClaims content' = Some [mkClaim (js "45%") 301] /\
   hasNearbySource content' 301 = true).
Proof.
  split; repeat (split; [vm_compute; reflexivity|]); vm_compute; reflexivity.
Qed.

(* ================================================================== *)
(** ** Paths: extension and research files *)
(* ================================================================== *)



Lemma lowerUnit_not_sigma (c : N) : c <> SIGMA -> lowerUnit c <> SIGMA.
Proof.
  unfold lowerUnit, isUpperAscii, inRange, SIGMA.
  destruct (N.leb_spec 65 c); destruct (N.leb_spec c 90); cbn [andb]; lia.
Qed.

(** Lowercasing works code unit by code unit, up to the choice between
    the two sigmas. *)
Lemma lowerFrom_pointwise (s : jstring) :
  forall before, Forall2 lowerOf s (lowerFrom before s).
Proof.
  induction s as [|c s IH]; intros before; cbn [lowerFrom]; constructor;
    [|apply IH].
  unfold lowerOf, lowerAt. destruct (N.eqb_spec c SIGMA) as [->|NE].
  - left. split; [reflexivity|].
    destruct (before && negb (followedByCased s)); auto.
  - right. now split.
Qed.

Lemma length_lowerFrom (s : jstring) :
  forall before, length (lowerFrom before s) = length s.
Proof.
  induction s as [|c s IH]; intros before; cbn [lowerFrom length];
    [reflexivity | now rewrite IH].
Qed.

(** Without a capital sigma lowercasing is the map of [lowerUnit]. *)
Lemma lowerFrom_no_sigma (s : jstring) :
  ~ In SIGMA s -> forall before, lowerFrom before s = map lowerUnit s.
Proof.
  induction s as [|c s IH]; intros H before; [reflexivity|].
  cbn [lowerFrom map]. unfold lowerAt.
  destruct (N.eqb_spec c SIGMA) as [->|NE]; [elim H; now left|].
  f_equal. apply IH. intros Hin. apply H. now right.
Qed.


Lemma lowered_no_sigma (s : jstring) :
  forall before, ~ In SIGMA (lowerFrom before s).
Proof.
  induction s as [|c s IH]; intros before; cbn [lowerFrom]; [intros []|].
  intros [E | Hin]; [|exact (IH _ Hin)].
  unfold lowerAt in E. destruct (N.eqb_spec c SIGMA) as [->|NE].
  - destruct (before && negb (followedByCased s)); discriminate E.
  - exact (lowerUnit_not_sigma NE E).
Qed.









Lemma getFileExtension_unfold (p : jstring) :
  getFileExtension (Str p)
  = if (lastIndexOf p DOT =? -1)%Z
       || (lastIndexOf p DOT =? Z.of_nat (length p) - 1)%Z
    then [] else toLowerCase (sliceFrom p (lastIndexOf p DOT)).
Proof. destruct p; reflexivity. Qed.

Lemma toLowerCase_no_sigma (s : jstring) :
  ~ In SIGMA s -> toLowerCase s = map lowerUnit s.
Proof. intros H. now apply lowerFrom_no_sigma. Qed.







Lemma split_cons (c : N) (s : jstring) :
  split SLASH (c :: s)
  = match split SLASH s with
    | [] => [[]]
    | seg :: segs => if (c =? SLASH)%N then [] :: seg :: segs
                     else (c :: seg) :: segs
    end.
Proof. reflexivity. Qed.

Lemma split_nonempty (s : jstring) : split SLASH s <> [].
Proof.
  destruct s as [|c s]; [discriminate|]. rewrite split_cons.
  destruct (split SLASH s); [discriminate|].
  destruct (c =? SLASH)%N; discriminate.
Qed.

(** A text begins with a segment and a slash exactly when that segment is
    the first of at least two. *)
Lemma startsWith_segment (r : jstring) :
  forallb (fun c => negb (c =? SLASH)%N) r = true ->
  forall n, startsWith (r ++ [SLASH]) n = true <->
            exists rest, split SLASH n = r :: rest /\ rest <> [].
Proof.
  induction r as [|x r IH]; intros NS n.
  - cbn [app]. destruct n as [|c n].
    + split; [discriminate|]. intros (rest & E & NE).
      injection E as <-. now elim NE.
    + cbn [startsWith]. rewrite andb_true_r, split_cons.
      pose proof (split_nonempty n) as NEn.
      destruct (split SLASH n) as [|seg segs]; [now elim NEn|].
      rewrite N.eqb_sym. destruct (c =? SLASH)%N.
      * split; [|reflexivity]. intros _. exists (seg :: segs).
        split; [reflexivity | discriminate].
      * split; [discriminate|]. intros (rest & E & _). discriminate E.
  - cbn [forallb] in NS. apply andb_true_iff in NS as [Nx NS].
    apply negb_true_iff in Nx. cbn [app]. destruct n as [|c n].
    + split; [discriminate|]. intros (rest & E & NE). discriminate E.
    + cbn [startsWith]. rewrite andb_true_iff, (IH NS n), split_cons.
      pose proof (split_nonempty n) as NEn.
      destruct (split SLASH n) as [|seg segs]; [now elim NEn|].
      split.
      * intros (Ex & rest & E & NE). apply N.eqb_eq in Ex. subst c.
        injection E as -> ->. rewrite Nx. now exists rest.
      * intros (rest & E & NE). destruct (c =? SLASH)%N; [discriminate E|].
        injection E as -> -> ->. split; [apply N.eqb_refl|].
        now exists rest.
Qed.

Lemma removelast_tl (seg : jstring) (segs : list jstring) :
  tl (removelast (seg :: segs)) = removelast segs.
Proof. destruct segs; reflexivity. Qed.

(** The text /r/ occurs in a path exactly when r is one of its segments
    other than the first and the last. *)
Lemma includes_segment (r : jstring) :
  forallb (fun c => negb (c =? SLASH)%N) r = true ->
  forall n, includes n (SLASH :: r ++ [SLASH])
            = existsb (JS.eqb r) (tl (removelast (split SLASH n))).
Proof.
  intros NS. induction n as [|c n IH]; [reflexivity|].
  cbn [includes startsWith]. rewrite IH, split_cons.
  pose proof (split_nonempty n) as NEn.
  pose proof (startsWith_segment r NS n) as A.
  destruct (split SLASH n) as [|seg segs]; [now elim NEn|].
  rewrite N.eqb_sym. destruct (c =? SLASH)%N; cbn [andb orb].
  - rewrite !removelast_tl.
    destruct segs as [|seg2 segs].
    + cbn [removelast existsb orb].
      destruct (startsWith (r ++ [SLASH]) n) eqn:S; [|reflexivity].
      destruct (proj1 A eq_refl) as (rest & E & NE).
      injection E as _ <-. now elim NE.
    + change (removelast (seg :: seg2 :: segs))
        with (seg :: removelast (seg2 :: segs)).
      cbn [existsb]. f_equal.
      destruct (JS.eqb r seg) eqn:Er.
      * apply A. apply eqb_eq in Er. subst seg.
        exists (seg2 :: segs). split; [reflexivity | discriminate].
      * destruct (startsWith (r ++ [SLASH]) n) eqn:S; [|reflexivity].
        destruct (proj1 A eq_refl) as (rest & E & _).
        injection E as <- _. now rewrite eqb_refl in Er.
  - now rewrite !removelast_tl.
Qed.

(** The two classifications differ on the paths whose first segment is the
    directory research, and only there. *)
Lemma isResearchTarget_vs_code (path : jstring) :
  isResearchTarget path
  = isResearchFile (Str path)
    || (endsWith (toLowerCase (replaceBackslashes path)) (js ".md")
        && leadingResearch (toLowerCase (replaceBackslashes path))).
Proof.
  destruct path as [|c0 p]; [reflexivity|].
  unfold isResearchTarget, isResearchFile, leadingResearch, pop.
  set (n := toLowerCase (replaceBackslashes (c0 :: p))).
  destruct (endsWith n (js ".md")); [|reflexivity]. cbn [negb andb].
  change (js "/research/") with (SLASH :: js "research" ++ [SLASH]).
  rewrite (includes_segment (js "research") eq_refl n).
  pose proof (split_nonempty n) as NEn.
  destruct (split SLASH n) as [|seg segs]; [now elim NEn|].
  rewrite removelast_tl. destruct segs as [|seg2 segs].
  - cbn [removelast existsb orb]. now rewrite orb_false_r.
  - change (removelast (seg :: seg2 :: segs))
      with (seg :: removelast (seg2 :: segs)).
    cbn [existsb].
    destruct (JS.eqb (js "research") seg);
      destruct (existsb (JS.eqb (js "research"))
                  (removelast (seg2 :: segs)));
      destruct (includes (last (seg :: seg2 :: segs) []) (js "research"));
      reflexivity.
Qed.

Lemma normalize_unit (c : N) :
  lowerUnit (if (lowerUnit c =? BACKSLASH)%N then SLASH else lowerUnit c)
  = lowerUnit (if (c =? BACKSLASH)%N then SLASH else c)
  /\ (if ((if (c =? BACKSLASH)%N then SLASH else c) =? BACKSLASH)%N
      then SLASH else (if (c =? BACKSLASH)%N then SLASH else c))
     = (if (c =? BACKSLASH)%N then SLASH else c).
Proof.
  unfold lowerUnit, isUpperAscii, inRange, BACKSLASH, SLASH.
  destruct (N.eqb_spec c 92) as [->|Nc]; [split; reflexivity|].
  split.
  - destruct (N.leb_spec 65 c); destruct (N.leb_spec c 90); cbn [andb].
    + destruct (N.eqb_spec (c + 32) 92); [lia|].
      destruct (N.leb_spec 65 (c + 32)); destruct (N.leb_spec (c + 32) 90);
        cbn [andb]; reflexivity || lia.
    + destruct (N.eqb_spec c 92); [lia|].
      destruct (N.leb_spec 65 c); destruct (N.leb_spec c 90); cbn [andb];
        reflexivity || lia.
    + destruct (N.eqb_spec c 92); [lia|].
      destruct (N.leb_spec 65 c); destruct (N.leb_spec c 90); cbn [andb];
        reflexivity || lia.
    + destruct (N.eqb_spec c 92); [lia|].
      destruct (N.leb_spec 65 c); destruct (N.leb_spec c 90); cbn [andb];
        reflexivity || lia.
  - destruct (N.eqb_spec c 92); [lia | reflexivity].
Qed.

Lemma slash_unit_class (c : N) :
  let d := if (c =? BACKSLASH)%N then SLASH else c in
  isCased d = isCased c /\ isCaseIgnorable d = isCaseIgnorable c /\
  (d =? SIGMA)%N = (c =? SIGMA)%N.
Proof.
  cbv zeta. destruct (N.eqb_spec c BACKSLASH) as [->|NE];
    [|repeat split; reflexivity].
  repeat split; reflexivity.
Qed.

Lemma followedByCased_slashes (s : jstring) :
  followedByCased (replaceBackslashes s) = followedByCased s.
Proof.
  induction s as [|c s IH]; [reflexivity|].
  change (replaceBackslashes (c :: s))
    with ((if (c =? BACKSLASH)%N then SLASH else c) :: replaceBackslashes s).
  cbn [followedByCased]. destruct (slash_unit_class c) as (-> & -> & _).
  now rewrite IH.
Qed.

(** Lowercasing after the separators are replaced, from the lower case. *)
Lemma lowerFrom_slashes (s : jstring) :
  forall before,
    lowerFrom before (replaceBackslashes s)
    = map (fun c => lowerUnit (if (c =? BACKSLASH)%N then SLASH else c))
        (lowerFrom before s).
Proof.
  induction s as [|c s IH]; intros before; [reflexivity|].
  change (replaceBackslashes (c :: s))
    with ((if (c =? BACKSLASH)%N then SLASH else c) :: replaceBackslashes s).
  cbn [lowerFrom map]. destruct (slash_unit_class c) as (-> & -> & E).
  rewrite IH. f_equal. unfold lowerAt. rewrite E, followedByCased_slashes.
  destruct (N.eqb_spec c SIGMA) as [->|NE].
  - destruct (before && negb (followedByCased s)); reflexivity.
  - symmetry. apply normalize_unit.
Qed.

Lemma replaceBackslashes_no_sigma (s : jstring) :
  ~ In SIGMA s -> ~ In SIGMA (replaceBackslashes s).
Proof.
  intros H Hin. unfold replaceBackslashes in Hin.
  apply in_map_iff in Hin as (c & E & Hc). apply H.
  destruct (c =? BACKSLASH)%N; [discriminate E|].
  rewrite <- E. exact Hc.
Qed.

(** The classification of the code does not depend on letter case, nor on
    which of the two separators a path is written with. *)
Lemma isResearchFile_case_and_separators (path : jstring) :
  isResearchFile (Str (toLowerCase path)) = isResearchFile (Str path) /\
  isResearchFile (Str (replaceBackslashes path)) = isResearchFile (Str path).
Proof.
  assert (N1 : toLowerCase (replaceBackslashes (toLowerCase path))
               = toLowerCase (replaceBackslashes path)).
  { rewrite (toLowerCase_no_sigma (replaceBackslashes (toLowerCase path))
               (replaceBackslashes_no_sigma _ (lowered_no_sigma path false))).
    unfold toLowerCase. rewrite lowerFrom_slashes.
    unfold replaceBackslashes. now rewrite map_map. }
  assert (N2 : toLowerCase (replaceBackslashes (replaceBackslashes path))
               = toLowerCase (replaceBackslashes path)).
  { f_equal. unfold replaceBackslashes. rewrite map_map.
    apply map_ext. intros c. apply normalize_unit. }
  destruct path as [|c0 p]; [split; reflexivity|].
  split.
  - destruct (toLowerCase (c0 :: p)) as [|d0 q] eqn:E;
      [pose proof (length_lowerFrom (c0 :: p) false) as L;
       unfold toLowerCase in E; rewrite E in L; discriminate L|].
    unfold isResearchFile. now rewrite N1.
  - change (replaceBackslashes (c0 :: p))
      with ((if (c0 =? BACKSLASH)%N then SLASH else c0)
            :: replaceBackslashes p).
    unfold isResearchFile.
    change ((if (c0 =? BACKSLASH)%N then SLASH else c0)
            :: replaceBackslashes p) with (replaceBackslashes (c0 :: p)).
    now rewrite N2.
Qed.

(** C9.  What the code does on a path whose first segment is the directory
    research (a path of tests/test-edge-cases.mjs, and one of
    docs-site/cycles/cycle-4.md): the path ends in .md and has a research
    directory segment, and [isResearchFile] answers false, because it looks
    for the text /research/ with its leading slash.  With a directory before
    it the same path is classified as research. *)
Theorem C9_leading_research_directory_is_missed :
  isResearchTarget (js "research/2024/q4-analysis.md") = true /\
  isResearchFile (Str (js "research/2024/q4-analysis.md")) = false /\
  isResearchFile (Str (js "research/competitor-review.md")) = false /\
  isResearchFile (Str (js "docs/research/2024/q4-analysis.md")) = true.
Proof. repeat (split; [vm_compute; reflexivity|]). vm_compute. reflexivity. Qed.

(* ================================================================== *)
(** ** Further properties of the rule engine *)
(* ================================================================== *)

Lemma cycle1_rules_file_write :
  forallb (fun r => JS.eqb (appliesTo r) (js "file-write")) cycle1Rules = true.
Proof. vm_compute. reflexivity. Qed.

Lemma cycle2_rules_contexts :
  forallb (fun r => JS.eqb (appliesTo r) (js "file-write")
                    || JS.eqb (appliesTo r) (js "bash")
                    || JS.eqb (appliesTo r) (js "web")) cycle2Rules = true.
Proof. vm_compute. reflexivity. Qed.

Lemma context_names_differ :
  js "file-write" <> js "all" /\ js "bash" <> js "all" /\ js "web" <> js "all".
Proof. repeat split; apply eqb_neq; vm_compute; reflexivity. Qed.

Lemma runRules_applies rules content fileExt context config v :
  In v (_runRules rules content fileExt context config) ->
  exists rule, In rule (elements rules) /\ ruleId v = id rule /\
    (appliesTo rule = js "all" \/ appliesTo rule = context).
Proof.
  intros H. apply runRules_inv in H as (rule & Hin & H).
  apply contribution_inv in H as (E & _ & _ & _ & A & _).
  exists rule. split; [assumption|]. split; [assumption|].
  destruct A as [A | A]; apply eqb_eq in A; auto.
Qed.

(** Outside their contexts the two cycles report nothing. *)
Lemma cycles_outside_context (content : value) (fileExt context : jstring)
    (config : Config) :
  (context <> js "file-write" ->
   runCycle1 content fileExt context config = []) /\
  (context <> js "file-write" -> context <> js "bash" ->
   context <> js "web" ->
   runCycle2 content fileExt context config = []).
Proof.
  destruct context_names_differ as (N1 & N2 & N3).
  split.
  - intros NC. unfold runCycle1.
    destruct (_runRules CYCLE1_RULES content fileExt context config)
      as [|v l] eqn:E; [reflexivity|]. exfalso.
    destruct (@runRules_applies CYCLE1_RULES content fileExt context config v)
      as (rule & Hin & _ & A); [rewrite E; now left|].
    pose proof cycle1_rules_file_write as F. rewrite forallb_forall in F.
    specialize (F rule Hin). apply eqb_eq in F. rewrite F in A.
    destruct A as [A | A]; [now apply N1 | now apply NC].
  - intros NC1 NC2 NC3. unfold runCycle2.
    destruct (_runRules CYCLE2_RULES content fileExt context config)
      as [|v l] eqn:E; [reflexivity|]. exfalso.
    destruct (@runRules_applies CYCLE2_RULES content fileExt context config v)
      as (rule & Hin & _ & A); [rewrite E; now left|].
    pose proof cycle2_rules_contexts as F. rewrite forallb_forall in F.
    specialize (F rule Hin).
    apply orb_true_iff in F as [F | F];
      [apply orb_true_iff in F as [F | F]|];
      apply eqb_eq in F; rewrite F in A; destruct A as [A | A];
      solve [ now apply N1 | now apply N2 | now apply N3
            | now apply NC1 | now apply NC2 | now apply NC3 ].
Qed.

(** Context isolation.  A violation comes from a rule whose [appliesTo] is
    'all' or the context of the call.  No rule of the two catalogs applies to
    'all': cycle 1 reports nothing outside the file-write context, and
    cycle 2 nothing outside the file-write, bash and web contexts. *)
Theorem context_isolation :
  forall (content : value) (fileExt context : jstring) (config : Config),
    (forall rules v,
       In v (_runRules rules content fileExt context config) ->
       exists rule, In rule (elements rules) /\ ruleId v = id rule /\
         (appliesTo rule = js "all" \/ appliesTo rule = context)) /\
    (context <> js "file-write" ->
     runCycle1 content fileExt context config = []) /\
    (context <> js "file-write" -> context <> js "bash" ->
     context <> js "web" ->
     runCycle2 content fileExt context config = []).
Proof.
  intros content fileExt context config. split.
  - intros rules v. apply runRules_applies.
  - apply cycles_outside_context.
Qed.

Lemma context_isolation_witness :
  js "mcp" <> js "file-write" /\
  runCycle1 (Str (js "// TODO: fix")) [] (js "mcp") emptyConfig = [].
Proof.
  assert (H : js "mcp" <> js "file-write")
    by (apply eqb_neq; vm_compute; reflexivity).
  split; [exact H|].
  exact (proj1 (proj2 (context_isolation (Str (js "// TODO: fix")) []
                         (js "mcp") emptyConfig)) H).
Defined.

(** Tools the gate never blocks.  When the tool name, in lower case, is none
    of write, edit, bash, webfetch and websearch, the gate approves whatever
    the tool input holds: an MCP tool has its string inputs extracted under
    the context mcp, to which no rule applies, and any other tool has no
    content. *)
Theorem gate_approves_other_tools :
  forall (config : Config) (input : HookInput),
    toLowerCase (toolNameOf input) <> js "write" ->
    toLowerCase (toolNameOf input) <> js "edit" ->
    toLowerCase (toolNameOf input) <> js "bash" ->
    toLowerCase (toolNameOf input) <> js "webfetch" ->
    toLowerCase (toolNameOf input) <> js "websearch" ->
    gate config (Some input) = Some Approve.
Proof.
  intros config input N1 N2 N3 N4 N5.
  apply eqb_neq in N1, N2, N3, N4, N5.
  assert (G : gateViolations config (Some input) = Some []).
  { unfold gateViolations, extractContent.
    rewrite N1, N2, N3, N4, N5. cbn [orb].
    destruct (startsWith (js "mcp__") (toLowerCase (toolNameOf input))
              || startsWith (js "mcp_") (toLowerCase (toolNameOf input)));
      cbn [content]; [|reflexivity].
    destruct (join [LF] (stringValues (toolInputOf input))) as [|c0 s] eqn:J;
      [reflexivity|].
    unfold allViolations. cbn [filePath content fileExt context].
    change (isResearchFile (Str [])) with false. cbn [andb].
    destruct (cycles_outside_context (Str (c0 :: s)) [] (js "mcp") config)
      as (C1 & C2).
    rewrite C1, C2; try reflexivity;
      apply eqb_neq; vm_compute; reflexivity. }
  unfold gate. now rewrite G.
Qed.

Lemma gate_approves_other_tools_witness :
  gate emptyConfig
    (Some (mkHookInput (Some (js "mcp__db__query"))
             (Some [(js "sql", FStr (js "rm -rf / ; eval(x) // TODO"))])))
  = Some Approve.
Proof.
  apply gate_approves_other_tools; apply eqb_neq; vm_compute; reflexivity.
Defined.

(** Disabling one more rule removes the violations of that rule and leaves
    the others, in the same order. *)
Lemma filter_flat_map {A B : Type} (f : B -> bool) (g : A -> list B)
    (l : list A) :
  filter f (flat_map g l) = flat_map (fun x => filter f (g x)) l.
Proof.
  induction l as [|x l IH]; [reflexivity|].
  cbn [flat_map]. now rewrite filter_app, IH.
Qed.

Theorem disabling_filters :
  forall (rules : RuleArray) (content : value) (fileExt context : jstring)
         (disabled : list jstring) (c4 : option Cycle4Config) (r : jstring),
    _runRules rules content fileExt context (mkConfig (Some (r :: disabled)) c4)
    = filter (fun v => negb (JS.eqb (ruleId v) r))
        (_runRules rules content fileExt context
           (mkConfig (Some disabled) c4)).
Proof.
  intros rules content fileExt context disabled c4 r.
  rewrite !runRules_flat_map, filter_flat_map. cbn [disabledOf disabledRules].
  apply flat_map_ext. intros rule.
  unfold contribution, ruleStep. cbn [arrayIncludes existsb].
  fold (arrayIncludes disabled (id rule)).
  destruct (JS.eqb (id rule) r) eqn:E; cbn [orb];
    repeat match goal with
           | |- context [if ?b then _ else _] => destruct b
           end; cbn [app filter ruleId negb]; rewrite ?E; reflexivity.
Qed.

Lemma contribution_shape rules content fileExt context disabled rule :
  contribution rules content fileExt context disabled rule = [] \/
  exists v, contribution rules content fileExt context disabled rule = [v]
            /\ ruleId v = id rule.
Proof.
  unfold contribution, ruleStep.
  repeat match goal with
         | |- context [if ?b then _ else _] => destruct b
         end; try (now left); right; eexists; split; reflexivity.
Qed.

Lemma filtered_keys_NoDup {X K : Type} (key : X -> K) (keep : X -> bool) :
  forall xs : list X,
    NoDup (map key xs) -> NoDup (map key (filter keep xs)).
Proof.
  intros xs. induction xs as [|x xs IH]; intros ND; [constructor|].
  cbn [map] in ND. inversion ND as [|? ? Hnot ND']; subst.
  cbn [filter]. destruct (keep x); [|now apply IH].
  cbn [map]. constructor; [|now apply IH].
  intros H. apply Hnot. apply in_map_iff in H as (y & E & Hy).
  apply filter_In in Hy as [Hy _]. apply in_map_iff. now exists y.
Qed.

Lemma filter_map_swap {A B : Type} (f : A -> B) (p : B -> bool) (l : list A) :
  filter p (map f l) = map f (filter (fun x => p (f x)) l).
Proof.
  induction l as [|x l IH]; [reflexivity|].
  cbn [map filter]. destruct (p (f x)); cbn [map]; now rewrite IH.
Qed.

(** Order and multiplicity.  With distinct rule ids in the array, the ids of
    the violations are pairwise distinct and are listed in the order of the
    array: they are the ids of the array with those that did not fire left
    out. *)
Theorem violations_in_catalog_order :
  forall (rules : RuleArray) (content : value) (fileExt context : jstring)
         (config : Config),
    NoDup (map id (elements rules)) ->
    let out := map ruleId (_runRules rules content fileExt context config) in
    NoDup out /\
    out = filter (arrayIncludes out) (map id (elements rules)).
Proof.
  intros rules content fileExt context config ND out.
  set (fires := fun rule =>
         match contribution rules content fileExt context
                 (disabledOf config) rule with
         | [] => false
         | _ :: _ => true
         end).
  assert (E : forall l,
    map ruleId (flat_map (contribution rules content fileExt context
                            (disabledOf config)) l)
    = map id (filter fires l)).
  { induction l as [|x l IH]; [reflexivity|].
    cbn [flat_map filter]. rewrite map_app, IH.
    destruct (contribution_shape rules content fileExt context
                (disabledOf config) x) as [C | (v & C & Ev)].
    - assert (F : fires x = false) by (unfold fires; now rewrite C).
      now rewrite C, F.
    - assert (F : fires x = true) by (unfold fires; now rewrite C).
      rewrite C, F. cbn [map app]. now rewrite Ev. }
  assert (Eout : out = map id (filter fires (elements rules))).
  { unfold out. now rewrite runRules_flat_map, E. }
  split.
  - rewrite Eout. now apply filtered_keys_NoDup.
  - rewrite filter_map_swap. rewrite Eout at 1. f_equal.
    apply filter_ext_in. intros x Hx.
    destruct (fires x) eqn:F.
    + symmetry. apply arrayIncludes_In. rewrite Eout. apply in_map.
      apply filter_In. now split.
    + symmetry. apply arrayIncludes_not_In. rewrite Eout. intros H.
      apply in_map_iff in H as (y & Ey & Hy).
      apply filter_In in Hy as [Hy Fy].
      assert (y = x) by (apply (NoDup_map_eq id (elements rules)); assumption).
      subst y. congruence.
Qed.

Lemma violations_in_catalog_order_witness :
  let out := map ruleId (_runRules CYCLE1_RULES
                           (Str (js "pass # TODO placeholder")) (js ".py")
                           (js "file-write") emptyConfig) in
  NoDup (map id (elements CYCLE1_RULES)) /\ NoDup out /\
  out = filter (arrayIncludes out) (map id (elements CYCLE1_RULES)).
Proof.
  intros out.
  assert (ND : NoDup (map id (elements CYCLE1_RULES)))
    by (apply nodupb_NoDup; vm_compute; reflexivity).
  split; [exact ND|].
  exact (violations_in_catalog_order CYCLE1_RULES
           (Str (js "pass # TODO placeholder")) (js ".py") (js "file-write")
           emptyConfig ND).
Defined.

(* ================================================================== *)
(** ** Further properties of the research verifier *)
(* ================================================================== *)

(** One finding at most.  [runCycle4] returns no violation or a single one,
    of cycle 4 and of one of the three research rules; with the three rules
    disabled it returns none, whatever the content. *)
Theorem runCycle4_single_finding :
  forall (content : value) (filePath : jstring) (config : option Config),
    exists vs,
      runCycle4 content filePath config = Some vs /\
      length vs <= 1 /\
      (forall v, In v vs ->
         cycle v = 4%N /\
         In (ruleId v) [js "no-vague-claims"; js "no-unverified-claims";
                        js "no-unsourced-claims"]) /\
      (In (js "no-vague-claims") (disabledOf4 config) ->
       In (js "no-unverified-claims") (disabledOf4 config) ->
       In (js "no-unsourced-claims") (disabledOf4 config) ->
       vs = []).
Proof.
  intros content filePath config.
  destruct (runCycle4_cases content filePath config) as (vs & E & Hvs).
  exists vs. split; [exact E|].
  destruct Hvs as [-> | (rid & msg & -> & D & Hr)].
  - split; [simpl; lia|]. split; [intros v []|]. reflexivity.
  - split; [simpl; lia|]. split.
    + intros v [<- | []]. cbn [cycle ruleId]. split; [reflexivity|].
      destruct Hr as [-> | [-> | ->]];
        [left | right; left | right; right; left]; reflexivity.
    + intros D1 D2 D3. apply arrayIncludes_not_In in D. exfalso.
      destruct Hr as [-> | [-> | ->]]; auto.
Qed.

Lemma runCycle4_single_finding_witness :
  let config := Some (mkConfig (Some [js "no-vague-claims";
                                      js "no-unverified-claims";
                                      js "no-unsourced-claims"]) None) in
  runCycle4 (Str (js "Studies show this. Revenue grew 45%. No tag here."))
    (js "research/report.md") config = Some [].
Proof.
  intros config.
  destruct (runCycle4_single_finding
              (Str (js "Studies show this. Revenue grew 45%. No tag here."))
              (js "research/report.md") config) as (vs & E & _ & _ & H).
  rewrite E. f_equal. apply H.
  - left. reflexivity.
  - right. left. reflexivity.
  - right. right. left. reflexivity.
Defined.

(** [seen] and [claims] grow together. *)
Lemma pushMatches_grows (ms : list Match) :
  forall seen claims seen' claims',
    pushMatches ms seen claims = (seen', claims') ->
    length seen = length claims ->
    length seen' = length claims' /\ length claims <= length claims' /\
    (ms <> [] -> claims' <> []).
Proof.
  induction ms as [|mt ms IH]; intros seen claims seen' claims' E L.
  - cbn [pushMatches] in E. injection E as <- <-.
    split; [assumption|]. split; [lia|]. intros H. now elim H.
  - cbn [pushMatches] in E.
    destruct (arrayIncludes seen (claimKey mt)) eqn:I.
    + destruct (IH _ _ _ _ E L) as (L' & G & _).
      split; [assumption|]. split; [assumption|]. intros _ ->.
      apply arrayIncludes_In in I. destruct seen; [destruct I|].
      simpl in L, G. lia.
    + assert (L2 : length (seen ++ [claimKey mt])
                   = length (claims ++ [mkClaim (text mt) (index mt)]))
        by (rewrite !length_app; simpl; lia).
      destruct (IH _ _ _ _ E L2) as (L' & G & _).
      rewrite length_app in G. simpl in G.
      split; [assumption|]. split; [lia|]. intros _ ->. simpl in G. lia.
Qed.

Lemma test_execAll (re : RegExp.t) (s : jstring) (ms : list Match) :
  RegExp.test re s = true -> execAll re s = Some ms -> ms <> [].
Proof.
  unfold RegExp.test, exec, execAll. cbn [execLoop].
  destruct (search re None s 0) as [[mt [pv' rest']]|]; [|discriminate].
  intros _. destruct (text mt); [discriminate|].
  destruct (execLoop re (length s) pv' rest' _); [|discriminate].
  cbn [option_map]. intros E. injection E as <-. discriminate.
Qed.

Lemma extractLoop_grows (patterns : list RegExp.t) (content : jstring) :
  forall seen claims cl,
    extractLoop patterns content seen claims = Some cl ->
    length seen = length claims ->
    length claims <= length cl /\
    ((exists p, In p patterns /\
                RegExp.test (globalPattern p) content = true) -> cl <> []).
Proof.
  induction patterns as [|p patterns IH]; intros seen claims cl E L;
    cbn [extractLoop] in E.
  - injection E as <-. split; [lia|]. intros (p & [] & _).
  - destruct (execAll (globalPattern p) content) as [ms|] eqn:X;
      [|discriminate].
    destruct (pushMatches ms seen claims) as [seen' claims'] eqn:P.
    destruct (pushMatches_grows ms seen claims P L) as (L' & G & NE).
    destruct (IH _ _ _ E L') as (G' & NE').
    split; [lia|]. intros (q & [<- | Hq] & T).
    + pose proof (test_execAll _ _ T X) as Hms. specialize (NE Hms).
      intros ->. destruct claims'; [now elim NE | simpl in G'; lia].
    + apply NE'. now exists q.
Qed.

(** A document has no claim exactly when no claim pattern matches it. *)
Lemma extractClaims_nil_iff (content : jstring) :
  extractClaims content = Some [] <->
  forall p, In p CLAIM_PATTERNS ->
            RegExp.test (globalPattern p) content = false.
Proof.
  split.
  - intros E p Hp.
    destruct (RegExp.test (globalPattern p) content) eqn:T; [|reflexivity].
    destruct (extractLoop_grows CLAIM_PATTERNS content [] [] E eq_refl)
      as (_ & NE).
    elim NE; [now exists p | reflexivity].
  - intros H. now apply extractLoop_no_match.
Qed.

(** Claim-free documents never block.  A document that holds no vague
    phrase and that no claim pattern matches gets no violation, with or
    without the verification marker and whatever is disabled. *)
Theorem claim_free_never_blocks :
  forall (content filePath : jstring) (config : option Config),
    ~ vagueLanguage content ->
    (forall p, In p CLAIM_PATTERNS ->
               RegExp.test (globalPattern p) content = false) ->
    extractClaims content = Some [] /\
    runCycle4 (Str content) filePath config = Some [].
Proof.
  intros content filePath config NV H.
  assert (E : extractClaims content = Some [])
    by now apply extractClaims_nil_iff.
  split; [exact E|].
  destruct content as [|c0 s]; [reflexivity|].
  unfold runCycle4. rewrite E.
  assert (EV : RegExp.exec VAGUE_PATTERN (c0 :: s) = None).
  { apply test_false_exec.
    destruct (RegExp.test VAGUE_PATTERN (c0 :: s)) eqn:T; [|reflexivity].
    elim NV. now apply vague_test_iff. }
  rewrite EV.
  destruct (arrayIncludes (disabledOf4 config) (js "no-vague-claims"));
    reflexivity.
Qed.

Lemma claim_free_never_blocks_witness :
  let content :=
    js "This document describes the architecture of our system." in
  ~ vagueLanguage content /\
  runCycle4 (Str content) (js "research/report.md") None = Some [].
Proof.
  intros content.
  assert (NV : ~ vagueLanguage content).
  { intros V. apply vague_test_iff in V. vm_compute in V. discriminate V. }
  split; [exact NV|].
  apply (claim_free_never_blocks (js "research/report.md") None NV).
  intros p Hp.
  assert (A : forallb (fun q => negb (RegExp.test (globalPattern q) content))
                CLAIM_PATTERNS = true) by (vm_compute; reflexivity).
  rewrite forallb_forall in A. apply negb_true_iff. now apply A.
Defined.

Lemma lastUnit_app (prev : option N) (a b : jstring) :
  lastUnit prev (a ++ b) = lastUnit (lastUnit prev a) b.
Proof. apply fold_left_app. Qed.

Section Positions.

Variables ic ml : bool.

Lemma follows_refl st : follows st st.
Proof. now exists []. Qed.

Lemma follows_trans a b c : follows a b -> follows b c -> follows a c.
Proof.
  intros (w1 & E1 & P1) (w2 & E2 & P2). exists (w1 ++ w2). split.
  - now rewrite E1, E2, app_assoc.
  - now rewrite P2, P1, lastUnit_app.
Qed.

Lemma starLoop_follows g (f : state -> list state) :
  (forall st st', In st' (f st) -> follows st st') ->
  forall n st st', In st' (starLoop g f n st) -> follows st st'.
Proof.
  intros Hf. induction n as [|n IH]; intros st st' H; cbn [starLoop] in H.
  - destruct H as [<- | []]. apply follows_refl.
  - assert (Hmore : forall x,
      In x (flat_map (fun st1 => if progress st st1
                                 then starLoop g f n st1 else []) (f st)) ->
      follows st x).
    { intros x Hx. apply in_flat_map in Hx as (st1 & H1 & H2).
      destruct (progress st st1); [|contradiction].
      eapply follows_trans; [apply Hf, H1 | apply IH, H2]. }
    destruct g.
    + apply in_app_or in H as [H | [<- | []]];
        [now apply Hmore | apply follows_refl].
    + destruct H as [<- | H]; [apply follows_refl | now apply Hmore].
Qed.

(** The matcher keeps track of the code unit before its position. *)
Lemma m_follows (r : regex) :
  forall st st', In st' (m ic ml r st) -> follows st st'.
Proof.
  induction r as [ | neg items | | a IHa b IHb | a IHa b IHb | g a IHa
                 | a IHa | | | | a IHa ]; intros st st' H; cbn [m] in H.
  - destruct H as [<- | []]. apply follows_refl.
  - destruct st as [pv [|c rest]]; cbn [snd] in H; [contradiction|].
    destruct (clsMatch ic neg items c); [|contradiction].
    destruct H as [<- | []]. exists [c]. now split.
  - destruct st as [pv [|c rest]]; cbn [snd] in H; [contradiction|].
    destruct (isLineTerminator c); [contradiction|].
    destruct H as [<- | []]. exists [c]. now split.
  - apply in_flat_map in H as (st1 & H1 & H2).
    eapply follows_trans; [apply IHa, H1 | apply IHb, H2].
  - apply in_app_or in H as [H | H]; [now apply IHa | now apply IHb].
  - eapply starLoop_follows; [apply IHa | apply H].
  - apply in_app_or in H as [H | [<- | []]]; [|apply follows_refl].
    apply filter_In in H as [H _]. now apply IHa.
  - destruct (atBol ml st); [|contradiction].
    destruct H as [<- | []]. apply follows_refl.
  - destruct (atEol ml st); [|contradiction].
    destruct H as [<- | []]. apply follows_refl.
  - destruct (atWordB st); [|contradiction].
    destruct H as [<- | []]. apply follows_refl.
  - destruct (m ic ml a st); [|contradiction].
    destruct H as [<- | []]. apply follows_refl.
Qed.

End Positions.

(** What the search finds: the match starts at the first position, from
    the one where the search starts, at which the pattern matches; the
    matcher is run there with the code unit that stands before that
    position, its preferred result is the match, and the position after
    the match is preceded by the last code unit of the match. *)
Lemma search_first (re : RegExp.t) :
  forall (rest : jstring) pv i mt e,
    search re pv rest i = Some (mt, e) ->
    exists (a : jstring) l,
      rest = a ++ text mt ++ snd e /\
      index mt = (i + Z.of_nat (length a))%Z /\
      run re (lastUnit pv a, text mt ++ snd e) = e :: l /\
      fst e = lastUnit pv (a ++ text mt) /\
      forall (a1 : jstring) c (a2 : jstring), a = a1 ++ c :: a2 ->
        run re (lastUnit pv a1, c :: a2 ++ text mt ++ snd e) = [].
Proof.
  assert (Hit : forall (rest : jstring) pv i e0 l,
    run re (pv, rest) = e0 :: l ->
    exists (a : jstring) l',
      rest = a ++ consumed rest e0 ++ snd e0 /\
      i = (i + Z.of_nat (length a))%Z /\
      run re (lastUnit pv a, consumed rest e0 ++ snd e0) = e0 :: l' /\
      fst e0 = lastUnit pv (a ++ consumed rest e0) /\
      forall (a1 : jstring) c (a2 : jstring), a = a1 ++ c :: a2 ->
        run re (lastUnit pv a1, c :: a2 ++ consumed rest e0 ++ snd e0) = []).
  { intros rest pv i e0 l R.
    assert (He : In e0 (e0 :: l)) by now left.
    rewrite <- R in He.
    destruct (m_follows _ _ _ _ _ He) as (w & Ew & Pw).
    cbn [fst snd] in Ew, Pw.
    exists [], l. rewrite Ew at 1 2 3 4. rewrite consumed_app.
    rewrite <- Ew. cbn [app lastUnit fold_left length].
    split; [reflexivity|]. split; [lia|]. split; [exact R|].
    split; [exact Pw|]. intros [|? ?] c a2 E; discriminate E. }
  induction rest as [|c rest IH]; intros pv i mt e H; cbn [search] in H.
  - destruct (run re _) as [|e0 l] eqn:R in H; [discriminate|].
    injection H as <- <-. cbn [text index]. eapply Hit, R.
  - destruct (run re _) as [|e0 l] eqn:R in H.
    + apply IH in H as (a & l & E & Hi & Hr & Hp & Hl).
      exists (c :: a), l. split; [simpl; now rewrite <- E|].
      split; [rewrite Hi; simpl length; lia|].
      split; [exact Hr|]. split; [exact Hp|].
      intros [|c1 a1] c' a2 Ea; cbn [app] in Ea; injection Ea as -> ->.
      * rewrite <- E. exact R.
      * now apply (Hl a1 c' a2).
    + injection H as <- <-. cbn [text index]. eapply Hit, R.
Qed.

(** Every match of the loop is non-empty and sits in the input at its
    index; there the matcher, run with the code unit that stands before
    that index, has the match as its preferred result. *)
Lemma execLoop_located (re : RegExp.t) :
  forall fuel pv (rest : jstring) i ms,
    execLoop re fuel pv rest i = Some ms ->
    forall mt, In mt ms ->
      text mt <> [] /\
      exists (a b : jstring) l,
        rest = a ++ text mt ++ b /\
        index mt = (i + Z.of_nat (length a))%Z /\
        run re (lastUnit pv a, text mt ++ b)
        = (lastUnit pv (a ++ text mt), b) :: l.
Proof.
  induction fuel as [|fuel IH]; intros pv rest i ms E mt Hmt;
    cbn [execLoop] in E; [discriminate|].
  destruct (search re pv rest i) as [[m0 [pv1 rest1]]|] eqn:S.
  - destruct (text m0) as [|t0 tx] eqn:T; [discriminate|].
    destruct (execLoop re fuel pv1 rest1 _) as [ms'|] eqn:L; [|discriminate].
    cbn [option_map] in E. injection E as <-.
    apply search_first in S as (a & l & Er & Hi & Hr & Hp & _).
    cbn [fst snd] in Er, Hr, Hp.
    destruct Hmt as [<- | Hmt].
    + split; [rewrite T; discriminate|].
      exists a, rest1, l. split; [exact Er|]. split; [exact Hi|].
      rewrite <- Hp. exact Hr.
    + destruct (IH _ _ _ _ L mt Hmt) as (NE & a' & b & l' & Er' & Hi' & Hr').
      split; [exact NE|].
      exists (a ++ text m0 ++ a'), b, l'. split.
      * rewrite Er, Er', <- !app_assoc. reflexivity.
      * split; [rewrite Hi', Hi, !length_app, T; cbn [length]; lia|].
        rewrite Hp, <- !lastUnit_app, <- !app_assoc in Hr'.
        rewrite <- !app_assoc. exact Hr'.
  - injection E as <-. destruct Hmt.
Qed.

(** The set [seen] holds the keys of the claims pushed so far. *)
Lemma pushMatches_keys (ms : list Match) :
  forall seen claims seen' claims',
    pushMatches ms seen claims = (seen', claims') ->
    seen = map (fun c => claimKey (mkMatch (cindex c) (ctext c))) claims ->
    NoDup seen ->
    seen' = map (fun c => claimKey (mkMatch (cindex c) (ctext c))) claims' /\
    NoDup seen' /\
    forall c, In c claims' ->
      In c claims \/ exists mt, In mt ms /\ c = mkClaim (text mt) (index mt).
Proof.
  induction ms as [|mt ms IH]; intros seen claims seen' claims' E K ND;
    cbn [pushMatches] in E.
  - injection E as <- <-. split; [exact K|]. split; [exact ND|]. now left.
  - destruct (arrayIncludes seen (claimKey mt)) eqn:I.
    + destruct (IH _ _ _ _ E K ND) as (K' & ND' & H).
      split; [exact K'|]. split; [exact ND'|].
      intros c Hc. destruct (H c Hc) as [?|(mt' & ? & ?)]; [now left|].
      right. exists mt'. split; [now right | assumption].
    + apply arrayIncludes_not_In in I.
      assert (K2 : seen ++ [claimKey mt]
                   = map (fun c => claimKey (mkMatch (cindex c) (ctext c)))
                       (claims ++ [mkClaim (text mt) (index mt)])).
      { rewrite map_app, <- K. cbn [map cindex ctext].
        destruct mt; reflexivity. }
      assert (ND2 : NoDup (seen ++ [claimKey mt])).
      { apply NoDup_app; [exact ND | |].
        - constructor; [intros [] | constructor].
        - intros k Hk [<- | []]. now apply I. }
      destruct (IH _ _ _ _ E K2 ND2) as (K' & ND' & H).
      split; [exact K'|]. split; [exact ND'|].
      intros c Hc. destruct (H c Hc) as [Hin|(mt' & ? & ?)].
      * apply in_app_or in Hin as [?|[<- | []]]; [now left|].
        right. exists mt. split; [now left | reflexivity].
      * right. exists mt'. split; [now right | assumption].
Qed.

Lemma extractLoop_located (content : jstring) (patterns : list RegExp.t) :
  forall seen claims cl,
    extractLoop patterns content seen claims = Some cl ->
    seen = map (fun c => claimKey (mkMatch (cindex c) (ctext c))) claims ->
    NoDup seen ->
    NoDup cl /\
    forall c, In c cl ->
      In c claims \/
      exists p mt, In p patterns /\ c = mkClaim (text mt) (index mt) /\
        exists fuel ms, execLoop (globalPattern p) fuel None content 0
                        = Some ms /\ In mt ms.
Proof.
  induction patterns as [|p patterns IH]; intros seen claims cl E K ND;
    cbn [extractLoop] in E.
  - injection E as <-. split; [|now left].
    apply NoDup_map_inv with (f := fun c => claimKey (mkMatch (cindex c) (ctext c))).
    now rewrite <- K.
  - destruct (execAll (globalPattern p) content) as [ms|] eqn:X;
      [|discriminate].
    destruct (pushMatches ms seen claims) as [seen' claims'] eqn:P.
    destruct (@pushMatches_keys ms _ _ _ _ P K ND) as (K' & ND' & Hp).
    destruct (IH _ _ _ E K' ND') as (NDc & H).
    split; [exact NDc|]. intros c Hc.
    destruct (H c Hc) as [Hin | (q & mt & Hq & Ec & Hm)].
    + destruct (Hp c Hin) as [?|(mt & Hmt & Ec)]; [now left|].
      right. exists p, mt. split; [now left|]. split; [exact Ec|].
      exists (S (length content)), ms. split; assumption.
    + right. exists q, mt. split; [now right|]. split; assumption.
Qed.

(** What [extractClaims] returns.  The claims are pairwise distinct; each
    one has a non-empty text, which stands in the content at the claim's
    index; and one of the claim patterns, tried at that index of the
    content (with the character that stands before it there), matches
    exactly that text: the match that the pattern prefers at that index
    ends where the text ends. *)
Theorem extracted_claims_located :
  forall (content : jstring) (claims : list Claim),
    extractClaims content = Some claims ->
    NoDup claims /\
    forall c, In c claims ->
      ctext c <> [] /\
      exists a b : jstring,
        content = a ++ ctext c ++ b /\
        cindex c = Z.of_nat (length a) /\
        exists p l,
          In p CLAIM_PATTERNS /\
          run (globalPattern p) (lastUnit None a, ctext c ++ b)
          = (lastUnit None (a ++ ctext c), b) :: l.
Proof.
  intros content claims E.
  destruct (@extractLoop_located content CLAIM_PATTERNS [] [] claims E
              eq_refl (NoDup_nil _)) as (ND & H).
  split; [exact ND|]. intros c Hc.
  destruct (H c Hc) as [[] | (p & mt & Hp & -> & fuel & ms & L & Hmt)].
  destruct (execLoop_located _ _ _ _ _ L mt Hmt)
    as (NE & a & b & l & Ec & Hi & Hr).
  cbn [ctext cindex]. split; [exact NE|].
  exists a, b. split; [exact Ec|]. split; [rewrite Hi; lia|].
  exists p, l. split; assumption.
Qed.

Lemma extracted_claims_located_witness :
  let content := js "Growth was 45%, then 10x, not 45%." in
  NoDup [mkClaim (js "45%") 11; mkClaim (js "45%") 30;
         mkClaim (js "10x") 21] /\
  (js "10x" <> [] /\
   exists a b : jstring,
     content = a ++ js "10x" ++ b /\
     21%Z = Z.of_nat (length a) /\
     exists p l,
       In p CLAIM_PATTERNS /\
       run (globalPattern p) (lastUnit None a, js "10x" ++ b)
       = (lastUnit None (a ++ js "10x"), b) :: l).
Proof.
  intros content.
  assert (E : extractClaims content
              = Some [mkClaim (js "45%") 11; mkClaim (js "45%") 30;
                      mkClaim (js "10x") 21]) by (vm_compute; reflexivity).
  destruct (@extracted_claims_located content _ E) as (ND & H).
  split; [exact ND|].
  apply (H (mkClaim (js "10x") 21)). right. right. left. reflexivity.
Defined.

(** The search stops at the first position where the pattern matches: it
    matches at no earlier one. *)
Lemma search_leftmost (re : RegExp.t) :
  forall (rest : jstring) pv i mt e,
    search re pv rest i = Some (mt, e) ->
    exists (a : jstring) pv',
      rest = a ++ text mt ++ snd e /\
      In e (run re (pv', text mt ++ snd e)) /\
      index mt = (i + Z.of_nat (length a))%Z /\
      forall (a1 : jstring) c (a2 : jstring), a = a1 ++ c :: a2 ->
        exists pv'', run re (pv'', c :: a2 ++ text mt ++ snd e) = [].
Proof.
  assert (Hit : forall (rest : jstring) pv i e0 l,
    run re (pv, rest) = e0 :: l ->
    exists (a : jstring) pv',
      rest = a ++ consumed rest e0 ++ snd e0 /\
      In e0 (run re (pv', consumed rest e0 ++ snd e0)) /\
      i = (i + Z.of_nat (length a))%Z /\
      forall (a1 : jstring) c (a2 : jstring), a = a1 ++ c :: a2 ->
        exists pv'',
          run re (pv'', c :: a2 ++ consumed rest e0 ++ snd e0) = []).
  { intros rest pv i e0 l R.
    assert (He : In e0 (e0 :: l)) by now left.
    rewrite <- R in He.
    destruct (m_suffix _ _ _ _ _ He) as (w & Ew). cbn [snd] in Ew.
    exists [], pv. rewrite Ew at 1 2 3. rewrite consumed_app.
    rewrite <- Ew. split; [reflexivity|]. split; [assumption|].
    split; [simpl; lia|]. intros [|? ?] c a2 E; discriminate E. }
  induction rest as [|c rest IH]; intros pv i mt e H; cbn [search] in H.
  - destruct (run re _) as [|e0 l] eqn:R in H; [discriminate|].
    injection H as <- <-. cbn [text index]. eapply Hit, R.
  - destruct (run re _) as [|e0 l] eqn:R in H.
    + apply IH in H as (a & pv' & E & Hin & Hi & Hl).
      exists (c :: a), pv'. split; [simpl; now rewrite <- E|].
      split; [assumption|]. split; [rewrite Hi; simpl length; lia|].
      intros [|c1 a1] c' a2 Ea; cbn [app] in Ea; injection Ea as -> ->.
      * exists pv. rewrite <- E. exact R.
      * now apply (Hl a1 c' a2).
    + injection H as <- <-. cbn [text index]. eapply Hit, R.
Qed.

Lemma app_overlap (a a' x y : jstring) :
  a ++ x = a' ++ y -> length a' < length a ->
  exists c a2, a = a' ++ c :: a2 /\ y = c :: a2 ++ x.
Proof.
  revert a. induction a' as [|d a' IH]; intros [|c a] E L;
    cbn [length] in L; try lia.
  - exists c, a. split; [reflexivity|]. symmetry. exact E.
  - cbn [app] in E. injection E as -> E.
    destruct (IH a E) as (c' & a2 & -> & ->); [lia|].
    now exists c', a2.
Qed.

Lemma runCycle4_pass1 (content filePath : jstring) (config : option Config)
    (msg : jstring) :
  runCycle4 (Str content) filePath config
  = Some [mkViolation (js "no-vague-claims") 4 msg] ->
  exists mt, RegExp.exec VAGUE_PATTERN content = Some mt /\
    msg = ruleMessage 0 ++ [LF; LF] ++ js "Found: " ++ [DQUOTE]
            ++ text mt ++ [DQUOTE].
Proof.
  assert (N2 : js "no-unverified-claims" <> js "no-vague-claims")
    by (apply ids_differ; vm_compute; reflexivity).
  assert (N3 : js "no-unsourced-claims" <> js "no-vague-claims")
    by (apply ids_differ; vm_compute; reflexivity).
  assert (Inv : forall rid m,
    Some [mkViolation rid 4 m]
    = Some [mkViolation (js "no-vague-claims") 4 msg] ->
    rid = js "no-vague-claims" /\ m = msg).
  { intros rid m H. injection H as -> ->. split; reflexivity. }
  assert (Pass2 : forall claims : option (list Claim),
    match claims with
    | None => None
    | Some [] => Some []
    | Some ((_ :: _) as claims) =>
        let hasVerificationTag := includes content VERIFICATION_TAG in
        if negb hasVerificationTag
           && negb (arrayIncludes (disabledOf4 config)
                      (js "no-unverified-claims"))
        then
          Some [mkViolation (js "no-unverified-claims") 4
                  (ruleMessage 1 ++ [LF; LF] ++ js "Found "
                     ++ numberToString (length claims)
                     ++ js " claim(s) without verification tag.")]
        else if hasVerificationTag
                && negb (arrayIncludes (disabledOf4 config)
                           (js "no-unsourced-claims"))
        then
          let unsourced :=
            filter (fun claim =>
                      negb (hasNearbySource content (cindex claim)))
                   claims in
          match unsourced with
          | [] => Some []
          | _ :: _ =>
              Some [mkViolation (js "no-unsourced-claims") 4
                      (ruleMessage 2 ++ [LF; LF] ++ js "Found "
                         ++ numberToString (length unsourced)
                         ++ js " unsourced claim(s).")]
          end
        else Some []
    end <> Some [mkViolation (js "no-vague-claims") 4 msg]).
  { intros [[|cl claims]|]; try discriminate. cbv zeta.
    destruct (negb (includes content VERIFICATION_TAG)
              && negb (arrayIncludes (disabledOf4 config)
                         (js "no-unverified-claims"))).
    - intros H. apply Inv in H as (H & _). exact (N2 H).
    - destruct (includes content VERIFICATION_TAG
                && negb (arrayIncludes (disabledOf4 config)
                           (js "no-unsourced-claims"))); [|discriminate].
      destruct (filter _ (cl :: claims)); [discriminate|].
      intros H. apply Inv in H as (H & _). exact (N3 H). }
  unfold runCycle4. destruct content as [|c0 s]; [discriminate|].
  match goal with
  | |- context [match (if ?b then None else ?e) with _ => _ end] =>
      destruct (if b then None else e) as [mt|] eqn:P1
  end.
  - intros H. apply Inv in H as (_ & <-). exists mt. split; [|reflexivity].
    destruct (arrayIncludes (disabledOf4 config) (js "no-vague-claims"));
      [discriminate P1 | exact P1].
  - intros H. elim (Pass2 (extractClaims (c0 :: s))). exact H.
Qed.

(** What pass 1 reports.  When [runCycle4] returns the no-vague-claims
    violation, its message quotes a stretch of the document that is one of
    the vague phrases, up to letter case and white space, and no vague
    phrase starts earlier in the document. *)
Theorem vague_finding_quotes_first_phrase :
  forall (content filePath : jstring) (config : option Config)
         (msg : jstring),
    runCycle4 (Str content) filePath config
    = Some [mkViolation (js "no-vague-claims") 4 msg] ->
    exists (a found b : jstring) phrase,
      content = a ++ found ++ b /\
      In phrase VAGUE_PHRASES /\ flexMatch (js phrase) found /\
      msg = ruleMessage 0 ++ [LF; LF] ++ js "Found: " ++ [DQUOTE]
              ++ found ++ [DQUOTE] /\
      forall (a' w' b' : jstring) phrase',
        content = a' ++ w' ++ b' -> In phrase' VAGUE_PHRASES ->
        flexMatch (js phrase') w' -> length a <= length a'.
Proof.
  intros content filePath config msg H.
  apply runCycle4_pass1 in H as (mt & E & ->).
  unfold exec in E.
  destruct (search VAGUE_PATTERN None content 0) as [[mt' e]|] eqn:S;
    [|discriminate E].
  cbn [option_map fst] in E. injection E as ->.
  apply search_leftmost in S as (a & pv' & Ec & Hin & _ & Hl).
  destruct (@m_sound (ignoreCase VAGUE_PATTERN) (multiline VAGUE_PATTERN)
              (source VAGUE_PATTERN) vague_pattern_pure
              (pv', text mt ++ snd e) e Hin) as (w & Ew & L).
  cbn [snd] in Ew. apply app_inv_tail in Ew. subst w.
  apply Lang_alts_inv in L as (r & Hr & Lr); [|discriminate].
  apply in_map_iff in Hr as (phrase & <- & Hp).
  exists a, (text mt), (snd e), phrase.
  split; [exact Ec|]. split; [exact Hp|].
  split; [eapply Lang_flexMatch; [apply Nat.le_refl | exact Lr]|].
  split; [reflexivity|].
  intros a' w' b' phrase' Ec' Hp' F.
  destruct (Nat.le_gt_cases (length a) (length a')) as [?|Lt];
    [assumption|exfalso].
  rewrite Ec in Ec'.
  destruct (app_overlap _ _ _ _ Ec' Lt) as (c & a2 & Ea & Ew).
  destruct (Hl a' c a2 Ea) as (pv'' & R).
  assert (L' : Lang (ignoreCase VAGUE_PATTERN) (source VAGUE_PATTERN) w').
  { apply (@Lang_alts true (map phrasePattern VAGUE_PHRASES)
             (phrasePattern phrase')).
    - now apply in_map.
    - now apply flexMatch_Lang. }
  destruct (@m_complete (ignoreCase VAGUE_PATTERN) (multiline VAGUE_PATTERN)
              _ _ L' pv'' b') as (pv3 & Hin').
  change (m (ignoreCase VAGUE_PATTERN) (multiline VAGUE_PATTERN)
            (source VAGUE_PATTERN)) with (run VAGUE_PATTERN) in Hin'.
  rewrite Ew in Hin'. cbn [app] in Hin'. rewrite R in Hin'. destruct Hin'.
Qed.

Lemma vague_finding_quotes_first_phrase_witness :
  exists (a found b : jstring) phrase,
    js "Experts  SAY that studies show it." = a ++ found ++ b /\
    In phrase VAGUE_PHRASES /\ flexMatch (js phrase) found.
Proof.
  destruct (@vague_finding_quotes_first_phrase
              (js "Experts  SAY that studies show it.")
              (js "research/report.md") None
              (ruleMessage 0 ++ [LF; LF] ++ js "Found: " ++ [DQUOTE]
                 ++ js "Experts  SAY" ++ [DQUOTE]))
    as (a & found & b & phrase & E & Hp & F & _).
  - vm_compute. reflexivity.
  - exists a, found, b, phrase. split; [exact E|]. split; assumption.
Defined.

(* ================================================================== *)
(** ** Further properties of the path utilities *)
(* ================================================================== *)

Lemma lastIndexFrom_app (c : N) (a b : jstring) :
  forall i acc,
    lastIndexFrom c (a ++ b) i acc
    = lastIndexFrom c b (i + Z.of_nat (length a)) (lastIndexFrom c a i acc).
Proof.
  induction a as [|x a IH]; intros i acc.
  - cbn [app length lastIndexFrom]. now rewrite Z.add_0_r.
  - cbn [app lastIndexFrom]. rewrite IH. f_equal. simpl length. lia.
Qed.

Lemma lastIndexFrom_absent (c : N) (s : jstring) :
  ~ In c s -> forall i acc, lastIndexFrom c s i acc = acc.
Proof.
  induction s as [|x s IH]; intros H i acc; [reflexivity|].
  cbn [lastIndexFrom]. destruct (N.eqb_spec x c) as [->|_].
  - elim H. now left.
  - apply IH. intros Hin. apply H. now right.
Qed.

Lemma sliceFrom_skipn (s : jstring) (k : nat) :
  k <= length s -> sliceFrom s (Z.of_nat k) = skipn k s.
Proof.
  intros L. unfold sliceFrom, slice, relIndex.
  destruct (Z.ltb_spec (Z.of_nat k) 0); [lia|].
  destruct (Z.ltb_spec (Z.of_nat (length s)) 0); [lia|].
  rewrite Z.min_id, Z.min_l by lia. rewrite Nat2Z.id.
  apply firstn_all2. rewrite length_skipn. lia.
Qed.

Lemma getFileExtension_last_dot (stem ext : jstring) :
  ~ In DOT ext ->
  getFileExtension (Str (stem ++ DOT :: ext))
  = match ext with
    | [] => []
    | _ :: _ => DOT :: toLowerCase ext
    end.
Proof.
  intros H. rewrite getFileExtension_unfold. unfold lastIndexOf.
  rewrite lastIndexFrom_app. cbn [lastIndexFrom]. rewrite N.eqb_refl.
  rewrite lastIndexFrom_absent by assumption. rewrite Z.add_0_l.
  destruct (Z.eqb_spec (Z.of_nat (length stem)) (-1)); [lia|].
  cbn [orb]. rewrite length_app. cbn [length].
  destruct ext as [|c ext];
    match goal with
    | |- context [Z.eqb ?x ?y] => destruct (Z.eqb_spec x y) as [e|e]
    end; cbn [length] in e; try lia; [reflexivity|].
  rewrite sliceFrom_skipn by (rewrite length_app; lia).
  rewrite skipn_app, skipn_all, Nat.sub_diag. reflexivity.
Qed.



Lemma endsWith_app (s p : jstring) :
  endsWith s p = true -> exists stem, s = stem ++ p.
Proof.
  unfold endsWith. intros H. apply andb_true_iff in H as (_ & E).
  apply eqb_eq in E. exists (firstn (length s - length p) s).
  rewrite <- E at 2. symmetry. apply firstn_skipn.
Qed.

Lemma lowerAt_lowerOf (before : bool) (c : N) (rest : jstring) :
  lowerOf c (lowerAt before c rest).
Proof.
  unfold lowerOf, lowerAt. destruct (N.eqb_spec c SIGMA) as [->|NE].
  - left. split; [reflexivity|].
    destruct (before && negb (followedByCased rest)); auto.
  - right. now split.
Qed.

(** The last three code units of a normalized path come from the last
    three of the path. *)
Lemma normalized_suffix_3 (t : jstring) (x y z : N) :
  forall (p : jstring) before,
    lowerFrom before (replaceBackslashes p) = t ++ [x; y; z] ->
    exists l' a b c,
      p = l' ++ [a; b; c] /\
      lowerOf (if (a =? BACKSLASH)%N then SLASH else a) x /\
      lowerOf (if (b =? BACKSLASH)%N then SLASH else b) y /\
      lowerOf (if (c =? BACKSLASH)%N then SLASH else c) z.
Proof.
  induction t as [|u t IH]; intros p before E.
  - destruct p as [|a [|b [|c [|d p]]]]; try discriminate E.
    cbn [replaceBackslashes map lowerFrom app] in E.
    injection E as <- <- <-. exists [], a, b, c.
    split; [reflexivity|]. repeat split; apply lowerAt_lowerOf.
  - destruct p as [|a p]; [discriminate E|].
    change (replaceBackslashes (a :: p))
      with ((if (a =? BACKSLASH)%N then SLASH else a)
            :: replaceBackslashes p) in E.
    cbn [lowerFrom app] in E. injection E as _ E.
    destruct (IH p _ E) as (l' & b & c & d & -> & H).
    now exists (a :: l'), b, c, d.
Qed.

Lemma normalized_unit_inv (c : N) :
  let n := lowerUnit (if (c =? BACKSLASH)%N then SLASH else c) in
  (n = DOT -> c = DOT) /\
  (n = 109%N -> lowerUnit c = 109%N /\ c <> DOT) /\
  (n = 100%N -> lowerUnit c = 100%N /\ c <> DOT).
Proof.
  unfold lowerUnit, isUpperAscii, inRange, BACKSLASH, SLASH, DOT.
  destruct (N.eqb_spec c 92) as [->|Nc]; cbn zeta.
  - cbn. repeat split; intros; discriminate || lia.
  - destruct (N.leb_spec 65 c); destruct (N.leb_spec c 90); cbn [andb];
      repeat split; intros; lia.
Qed.

Lemma lowerOf_unit_inv (c r : N) :
  lowerOf (if (c =? BACKSLASH)%N then SLASH else c) r ->
  (r = DOT -> c = DOT) /\
  (r = 109%N -> lowerUnit c = 109%N /\ c <> DOT /\ c <> SIGMA) /\
  (r = 100%N -> lowerUnit c = 100%N /\ c <> DOT /\ c <> SIGMA).
Proof.
  intros [(_ & [-> | ->]) | (_ & ->)].
  - repeat split; discriminate.
  - repeat split; discriminate.
  - destruct (normalized_unit_inv c) as (H1 & H2 & H3). cbv zeta in *.
    split; [exact H1|]. split; intros E.
    + destruct (H2 E) as (L & D). split; [exact L|]. split; [exact D|].
      intros ->. discriminate L.
    + destruct (H3 E) as (L & D). split; [exact L|]. split; [exact D|].
      intros ->. discriminate L.
Qed.

(** A research file is a markdown file for the rule engine too: whenever
    [isResearchFile] accepts a path, its extension is .md, in lower case
    whatever the case of the path. *)
Theorem research_files_are_markdown :
  forall filePath : value,
    isResearchFile filePath = true ->
    getFileExtension filePath = js ".md".
Proof.
  intros [| |p] H; try discriminate H.
  destruct p as [|c0 p]; [discriminate H|].
  unfold isResearchFile in H.
  destruct (endsWith (toLowerCase (replaceBackslashes (c0 :: p))) (js ".md"))
    eqn:E; [|discriminate H]. clear H.
  apply endsWith_app in E as (stem & E).
  change (js ".md") with [DOT; 109%N; 100%N] in E.
  apply normalized_suffix_3 in E as (l' & a & b & c & -> & Ha & Hb & Hc).
  apply lowerOf_unit_inv in Ha as (Ha & _). specialize (Ha eq_refl).
  subst a.
  apply lowerOf_unit_inv in Hb as (_ & Hb & _).
  destruct (Hb eq_refl) as (Lb & Nb & Sb).
  apply lowerOf_unit_inv in Hc as (_ & _ & Hc).
  destruct (Hc eq_refl) as (Lc & Nc & Sc).
  assert (ND : ~ In DOT [b; c]).
  { intros [E1 | [E1 | []]]; [apply Nb | apply Nc]; exact E1. }
  assert (NS : ~ In SIGMA [b; c]).
  { intros [E1 | [E1 | []]]; [apply Sb | apply Sc]; exact E1. }
  rewrite (@getFileExtension_last_dot l' [b; c] ND).
  rewrite (toLowerCase_no_sigma [b; c] NS). cbn [map]. now rewrite Lb, Lc.
Qed.

Lemma research_files_are_markdown_witness :
  getFileExtension (Str (js "Docs\Research\Q4.MD")) = js ".md".
Proof.
  apply research_files_are_markdown. vm_compute. reflexivity.
Defined.

(* ================================================================== *)
(** ** The web context *)
(* ================================================================== *)

Lemma search_finds_any (re : RegExp.t) (t : jstring) :
  (forall pv, run re (pv, t) <> []) ->
  forall (a : jstring) pv i, exists x, search re pv (a ++ t) i = Some x.
Proof.
  intros H. induction a as [|c a IH]; intros pv i.
  - cbn [app]. specialize (H pv).
    destruct (run re (pv, t)) as [|e l] eqn:R; [now elim H|].
    eapply (@search_hit re t pv i e). rewrite R. now left.
  - cbn [app search]. destruct (run re _) as [|e l]; [apply IH | now eexists].
Qed.

Lemma Lang_literal (p w : jstring) :
  Lang false (fold_right (fun c r => Seq (chr c) r) Eps p) w <-> w = p.
Proof.
  revert w. induction p as [|c p IH]; intros w; cbn [fold_right].
  - split; [inversion 1; reflexivity | intros ->; constructor].
  - split.
    + intros L. apply Lang_Seq_inv in L as (w1 & w2 & -> & L1 & L2).
      apply Lang_Cls_inv in L1 as (d & -> & C). apply IH in L2 as ->.
      unfold clsMatch in C. cbn [existsb itemMatch xorb] in C.
      rewrite orb_false_r in C. apply N.eqb_eq in C.
      unfold canonicalize in C. cbn [andb] in C. now subst d.
    + intros ->. change (c :: p) with ([c] ++ p). constructor.
      * constructor. unfold clsMatch. cbn [existsb itemMatch xorb].
        now rewrite N.eqb_refl.
      * now apply IH.
Qed.

(** The pattern of no-insecure-url matches the texts that hold http://
    followed by none of the local hosts. *)
Lemma insecure_url_test (s : jstring) :
  RegExp.test (pattern ruleNoInsecureUrl) s = true <-> insecureUrl s.
Proof.
  set (A := alts (map lit localHosts)).
  assert (Step : forall st e,
    In e (run (pattern ruleNoInsecureUrl) st) <->
    In e (m false false (lit "http://") st) /\ m false false A e = []).
  { intros st e.
    change (run (pattern ruleNoInsecureUrl) st)
      with (flat_map (fun st1 =>
                        flat_map (fun st2 => [st2])
                          (match m false false A st1 with
                           | [] => [st1]
                           | _ :: _ => []
                           end)) (m false false (lit "http://") st)).
    rewrite in_flat_map. split.
    - intros (st1 & H1 & H2).
      destruct (m false false A st1) eqn:MA; [|destruct H2].
      destruct H2 as [<- | []]. now split.
    - intros (H1 & H2). exists e. split; [assumption|]. rewrite H2.
      now left. }
  assert (Ahead : forall pv b,
    m false false A (pv, b) = [] <->
    forall h, In h localHosts -> startsWith (js h) b = false).
  { intros pv b. split.
    - intros MA h Hh. destruct (startsWith (js h) b) eqn:SW; [|reflexivity].
      apply startsWith_prefix in SW as (t & ->).
      assert (L : Lang false A (js h)).
      { apply (@Lang_alts false (map lit localHosts) (lit h)).
        - now apply in_map.
        - now apply Lang_literal. }
      destruct (@m_complete false false _ _ L pv t) as (pv' & Hin).
      assert (F : @In state (pv', t) []) by (rewrite <- MA; exact Hin).
      destruct F.
    - intros H. destruct (m false false A (pv, b)) as [|e l] eqn:MA;
        [reflexivity|exfalso].
      assert (Hin : In e (m false false A (pv, b))) by (rewrite MA; now left).
      destruct (@m_sound false false A eq_refl _ _ Hin) as (w & Ew & L).
      cbn [snd] in Ew.
      apply Lang_alts_inv in L as (r & Hr & Lr); [|discriminate].
      apply in_map_iff in Hr as (h & <- & Hh).
      apply Lang_literal in Lr. subst w.
      assert (SW : startsWith (js h) b = true)
        by (apply startsWith_prefix; now exists (snd e)).
      rewrite (H h Hh) in SW. discriminate SW. }
  unfold RegExp.test, exec. split.
  - destruct (search _ None s 0) as [[mt e]|] eqn:S; [|discriminate].
    intros _. apply search_some in S as (a & pv' & E & Hin & _).
    apply Step in Hin as (H1 & H2).
    destruct (@m_sound false false (lit "http://") eq_refl _ _ H1)
      as (w & Ew & L).
    cbn [snd] in Ew. apply app_inv_tail in Ew.
    apply Lang_literal in L. destruct e as [pv b]. cbn [snd] in E.
    exists a, b. split; [now rewrite E, Ew, L|].
    now apply (Ahead pv).
  - intros (a & b & -> & H).
    destruct (@search_finds_any (pattern ruleNoInsecureUrl)
                (js "http://" ++ b)) with (a := a) (pv := @None N) (i := 0%Z)
      as (x & ->); [|reflexivity].
    intros pv.
    assert (L : Lang false (lit "http://") (js "http://"))
      by now apply Lang_literal.
    destruct (@m_complete false false _ _ L pv b) as (pv' & Hin).
    assert (Hr : In (pv', b) (run (pattern ruleNoInsecureUrl)
                                (pv, js "http://" ++ b))).
    { apply Step. split; [exact Hin|]. now apply Ahead. }
    intros R. assert (F : @In state (pv', b) []) by (rewrite <- R; exact Hr).
    destruct F.
Qed.

Lemma web_rules :
  cycle2Rules = removelast cycle2Rules ++ [ruleNoInsecureUrl] /\
  forallb (fun r => negb (JS.eqb (appliesTo r) (js "all"))
                    && negb (JS.eqb (appliesTo r) (js "web")))
    (removelast cycle2Rules) = true /\
  appliesTo ruleNoInsecureUrl = js "web" /\
  fileExtensions ruleNoInsecureUrl = None /\
  id ruleNoInsecureUrl = js "no-insecure-url".
Proof. vm_compute. repeat split. Qed.

(** In the web context cycle 2 is its last rule alone. *)
Lemma runCycle2_web (content : value) (fileExt : jstring) (config : Config) :
  runCycle2 content fileExt (js "web") config
  = contribution CYCLE2_RULES content fileExt (js "web") (disabledOf config)
      ruleNoInsecureUrl.
Proof.
  destruct web_rules as (E & F & _).
  unfold runCycle2. rewrite runRules_flat_map.
  change (elements CYCLE2_RULES) with cycle2Rules. rewrite E at 1.
  rewrite flat_map_app. cbn [flat_map]. rewrite app_nil_r.
  rewrite flat_map_all_nil; [reflexivity|].
  intros rule Hr. rewrite forallb_forall in F. specialize (F rule Hr).
  unfold contribution, ruleStep. rewrite F.
  destruct (arrayIncludes (disabledOf config) (id rule)); reflexivity.
Qed.

Lemma contribution_web (s : jstring) (disabled : list jstring) :
  contribution CYCLE2_RULES (Str s) [] (js "web") disabled ruleNoInsecureUrl
  = if arrayIncludes disabled (js "no-insecure-url") then []
    else if RegExp.test (pattern ruleNoInsecureUrl) s
         then [mkViolation (js "no-insecure-url") 2
                 (message ruleNoInsecureUrl)]
         else [].
Proof.
  destruct web_rules as (_ & _ & Ea & Ef & Ei).
  unfold contribution, ruleStep. rewrite Ea, Ef, Ei. cbn [toString].
  rewrite eqb_refl. cbn [negb]. rewrite andb_false_r.
  destruct (arrayIncludes disabled (js "no-insecure-url")); [reflexivity|].
  destruct (RegExp.test (pattern ruleNoInsecureUrl) s); reflexivity.
Qed.

Lemma web_extraction (input : HookInput) :
  toLowerCase (toolNameOf input) = js "webfetch"
  \/ toLowerCase (toolNameOf input) = js "websearch" ->
  extractContent (toolNameOf input) (toolInputOf input)
  = mkExtracted
      (match getField (toolInputOf input) "url" with
       | [] => getField (toolInputOf input) "query"
       | u => u
       end) (js "web") [] [].
Proof.
  assert (F : JS.eqb (js "webfetch") (js "write") = false /\
              JS.eqb (js "webfetch") (js "edit") = false /\
              JS.eqb (js "webfetch") (js "bash") = false /\
              JS.eqb (js "websearch") (js "write") = false /\
              JS.eqb (js "websearch") (js "edit") = false /\
              JS.eqb (js "websearch") (js "bash") = false)
    by (vm_compute; repeat split).
  destruct F as (F1 & F2 & F3 & F4 & F5 & F6).
  unfold extractContent. intros [-> | ->].
  - rewrite F1, F2, F3, eqb_refl. reflexivity.
  - rewrite F4, F5, F6, eqb_refl. cbn [orb]. rewrite orb_true_r.
    reflexivity.
Qed.

(** The web tools.  For WebFetch and WebSearch whose url and query are
    strings or absent, the gate looks at the url, or at the query when
    there is no url or an empty one, and at one rule only: it blocks, with
    the single violation no-insecure-url, exactly when that text holds
    http:// followed by none of localhost, 127.0.0.1, 0.0.0.0 and [::1] and
    the rule is not disabled; otherwise it approves. *)
Theorem web_gate :
  forall (config : Config) (input : HookInput),
    toLowerCase (toolNameOf input) = js "webfetch"
    \/ toLowerCase (toolNameOf input) = js "websearch" ->
    stringField (toolInputOf input) "url" = true ->
    stringField (toolInputOf input) "query" = true ->
    let target :=
      match getField (toolInputOf input) "url" with
      | [] => getField (toolInputOf input) "query"
      | u => u
      end in
    (insecureUrl target ->
     ~ In (js "no-insecure-url") (disabledOf config) ->
     gateViolations config (Some input)
     = Some [mkViolation (js "no-insecure-url") 2
               (message ruleNoInsecureUrl)]) /\
    (~ insecureUrl target \/ In (js "no-insecure-url") (disabledOf config) ->
     gate config (Some input) = Some Approve).
Proof.
  intros config input H _ _ target.
  assert (G : gateViolations config (Some input)
              = Some (if arrayIncludes (disabledOf config)
                           (js "no-insecure-url") then []
                      else if RegExp.test (pattern ruleNoInsecureUrl) target
                           then [mkViolation (js "no-insecure-url") 2
                                   (message ruleNoInsecureUrl)]
                           else [])).
  { unfold gateViolations. rewrite (web_extraction input H). fold target.
    cbn [content].
    destruct target as [|c0 t] eqn:T.
    - destruct (arrayIncludes _ _); [reflexivity|].
      destruct (RegExp.test (pattern ruleNoInsecureUrl) []) eqn:X;
        [|reflexivity].
      apply insecure_url_test in X as (a & b & E & _).
      destruct a; discriminate E.
    - unfold allViolations. cbn [filePath content fileExt context].
      change (isResearchFile (Str [])) with false. cbn [andb].
      destruct (cycles_outside_context (Str (c0 :: t)) [] (js "web") config)
        as (C1 & _).
      rewrite C1 by (apply eqb_neq; vm_compute; reflexivity).
      rewrite runCycle2_web, contribution_web. reflexivity. }
  split.
  - intros I D. rewrite G. apply arrayIncludes_not_In in D. rewrite D.
    apply insecure_url_test in I. now rewrite I.
  - intros [NI | D]; unfold gate; rewrite G.
    + destruct (arrayIncludes _ _); [reflexivity|].
      destruct (RegExp.test (pattern ruleNoInsecureUrl) target) eqn:X;
        [|reflexivity].
      elim NI. now apply insecure_url_test.
    + apply arrayIncludes_In in D. now rewrite D.
Qed.

Lemma web_gate_witness :
  gate emptyConfig
    (Some (mkHookInput (Some (js "WebFetch"))
             (Some [(js "url", FStr (js "see http://localhost:3000/api"))])))
  = Some Approve.
Proof.
  apply web_gate.
  - left. vm_compute. reflexivity.
  - reflexivity.
  - reflexivity.
  - left. intros I. apply insecure_url_test in I. vm_compute in I.
    discriminate I.
Defined.

(* ================================================================== *)
(** ** The bash context *)
(* ================================================================== *)

Lemma bash_rules :
  forallb (fun r => negb (JS.eqb (appliesTo r) (js "all")
                          || JS.eqb (appliesTo r) (js "bash"))
                    || arrayIncludes [js "no-rm-rf"; js "no-chmod-777";
                                      js "no-curl-pipe-sh"] (id r))
    cycle2Rules = true.
Proof. vm_compute. reflexivity. Qed.

Lemma bash_extraction (input : HookInput) :
  toLowerCase (toolNameOf input) = js "bash" ->
  extractContent (toolNameOf input) (toolInputOf input)
  = mkExtracted (getField (toolInputOf input) "command") (js "bash") [] [].
Proof.
  assert (F : JS.eqb (js "bash") (js "write") = false /\
              JS.eqb (js "bash") (js "edit") = false)
    by (vm_compute; split; reflexivity).
  destruct F as (F1 & F2).
  unfold extractContent. intros ->. now rewrite F1, F2, eqb_refl.
Qed.

Lemma runCycle2_inv content fileExt context config v :
  In v (runCycle2 content fileExt context config) ->
  exists rule, In rule cycle2Rules /\
    In v (contribution CYCLE2_RULES content fileExt context
            (disabledOf config) rule).
Proof. unfold runCycle2. apply runRules_inv. Qed.

(** The Bash tool.  Of a tool input whose command is a string or absent
    the gate reads the command and nothing else: a file_path in the tool
    input is not looked at, so a command is never sent to the research
    verifier, and no code-quality rule sees it.  Its violations are those
    of cycle 2 in the bash context, which come from the three shell rules
    only. *)
Theorem bash_gate :
  forall (config : Config) (input : HookInput),
    toLowerCase (toolNameOf input) = js "bash" ->
    stringField (toolInputOf input) "command" = true ->
    let command := getField (toolInputOf input) "command" in
    gateViolations config (Some input)
    = Some (runCycle2 (Str command) [] (js "bash") config) /\
    forall v, In v (runCycle2 (Str command) [] (js "bash") config) ->
      cycle v = 2%N /\
      In (ruleId v) [js "no-rm-rf"; js "no-chmod-777"; js "no-curl-pipe-sh"].
Proof.
  intros config input H _ command. split.
  - unfold gateViolations. rewrite (bash_extraction input H). fold command.
    cbn [content]. destruct command as [|c0 t] eqn:C.
    + f_equal. symmetry. unfold runCycle2. apply runRules_nil.
      intros rule Hr. apply (@blank_rules (Str []) rule).
      * right. exists []. split; [reflexivity | intros c []].
      * apply in_or_app. right. exact Hr.
    + unfold allViolations. cbn [filePath content fileExt context].
      change (isResearchFile (Str [])) with false. cbn [andb].
      destruct (cycles_outside_context (Str (c0 :: t)) [] (js "bash") config)
        as (C1 & _).
      rewrite C1 by (apply eqb_neq; vm_compute; reflexivity).
      cbn [app]. reflexivity.
  - intros v Hv. split; [exact (runCycle2_cycle _ _ _ _ _ Hv)|].
    apply runCycle2_inv in Hv as (rule & Hin & Hv).
    apply contribution_inv in Hv as (E & _ & _ & _ & A & _).
    pose proof bash_rules as F. rewrite forallb_forall in F.
    specialize (F rule Hin). rewrite E.
    apply orb_true_iff in F as [F | F].
    + apply negb_true_iff in F. apply orb_false_iff in F as (F1 & F2).
      exfalso. destruct A as [A | A];
        [exact (eq_true_false_abs _ A F1) | exact (eq_true_false_abs _ A F2)].
    + exact (proj1 (arrayIncludes_In _ _) F).
Qed.

Lemma bash_gate_witness :
  let input :=
    mkHookInput (Some (js "Bash"))
      (Some [(js "file_path", FStr (js "research/notes.md"));
             (js "command", FStr (js "echo studies show 45%"))]) in
  gateViolations emptyConfig (Some input)
  = Some (runCycle2 (Str (getField (toolInputOf input) "command")) []
            (js "bash") emptyConfig).
Proof.
  intros input.
  assert (H : toLowerCase (toolNameOf input) = js "bash")
    by (vm_compute; reflexivity).
  exact (proj1 (bash_gate emptyConfig input H eq_refl)).
Defined.

(* ================================================================== *)
(** ** Merging configurations *)
(* ================================================================== *)

Lemma get_set_same (fields : Fields) (k : jstring) (v : json) :
  get (set fields k v) k = Some v.
Proof.
  induction fields as [|[k0 x] fields IH]; cbn [set get].
  - now rewrite eqb_refl.
  - destruct (JS.eqb k0 k) eqn:E; cbn [get]; rewrite E;
      [reflexivity | exact IH].
Qed.

Lemma get_set_other (fields : Fields) (k k' : jstring) (v : json) :
  k <> k' -> get (set fields k v) k' = get fields k'.
Proof.
  intros NE. apply eqb_neq in NE.
  induction fields as [|[k0 x] fields IH]; cbn [set get].
  - now rewrite NE.
  - destruct (JS.eqb k0 k) eqn:E; cbn [get].
    + apply eqb_eq in E. subst k0. now rewrite NE.
    + now rewrite IH.
Qed.

Lemma get_absent (fields : Fields) (k : jstring) :
  ~ In k (map fst fields) -> get fields k = None.
Proof.
  induction fields as [|[k0 x] fields IH]; intros H; [reflexivity|].
  cbn [get]. destruct (JS.eqb k0 k) eqn:E.
  - apply eqb_eq in E. elim H. now left.
  - apply IH. intros Hin. apply H. now right.
Qed.

Lemma assign_stores (fields : Fields) (k : jstring) (v : json) :
  k <> js "__proto__" -> assign fields k v = Some (set fields k v).
Proof.
  intros NE. apply eqb_neq in NE. unfold assign. rewrite NE.
  now destruct (get fields k).
Qed.

(** The loop over the keys of the overriding object works key by key. *)
Lemma mergeKeys_get (dm : json -> json -> option json) (entries : Fields) :
  NoDup (map fst entries) ->
  ~ In (js "__proto__") (map fst entries) ->
  forall (fields r : Fields),
    mergeKeys dm fields entries = Some r ->
    forall k : jstring,
      match get entries k with
      | None => get r k = get fields k
      | Some ov =>
          exists value,
            mergeValue dm fields k ov = Some value /\ get r k = Some value
      end.
Proof.
  induction entries as [|[k0 ov0] entries IH]; intros ND NP fields r M k.
  - cbn [mergeKeys] in M. injection M as <-. reflexivity.
  - cbn [map fst] in ND, NP. apply NoDup_cons_iff in ND as (Nin & ND).
    assert (NP0 : k0 <> js "__proto__") by (intros E; apply NP; now left).
    assert (NP' : ~ In (js "__proto__") (map fst entries))
      by (intros Hin; apply NP; now right).
    cbn [mergeKeys] in M. unfold mergeStep in M.
    destruct (mergeValue dm fields k0 ov0) as [val0|] eqn:V0;
      [|discriminate M].
    rewrite (@assign_stores fields k0 val0 NP0) in M.
    specialize (IH ND NP' _ _ M k). cbn [get].
    destruct (JS.eqb k0 k) eqn:E.
    + apply eqb_eq in E. subst k0.
      rewrite (@get_absent entries k Nin) in IH.
      exists val0. split; [exact V0|]. rewrite IH. apply get_set_same.
    + apply eqb_neq in E.
      destruct (get entries k) as [ov|].
      * destruct IH as (value & V & G). exists value. split; [|exact G].
        unfold mergeValue in V |- *.
        now rewrite (@get_set_other fields k0 k val0 E) in V.
      * rewrite IH. now apply get_set_other.
Qed.

Lemma mergeKeys_total (dm : json -> json -> option json) (entries : Fields) :
  ~ In (js "__proto__") (map fst entries) ->
  (forall k ov, In (k, ov) entries -> isLeaf ov = false ->
     forall rv, exists r, dm rv ov = Some r) ->
  forall fields : Fields, exists r, mergeKeys dm fields entries = Some r.
Proof.
  induction entries as [|[k0 ov0] entries IH]; intros NP T fields.
  - now eexists.
  - cbn [map fst] in NP.
    assert (NP0 : k0 <> js "__proto__") by (intros E; apply NP; now left).
    cbn [mergeKeys]. unfold mergeStep.
    assert (V : exists val0, mergeValue dm fields k0 ov0 = Some val0).
    { unfold mergeValue.
      destruct ov0 as [| b | n | s0 | items | e'];
        try (eexists; reflexivity).
      destruct (get fields k0) as [[| b | n | s0 | items | bf]|];
        try (eexists; reflexivity).
      apply (T k0); [now left | reflexivity]. }
    destruct V as (val0 & ->). rewrite (@assign_stores fields k0 val0 NP0).
    apply IH.
    + intros Hin. apply NP. now right.
    + intros k ov Hin. apply (T k). now right.
Qed.

Lemma wellFormed_inv (entries : Fields) :
  wellFormed (JObj entries) = true ->
  NoDup (map fst entries) /\
  ~ In (js "__proto__") (map fst entries) /\
  (forall k v, In (k, v) entries -> wellFormed v = true) /\
  (forall k v, get entries k = Some v -> wellFormed v = true).
Proof.
  cbn [wellFormed]. intros H.
  apply andb_true_iff in H as (H & A). apply andb_true_iff in H as (ND & NP).
  split; [now apply nodupb_NoDup|].
  split; [now apply arrayIncludes_not_In, negb_true_iff|]. clear ND NP.
  split.
  - induction entries as [|[k0 x] entries IH]; intros k v G; [destruct G|].
    apply andb_true_iff in A as (Wx & A).
    destruct G as [G | G]; [injection G as _ <-; exact Wx | now apply (IH A k)].
  - induction entries as [|[k0 x] entries IH]; intros k v G;
      [discriminate G|].
    apply andb_true_iff in A as (Wx & A). cbn [get] in G.
    destruct (JS.eqb k0 k); [injection G as <-; exact Wx | now apply (IH A k)].
Qed.

(** Induction over the objects nested in a value. *)
Lemma json_objects_ind (P : json -> Prop) :
  (forall v, isLeaf v = true -> P v) ->
  (forall fields : Fields,
     (forall k v, In (k, v) fields -> P v) -> P (JObj fields)) ->
  forall v, P v.
Proof.
  intros HL HO. fix IH 1. intros [| b | n | s0 | items | fields];
    try (apply HL; reflexivity).
  apply HO. induction fields as [|[k0 v0] fields IHf]; intros k v G.
  - destruct G.
  - destruct G as [G | G].
    + injection G as _ <-. apply IH.
    + exact (IHf k v G).
Qed.

(** The merge with a well-formed overriding object changes no prototype:
    it gives a value, which is an object. *)
Lemma deepMerge_total (override : json) :
  isLeaf override = false ->
  wellFormed override = true ->
  forall base, exists fields, deepMerge base override = Some (JObj fields).
Proof.
  induction override as [v L | entries IH] using json_objects_ind.
  - intros NL. rewrite L in NL. discriminate NL.
  - intros _ W base.
    destruct (@wellFormed_inv entries W) as (_ & NP & Wsub & _).
    assert (T : forall F : Fields,
      exists r, mergeKeys deepMerge F entries = Some r).
    { apply mergeKeys_total; [exact NP|].
      intros k ov Hin NL rv.
      destruct (IH k ov Hin NL (Wsub k ov Hin) rv) as (r & ->).
      now eexists. }
    destruct base as [| b | n | s0 | items | bf]; cbn [deepMerge];
      try (eexists; reflexivity).
    + destruct (T (indexed items)) as (r & ->). now eexists.
    + destruct (T bf) as (r & ->). now eexists.
Qed.

(** A leaf of the overriding object is the value of the result at its
    path, whatever the base holds there. *)
Lemma deepMerge_leaf_path (path : list jstring) :
  forall (base : json) (entries : Fields) (v r : json),
    wellFormed (JObj entries) = true ->
    path <> [] ->
    getPath (JObj entries) path = Some v ->
    isLeaf v = true ->
    deepMerge base (JObj entries) = Some r ->
    getPath r path = Some v.
Proof.
  induction path as [|k rest IH]; intros base entries v r W NE G L M;
    [now elim NE|].
  destruct (@wellFormed_inv entries W) as (ND & NP & _ & Wsub).
  assert (Core : forall F r' : Fields,
    mergeKeys deepMerge F entries = Some r' ->
    getPath (JObj r') (k :: rest) = Some v).
  { intros F r' MK. cbn [getPath] in G |- *.
    pose proof (@mergeKeys_get deepMerge entries ND NP F r' MK k) as Hk.
    destruct (get entries k) as [ov|] eqn:Gk; [|discriminate G].
    destruct Hk as (value & V & ->). unfold mergeValue in V.
    destruct ov as [| b | n | s0 | items | e'];
      try (injection V as <-; exact G).
    destruct (get F k) as [[| b | n | s0 | items | bf]|];
      try (injection V as <-; exact G).
    destruct rest as [|k' rest'].
    - cbn [getPath] in G. injection G as <-. discriminate L.
    - apply (IH (JObj bf) e' v value);
        [exact (Wsub k _ Gk) | discriminate | exact G | exact L | exact V]. }
  destruct base as [| b | n | s0 | items | bf]; cbn [deepMerge] in M;
    try (injection M as <-; exact G).
  - destruct (mergeKeys deepMerge (indexed items) entries) as [r'|] eqn:MK;
      [|discriminate M].
    cbn [option_map] in M. injection M as <-. exact (Core _ _ MK).
  - destruct (mergeKeys deepMerge bf entries) as [r'|] eqn:MK;
      [|discriminate M].
    cbn [option_map] in M. injection M as <-. exact (Core _ _ MK).
Qed.

Lemma silent_none (path : list jstring) :
  forall v, silent v path = true -> getPath v path = None.
Proof.
  induction path as [|k rest IH]; intros v S; [discriminate S|].
  cbn [silent getPath] in *.
  destruct v as [| b | n | s0 | items | entries]; try discriminate S.
  destruct (get entries k) as [ov|]; [|reflexivity].
  destruct ov as [| b | n | s0 | items | e']; try discriminate S.
  now apply IH.
Qed.

(** Where the overriding object is silent, the result holds what the base
    holds. *)
Lemma deepMerge_silent_path (path : list jstring) :
  forall (fields entries : Fields) (r : json),
    wellFormed (JObj entries) = true ->
    silent (JObj entries) path = true ->
    deepMerge (JObj fields) (JObj entries) = Some r ->
    getPath r path = getPath (JObj fields) path.
Proof.
  induction path as [|k rest IH]; intros fields entries r W S M;
    [discriminate S|].
  destruct (@wellFormed_inv entries W) as (ND & NP & _ & Wsub).
  cbn [deepMerge] in M.
  destruct (mergeKeys deepMerge fields entries) as [r'|] eqn:MK;
    [|discriminate M].
  cbn [option_map] in M. injection M as <-. cbn [getPath].
  pose proof (@mergeKeys_get deepMerge entries ND NP fields r' MK k) as Hk.
  cbn [silent] in S.
  destruct (get entries k) as [ov|] eqn:Gk; [|now rewrite Hk].
  destruct Hk as (value & V & ->).
  destruct ov as [| b | n | s0 | items | e']; try discriminate S.
  unfold mergeValue in V.
  destruct (get fields k) as [bv|].
  - destruct bv as [| b | n | s0 | items | bf];
      try (injection V as <-; rewrite (@silent_none rest _ S);
           destruct rest; [discriminate S | reflexivity]).
    apply (IH bf e' value); [exact (Wsub k _ Gk) | exact S | exact V].
  - injection V as <-. now apply silent_none.
Qed.

(** The key __proto__ of an overriding object is not a setting: a number
    under it is dropped, an object under it becomes a prototype; it is
    stored where the base holds the key already. *)
Lemma deepMerge_proto_key :
  deepMerge (JObj []) (JObj [(js "__proto__", JNum 5)]) = Some (JObj []) /\
  deepMerge (JObj []) (JObj [(js "__proto__", JObj [])]) = None /\
  deepMerge (JObj [(js "__proto__", JNum 1)])
    (JObj [(js "__proto__", JNum 5)])
  = Some (JObj [(js "__proto__", JNum 5)]).
Proof. vm_compute. repeat split. Qed.

(** Deep merge, path by path, for an overriding object that holds no key
    twice and no key __proto__, at any depth below objects.  The merge
    gives a value.  A value of the overriding object that is not itself an
    object (a number, a string, a boolean, null or an array, which is
    replaced and not concatenated) is the value of the result at its path,
    at any depth and whatever the base holds there.  And where the
    overriding object is silent about a path (on the way down it holds
    objects only, until a key it does not have) at which the base object
    holds a value, the result holds that value. *)
Theorem deepMerge_by_path :
  forall (path : list jstring) (base : json) (fields entries : Fields)
         (v : json),
    wellFormed (JObj entries) = true ->
    (exists merged : Fields,
       deepMerge base (JObj entries) = Some (JObj merged) /\
       (path <> [] -> getPath (JObj entries) path = Some v ->
        isLeaf v = true ->
        getPath (JObj merged) path = Some v)) /\
    (exists merged : Fields,
       deepMerge (JObj fields) (JObj entries) = Some (JObj merged) /\
       (silent (JObj entries) path = true ->
        getPath (JObj fields) path = Some v ->
        getPath (JObj merged) path = Some v)).
Proof.
  intros path base fields entries v W. split.
  - destruct (@deepMerge_total (JObj entries) eq_refl W base) as (r & M).
    exists r. split; [exact M|]. intros NE G L.
    exact (@deepMerge_leaf_path path base entries v _ W NE G L M).
  - destruct (@deepMerge_total (JObj entries) eq_refl W (JObj fields))
      as (r & M).
    exists r. split; [exact M|]. intros S G.
    rewrite (@deepMerge_silent_path path fields entries _ W S M). exact G.
Qed.

Lemma deepMerge_by_path_witness :
  let fields :=
    [(js "disabledRules", JArr [JStr (js "no-todo")]);
     (js "cycle4", JObj [(js "enabled", JBool true);
                         (js "proximity", JNum 300)])] in
  let entries :=
    [(js "cycle4", JObj [(js "enabled", JBool false)]);
     (js "disabledRules", JArr [JStr (js "no-eval")])] in
  exists merged : Fields,
    deepMerge (JObj fields) (JObj entries) = Some (JObj merged) /\
    getPath (JObj merged) [js "cycle4"; js "enabled"] = Some (JBool false) /\
    getPath (JObj merged) [js "disabledRules"]
    = Some (JArr [JStr (js "no-eval")]) /\
    getPath (JObj merged) [js "cycle4"; js "proximity"] = Some (JNum 300).
Proof.
  intros fields entries.
  assert (W : wellFormed (JObj entries) = true) by (vm_compute; reflexivity).
  destruct (proj1 (@deepMerge_by_path [js "cycle4"; js "enabled"]
                     (JObj fields) fields entries (JBool false) W))
    as (merged & M & H1).
  destruct (proj1 (@deepMerge_by_path [js "disabledRules"]
                     (JObj fields) fields entries
                     (JArr [JStr (js "no-eval")]) W))
    as (merged2 & M2 & H2).
  destruct (proj2 (@deepMerge_by_path [js "cycle4"; js "proximity"]
                     (JObj fields) fields entries (JNum 300) W))
    as (merged3 & M3 & H3).
  exists merged. split; [exact M|].
  assert (E2 : merged2 = merged) by congruence.
  assert (E3 : merged3 = merged) by congruence.
  subst merged2 merged3. split; [|split].
  - apply H1; [discriminate | reflexivity | reflexivity].
  - apply H2; [discriminate | reflexivity | reflexivity].
  - apply H3; reflexivity.
Defined.

(** The merge chain, for a user file and a project file that hold objects
    without a key twice and without a key __proto__, at any depth below
    objects.  The configuration is loaded.  A leaf setting is read from the
    project file when that file gives it, and from the user file when the
    project file is silent about it; a setting that the defaults give is
    read from them when both files are silent about it.  A file that is
    missing or invalid counts as the empty object, which is silent about
    every setting. *)
Theorem loadConfig_precedence :
  forall (defaultsFile userFile projectFile : option json)
         (ue pe : Fields) (path : list jstring) (v : json),
    loadJSONFile userFile = JObj ue ->
    loadJSONFile projectFile = JObj pe ->
    wellFormed (JObj ue) = true ->
    wellFormed (JObj pe) = true ->
    path <> [] ->
    exists config : Fields,
      loadConfig defaultsFile userFile projectFile = Some (JObj config) /\
      (isLeaf v = true -> getPath (JObj pe) path = Some v ->
       getPath (JObj config) path = Some v) /\
      (isLeaf v = true -> silent (JObj pe) path = true ->
       getPath (JObj ue) path = Some v ->
       getPath (JObj config) path = Some v) /\
      (silent (JObj pe) path = true -> silent (JObj ue) path = true ->
       getPath (loadJSONFile defaultsFile) path = Some v ->
       getPath (JObj config) path = Some v) /\
      (projectFile = None -> silent (JObj pe) path = true).
Proof.
  intros defaultsFile userFile projectFile ue pe path v Eu Ep Wu Wp NE.
  unfold loadConfig. cbv zeta. rewrite Eu, Ep.
  destruct (@deepMerge_total (JObj ue) eq_refl Wu (loadJSONFile defaultsFile))
    as (mf & Em).
  rewrite Em.
  destruct (@deepMerge_total (JObj pe) eq_refl Wp (JObj mf)) as (cf & Ec).
  exists cf. split; [exact Ec|].
  split; [|split; [|split]].
  - intros L G.
    exact (@deepMerge_leaf_path path (JObj mf) pe v _ Wp NE G L Ec).
  - intros L S G. rewrite (@deepMerge_silent_path path mf pe _ Wp S Ec).
    exact (@deepMerge_leaf_path path _ ue v _ Wu NE G L Em).
  - intros Sp Su G. rewrite (@deepMerge_silent_path path mf pe _ Wp Sp Ec).
    destruct (loadJSONFile defaultsFile) as [| b | n | s0 | items | df];
      try (destruct path; [now elim NE | discriminate G]).
    rewrite (@deepMerge_silent_path path df ue _ Wu Su Em). exact G.
  - intros ->. cbn [loadJSONFile] in Ep. injection Ep as <-.
    destruct path; [now elim NE | reflexivity].
Qed.

Lemma loadConfig_precedence_witness :
  let defaults :=
    Some (JObj [(js "disabledRules", JArr []);
                (js "cycle4", JObj [(js "enabled", JBool true)])]) in
  let user := Some (JObj [(js "cycle4", JObj [(js "enabled", JBool false)])]) in
  exists config : Fields,
    loadConfig defaults user None = Some (JObj config) /\
    getPath (JObj config) [js "cycle4"; js "enabled"] = Some (JBool false).
Proof.
  intros defaults user.
  assert (Wu : wellFormed
                 (JObj [(js "cycle4", JObj [(js "enabled", JBool false)])])
               = true) by (vm_compute; reflexivity).
  assert (NE : [js "cycle4"; js "enabled"] <> []) by discriminate.
  destruct (@loadConfig_precedence defaults user None
              [(js "cycle4", JObj [(js "enabled", JBool false)])] []
              [js "cycle4"; js "enabled"] (JBool false)
              eq_refl eq_refl Wu eq_refl NE) as (config & E & _ & H & _).
  exists config. split; [exact E|].
  apply H; [reflexivity | reflexivity | vm_compute; reflexivity].
Defined.

(* ================================================================== *)
(** ** The project root *)
(* ================================================================== *)

Section ProjectRootFacts.

Variable existsSync : jstring -> bool.
Variable resolve : jstring -> jstring -> jstring.
Variable dirname : jstring -> jstring.
Variable cwd : jstring.

Local Abbreviation hasMarker := (hasMarker existsSync resolve).
Local Abbreviation walk := (walk existsSync resolve dirname).

Lemma iter_fixed (d : jstring) :
  dirname d = d -> forall k, Nat.iter k dirname d = d.
Proof.
  intros F. induction k as [|k IH]; [reflexivity|].
  rewrite Nat.iter_succ, IH. exact F.
Qed.

Lemma walk_finds :
  forall n dir k, k < n ->
    (forall j, j < k -> hasMarker (Nat.iter j dirname dir) = false) ->
    hasMarker (Nat.iter k dirname dir) = true ->
    walk n dir = Some (Nat.iter k dirname dir).
Proof.
  induction n as [|n IH]; intros dir k Lt Before At; [lia|].
  cbn [ProjectRoot.walk]. destruct k as [|k].
  - change (Nat.iter 0 dirname dir) with dir in At |- *. now rewrite At.
  - change dir with (Nat.iter 0 dirname dir) at 1.
    rewrite (Before 0) by lia.
    destruct (JS.eqb (dirname dir) dir) eqn:E.
    + apply eqb_eq in E. rewrite (@iter_fixed dir E (S k)) in At.
      change dir with (Nat.iter 0 dirname dir) in At.
      rewrite (Before 0) in At by lia. discriminate At.
    + rewrite Nat.iter_succ_r. apply IH; [lia | |].
      * intros j Hj. rewrite <- Nat.iter_succ_r. apply Before. lia.
      * now rewrite <- Nat.iter_succ_r.
Qed.

Lemma walk_none :
  forall n dir,
    (forall j, j < n -> hasMarker (Nat.iter j dirname dir) = false) ->
    walk n dir = None.
Proof.
  induction n as [|n IH]; intros dir H; [reflexivity|].
  cbn [ProjectRoot.walk]. change dir with (Nat.iter 0 dirname dir) at 1.
  rewrite (H 0) by lia. change (Nat.iter 0 dirname dir) with dir.
  destruct (JS.eqb (dirname dir) dir); [reflexivity|].
  apply IH. intros j Hj. rewrite <- Nat.iter_succ_r. apply H. lia.
Qed.

Lemma walk_marker :
  forall n dir d, walk n dir = Some d -> hasMarker d = true.
Proof.
  induction n as [|n IH]; intros dir d H; [discriminate H|].
  cbn [ProjectRoot.walk] in H. destruct (hasMarker dir) eqn:M.
  - now injection H as <-.
  - destruct (JS.eqb (dirname dir) dir); [discriminate H|].
    now apply (IH (dirname dir)).
Qed.

(** The project root.  Going up from the start directory, the function
    returns the nearest of the first twenty directories that holds one of
    .git, package.json and .claude.  When none of them does, among them
    when the file system root comes first, it returns the start directory
    itself, even if a directory further up holds a marker. *)
Theorem findProjectRoot_nearest_marker :
  forall startDir : value,
    let start := startOf cwd startDir in
    let root := findProjectRoot existsSync resolve dirname cwd startDir in
    (forall k, k < 20 ->
       (forall j, j < k -> hasMarker (Nat.iter j dirname start) = false) ->
       hasMarker (Nat.iter k dirname start) = true ->
       root = Nat.iter k dirname start) /\
    ((forall j, j < 20 -> hasMarker (Nat.iter j dirname start) = false) ->
     root = start) /\
    (root = start \/ hasMarker root = true).
Proof.
  intros startDir start root. unfold root, findProjectRoot. fold start.
  split; [|split].
  - intros k Lt Before At. now rewrite (@walk_finds 20 start k Lt Before At).
  - intros H. now rewrite (@walk_none 20 start H).
  - destruct (walk 20 start) as [d|] eqn:W; [|now left].
    right. exact (@walk_marker 20 start d W).
Qed.

End ProjectRootFacts.

Lemma findProjectRoot_nearest_marker_witness :
  let existsSync := fun p => JS.eqb p (js "/repo/.git") in
  let resolve := fun d m : jstring => d ++ SLASH :: m in
  let dirname := fun d =>
    if JS.eqb d (js "/repo/src/lib") then js "/repo/src"
    else if JS.eqb d (js "/repo/src") then js "/repo"
    else js "/" in
  findProjectRoot existsSync resolve dirname (js "/repo/src/lib") Undefined
  = js "/repo".
Proof.
  intros existsSync resolve dirname.
  refine (eq_trans
            (proj1 (findProjectRoot_nearest_marker existsSync resolve dirname
                      (js "/repo/src/lib") Undefined) 2 _ _ _) _).
  - lia.
  - intros j Hj. destruct j as [|[|j]]; [vm_compute; reflexivity.. | lia].
  - vm_compute. reflexivity.
  - vm_compute. reflexivity.
Defined.

(* ================================================================== *)
(** ** The search for markdown files *)
(* ================================================================== *)

Lemma findMarkdownFiles_entries (join : jstring -> jstring -> jstring)
    (dir : jstring) (entries : list (jstring * node))
    (maxDepth currentDepth : nat) :
  findMarkdownFiles join dir (Dir (Some entries)) maxDepth currentDepth
  = if maxDepth <=? currentDepth then []
    else flat_map (entryResult join dir maxDepth currentDepth) entries.
Proof.
  cbn [findMarkdownFiles]. destruct (maxDepth <=? currentDepth);
    [reflexivity|].
  induction entries as [|[entry n] entries IH]; [reflexivity|].
  cbn [flat_map]. rewrite <- IH. unfold entryResult. cbn [fst snd].
  destruct (skipped entry); [reflexivity|].
  destruct n; reflexivity.
Qed.

Lemma findMarkdownFiles_not_dir (join : jstring -> jstring -> jstring)
    (dir : jstring) (t : node) (maxDepth currentDepth : nat) :
  (forall entries, t <> Dir (Some entries)) ->
  findMarkdownFiles join dir t maxDepth currentDepth = [].
Proof.
  intros H. destruct t as [|[entries|]| |]; cbn [findMarkdownFiles];
    try (destruct (maxDepth <=? currentDepth); reflexivity).
  now elim (H entries).
Qed.

Lemma findMarkdownFiles_sound (join : jstring -> jstring -> jstring)
    (maxDepth : nat) :
  forall n dir t depth path,
    maxDepth - depth <= n ->
    In path (findMarkdownFiles join dir t maxDepth depth) ->
    reaches join maxDepth dir t depth path.
Proof.
  induction n as [|n IH]; intros dir t depth path Hn H;
    destruct t as [|[entries|]| |];
    try (rewrite findMarkdownFiles_not_dir in H by discriminate;
         now destruct H);
    rewrite findMarkdownFiles_entries in H;
    destruct (Nat.leb_spec maxDepth depth) as [Le|Lt];
    try (now destruct H); try lia.
  apply in_flat_map in H as ([entry sub] & Hin & H).
  unfold entryResult in H. cbn [fst snd] in H.
  destruct (skipped entry) eqn:Sk; [destruct H|].
  destruct sub as [|sub| |]; try (now destruct H).
  - destruct (endsWith entry (js ".md")) eqn:E; [|destruct H].
    destruct H as [<- | []]. now apply ReachFile.
  - apply ReachDir with (entry := entry) (sub := sub); try assumption.
    apply IH; [lia | exact H].
Qed.

Lemma findMarkdownFiles_complete (join : jstring -> jstring -> jstring)
    (maxDepth : nat) (dir : jstring) (t : node) (depth : nat)
    (path : jstring) :
  reaches join maxDepth dir t depth path ->
  In path (findMarkdownFiles join dir t maxDepth depth).
Proof.
  induction 1 as [dir entries entry depth Lt Hin Sk E
                 | dir entries entry sub depth path Lt Hin Sk _ IH];
    rewrite findMarkdownFiles_entries;
    (destruct (Nat.leb_spec maxDepth depth); [lia|]);
    apply in_flat_map.
  - exists (entry, File). split; [exact Hin|].
    unfold entryResult. cbn [fst snd]. rewrite Sk, E. now left.
  - exists (entry, Dir sub). split; [exact Hin|].
    unfold entryResult. cbn [fst snd]. rewrite Sk. exact IH.
Qed.

(** What the search returns.  A path is returned exactly when it is
    reached from the directory through entries none of which is
    node_modules or starts with a dot, it is a file whose name ends in .md
    (in lower case), and it lies less than [maxDepth] levels below the
    start; nothing is found in a directory that cannot be read. *)
Theorem findMarkdownFiles_characterised :
  forall (join : jstring -> jstring -> jstring) (dir : jstring) (t : node)
         (maxDepth currentDepth : nat) (path : jstring),
    In path (findMarkdownFiles join dir t maxDepth currentDepth) <->
    reaches join maxDepth dir t currentDepth path.
Proof.
  intros join dir t maxDepth currentDepth path. split.
  - apply (@findMarkdownFiles_sound join maxDepth (maxDepth - currentDepth)).
    apply Nat.le_refl.
  - apply findMarkdownFiles_complete.
Qed.

Lemma endsWith_intro (a p : jstring) : endsWith (a ++ p) p = true.
Proof.
  unfold endsWith. rewrite length_app.
  replace (length a + length p - length p) with (length a + 0) by lia.
  rewrite skipn_app, skipn_all2 by lia.
  replace (length a + 0 - length a) with 0 by lia. cbn [skipn app].
  rewrite eqb_refl, andb_true_r. apply Nat.leb_le. lia.
Qed.

Lemma lowerFrom_app (a b : jstring) :
  forall before, exists a' before',
    lowerFrom before (a ++ b) = a' ++ lowerFrom before' b.
Proof.
  induction a as [|c a IH]; intros before.
  - now exists [], before.
  - cbn [app lowerFrom].
    destruct (IH (isCased c || (isCaseIgnorable c && before)))
      as (a' & before' & ->).
    now exists (lowerAt before c (a ++ b) :: a'), before'.
Qed.

Lemma lowerFrom_fixed (w b : jstring) :
  forallb fixedUnit w = true ->
  forall before, exists before',
    lowerFrom before (w ++ b) = w ++ lowerFrom before' b.
Proof.
  induction w as [|c w IH]; intros F before.
  - now exists before.
  - cbn [forallb] in F. apply andb_true_iff in F as (Fc & F).
    cbn [app lowerFrom].
    destruct (IH F (isCased c || (isCaseIgnorable c && before)))
      as (before' & ->).
    exists before'. f_equal. unfold fixedUnit in Fc.
    apply andb_true_iff in Fc as (Fc & _).
    apply andb_true_iff in Fc as (Fs & Fl).
    unfold lowerAt. apply negb_true_iff in Fs. rewrite Fs.
    now apply N.eqb_eq.
Qed.

Lemma normalize_fixed (w : jstring) :
  forallb fixedUnit w = true ->
  map (fun c => lowerUnit (if (c =? BACKSLASH)%N then SLASH else c)) w = w.
Proof.
  induction w as [|c w IH]; intros F; [reflexivity|].
  cbn [forallb] in F. apply andb_true_iff in F as (Fc & F).
  cbn [map]. rewrite (IH F). f_equal. unfold fixedUnit in Fc.
  apply andb_true_iff in Fc as (Fc & Fb).
  apply andb_true_iff in Fc as (_ & Fl).
  apply negb_true_iff in Fb. rewrite Fb. now apply N.eqb_eq.
Qed.

(** A literal of such code units is found again in the normalized path,
    where it stood. *)
Lemma normalize_infix (w : jstring) (a b : jstring) :
  forallb fixedUnit w = true ->
  exists a' b',
    toLowerCase (replaceBackslashes (a ++ w ++ b)) = a' ++ w ++ b' /\
    (b = [] -> b' = []).
Proof.
  intros F. unfold toLowerCase. rewrite lowerFrom_slashes.
  destruct (lowerFrom_app a (w ++ b) false) as (a' & before' & ->).
  destruct (@lowerFrom_fixed w b F before') as (before'' & ->).
  rewrite !map_app, (@normalize_fixed w F).
  eexists; eexists; split; [reflexivity|].
  intros ->. reflexivity.
Qed.

Lemma includes_app (a b c p : jstring) :
  includes b p = true -> includes (a ++ b ++ c) p = true.
Proof.
  intros H. apply includes_infix in H as (x & y & ->).
  apply includes_infix. exists (a ++ x), (y ++ c).
  now rewrite <- !app_assoc.
Qed.

Lemma isResearchFile_intro (path : jstring) :
  endsWith (toLowerCase (replaceBackslashes path)) (js ".md") = true ->
  includes (toLowerCase (replaceBackslashes path)) (js "/research/") = true ->
  isResearchFile (Str path) = true.
Proof.
  intros E I. destruct path as [|c0 p]; [discriminate E|].
  unfold isResearchFile. rewrite E, I. reflexivity.
Qed.

Lemma reaches_research (maxDepth : nat) (dir : jstring) (t : node)
    (depth : nat) (path : jstring) :
  reaches posixJoin maxDepth dir t depth path ->
  (exists x y, dir ++ [SLASH] = x ++ js "/research/" ++ y) ->
  isResearchFile (Str path) = true.
Proof.
  induction 1 as [dir entries entry depth Lt Hin Sk E
                 | dir entries entry sub depth path Lt Hin Sk _ IH];
    intros (x & y & Inc).
  - apply endsWith_app in E as (stem & ->).
    unfold posixJoin. apply isResearchFile_intro.
    + destruct (@normalize_infix (js ".md") (dir ++ SLASH :: stem) []
                  eq_refl) as (a' & b' & N1 & N2).
      rewrite (N2 eq_refl), app_nil_r in N1.
      replace (dir ++ SLASH :: stem ++ js ".md")
        with ((dir ++ SLASH :: stem) ++ js ".md")
        by now rewrite <- app_assoc.
      rewrite N1. apply endsWith_intro.
    + destruct (@normalize_infix (js "/research/") x
                  (y ++ stem ++ js ".md") eq_refl) as (a' & b' & N1 & _).
      replace (dir ++ SLASH :: stem ++ js ".md")
        with (x ++ js "/research/" ++ y ++ stem ++ js ".md").
      * rewrite N1. apply includes_infix. now exists a', b'.
      * change (dir ++ SLASH :: stem ++ js ".md")
          with (dir ++ [SLASH] ++ stem ++ js ".md").
        now rewrite (app_assoc dir), Inc, <- !app_assoc.
  - apply IH. unfold posixJoin. exists x, (y ++ entry ++ [SLASH]).
    change (dir ++ SLASH :: entry) with (dir ++ [SLASH] ++ entry).
    now rewrite (app_assoc dir), Inc, <- !app_assoc.
Qed.

(** Below a directory named research.  Every file the search returns
    from a directory whose path ends in /research is a research file for
    [isResearchFile]: the Stop gate verifies each markdown file it finds
    below docs/research and below research. *)
Theorem found_below_research_is_research :
  forall (base : jstring) (t : node) (maxDepth currentDepth : nat)
         (path : jstring),
    In path (findMarkdownFiles posixJoin (base ++ js "/research") t
               maxDepth currentDepth) ->
    isResearchFile (Str path) = true.
Proof.
  intros base t maxDepth currentDepth path H.
  apply (@findMarkdownFiles_sound posixJoin maxDepth
           (maxDepth - currentDepth)) in H; [|apply Nat.le_refl].
  apply (reaches_research H).
  exists base, []. rewrite <- app_assoc. reflexivity.
Qed.

Lemma found_below_research_is_research_witness :
  isResearchFile (Str (js "/proj/docs/research/q4/report.md")) = true.
Proof.
  apply (@found_below_research_is_research (js "/proj/docs")
           (Dir (Some [(js "q4", Dir (Some [(js "report.md", File);
                                            (js "data.csv", File)]))]))
           5 0).
  vm_compute. left. reflexivity.
Defined.

(* ================================================================== *)
(** ** The Stop gate *)
(* ================================================================== *)

Lemma reaches_shallower (join : jstring -> jstring -> jstring)
    (maxDepth : nat) (dir : jstring) (t : node) (depth : nat)
    (path : jstring) :
  reaches join maxDepth dir t (S depth) path ->
  reaches join maxDepth dir t depth path.
Proof.
  remember (S depth) as d eqn:Ed. intros R. revert depth Ed.
  induction R as [dir entries entry d Lt Hin Sk E
                 | dir entries entry sub d path Lt Hin Sk _ IH];
    intros depth ->.
  - apply ReachFile; [lia | assumption..].
  - apply ReachDir with (entry := entry) (sub := sub);
      [lia | assumption | assumption |].
    now apply IH.
Qed.

Section StopGateFacts.

Variable join : jstring -> jstring -> jstring.
Variable resolve : jstring -> list jstring -> jstring.
Variable lookup : jstring -> option node.
Variable readFileSync : jstring -> option jstring.
Variable config : Config.

Local Abbreviation report := (fileReport readFileSync config).
Local Abbreviation reportDir :=
  (dirReport join lookup readFileSync config).

Lemma scanFiles_spec (files : list jstring) :
  forall acc,
    scanFiles readFileSync config files acc
    = Some (acc ++ flat_map report files).
Proof.
  induction files as [|f files IH]; intros acc; cbn [scanFiles flat_map].
  - now rewrite app_nil_r.
  - unfold fileReport at 1.
    destruct (negb (isResearchFile (Str f))); [apply IH|].
    destruct (readFileSync f) as [content|]; [|apply IH].
    destruct (runCycle4_total (Str content) f (Some config)) as (vs & ->).
    destruct vs as [|v vs]; [apply IH|].
    rewrite IH. f_equal. symmetry. apply app_assoc.
Qed.

Lemma scanDirs_spec (dirs : list jstring) :
  forall acc,
    scanDirs join lookup readFileSync config dirs acc
    = Some (acc ++ flat_map reportDir dirs).
Proof.
  induction dirs as [|d dirs IH]; intros acc; cbn [scanDirs flat_map].
  - now rewrite app_nil_r.
  - unfold dirReport at 1.
    destruct (lookup d) as [t|]; [|apply IH].
    rewrite scanFiles_spec, IH. f_equal. symmetry. apply app_assoc.
Qed.

Lemma fileReport_nil (f : jstring) :
  report f = [] <->
  (isResearchFile (Str f) = true ->
   forall content, readFileSync f = Some content ->
     runCycle4 (Str content) f (Some config) = Some []).
Proof.
  unfold fileReport.
  destruct (isResearchFile (Str f)); cbn [negb];
    [|split; [discriminate | reflexivity]].
  destruct (readFileSync f) as [content|];
    [|split; [discriminate | reflexivity]].
  destruct (runCycle4_total (Str content) f (Some config)) as (vs & E).
  rewrite E. destruct vs as [|v vs].
  - split; [|reflexivity]. intros _ _ c [= <-]. exact E.
  - split; [discriminate|]. intros H.
    specialize (H eq_refl content eq_refl). rewrite E in H. discriminate H.
Qed.

(** The Stop gate decides.  It approves when cycle 4 is switched off.
    Otherwise it always returns a decision, and it approves exactly when
    every research file found in the three search directories and read is
    left without violation by [runCycle4]; a file that is not a research
    file, or that cannot be read, never blocks. *)
Theorem stop_gate_decides :
  forall projectRoot : jstring,
    (exists d,
       stopGate join resolve lookup readFileSync config projectRoot
       = Some d) /\
    (stopGate join resolve lookup readFileSync config projectRoot
     = Some Approve <->
     cycle4Enabled config = false \/
     forall dir t filePath content,
       In dir (searchDirs resolve projectRoot) ->
       lookup dir = Some t ->
       In filePath (findMarkdownFiles join dir t 5 0) ->
       isResearchFile (Str filePath) = true ->
       readFileSync filePath = Some content ->
       runCycle4 (Str content) filePath (Some config) = Some []).
Proof.
  intros projectRoot. unfold stopGate. rewrite scanDirs_spec. cbn [app].
  destruct (cycle4Enabled config); cbn [negb];
    [|split; [now eexists | split; [now left | reflexivity]]].
  assert (Nil : flat_map reportDir (searchDirs resolve projectRoot) = [] <->
    forall dir t filePath content,
      In dir (searchDirs resolve projectRoot) ->
      lookup dir = Some t ->
      In filePath (findMarkdownFiles join dir t 5 0) ->
      isResearchFile (Str filePath) = true ->
      readFileSync filePath = Some content ->
      runCycle4 (Str content) filePath (Some config) = Some []).
  { split.
    - intros E dir t f content Hd Ht Hf R C.
      assert (D : reportDir dir = []).
      { destruct (reportDir dir) as [|x l] eqn:X; [reflexivity|].
        assert (Hx : In x (flat_map reportDir
                             (searchDirs resolve projectRoot))).
        { apply in_flat_map. exists dir. split; [exact Hd|].
          rewrite X. now left. }
        rewrite E in Hx. destruct Hx. }
      unfold dirReport in D. rewrite Ht in D.
      assert (F : report f = []).
      { destruct (report f) as [|x l] eqn:X; [reflexivity|].
        assert (Hx : In x (flat_map report
                             (findMarkdownFiles join dir t 5 0))).
        { apply in_flat_map. exists f. split; [exact Hf|].
          rewrite X. now left. }
        rewrite D in Hx. destruct Hx. }
      exact (proj1 (fileReport_nil f) F R content C).
    - intros H. apply flat_map_all_nil. intros dir Hd.
      unfold dirReport. destruct (lookup dir) as [t|] eqn:Ht;
        [|reflexivity].
      apply flat_map_all_nil. intros f Hf. apply fileReport_nil.
      intros R content C. exact (H dir t f content Hd Ht Hf R C). }
  destruct (flat_map reportDir (searchDirs resolve projectRoot))
    as [|x l] eqn:E.
  - split; [now eexists|]. split; [intros _; right; now apply Nil|].
    reflexivity.
  - split; [now eexists|]. split; [discriminate|].
    intros [F | H]; [discriminate F|].
    apply Nil in H. discriminate H.
Qed.

(** A file below docs/research is reported twice.  The directory
    docs/research is searched on its own and again as a part of docs: a
    research file with a violation that lies less than four levels below
    docs/research is pushed once by each of the two scans. *)
Theorem docs_research_reported_twice :
  forall (projectRoot : jstring) (entries : list (jstring * node))
         (sub : option (list (jstring * node)))
         (filePath content : jstring) (v : Violation) (vs : list Violation),
    join (resolve projectRoot [js "docs"]) (js "research")
    = resolve projectRoot [js "docs"; js "research"] ->
    lookup (resolve projectRoot [js "docs"]) = Some (Dir (Some entries)) ->
    In (js "research", Dir sub) entries ->
    lookup (resolve projectRoot [js "docs"; js "research"])
    = Some (Dir sub) ->
    In filePath
      (findMarkdownFiles join (resolve projectRoot [js "docs"; js "research"])
         (Dir sub) 5 1) ->
    isResearchFile (Str filePath) = true ->
    readFileSync filePath = Some content ->
    runCycle4 (Str content) filePath (Some config) = Some (v :: vs) ->
    exists l1 l2 l3,
      scanDirs join lookup readFileSync config
        (searchDirs resolve projectRoot) []
      = Some (l1 ++ (filePath, v :: vs) :: l2 ++ (filePath, v :: vs) :: l3).
Proof.
  intros projectRoot entries sub f content v vs J Ld Hin Lr Hf R C V.
  rewrite scanDirs_spec. cbn [app]. unfold searchDirs. cbn [flat_map].
  rewrite app_nil_r.
  assert (FR : In (f, v :: vs) (report f)).
  { unfold fileReport. rewrite R, C, V. now left. }
  assert (In1 : In (f, v :: vs)
                  (reportDir (resolve projectRoot
                                [js "docs"; js "research"]))).
  { unfold dirReport. rewrite Lr. apply in_flat_map.
    exists f. split; [|exact FR].
    apply findMarkdownFiles_complete. apply reaches_shallower.
    apply (@findMarkdownFiles_sound join 5 5); [lia | exact Hf]. }
  assert (In3 : In (f, v :: vs) (reportDir (resolve projectRoot [js "docs"]))).
  { unfold dirReport. rewrite Ld. apply in_flat_map.
    exists f. split; [|exact FR].
    rewrite findMarkdownFiles_entries. cbn [Nat.leb].
    apply in_flat_map. exists (js "research", Dir sub).
    split; [exact Hin|]. unfold entryResult. cbn [fst snd].
    change (skipped (js "research")) with false. cbv iota.
    rewrite J. exact Hf. }
  apply in_split in In1 as (a1 & b1 & ->).
  apply in_split in In3 as (a3 & b3 & ->).
  exists a1, (b1 ++ reportDir (resolve projectRoot [js "research"]) ++ a3), b3.
  f_equal. rewrite <- !app_assoc. cbn [app]. rewrite <- ?app_assoc.
  reflexivity.
Qed.

End StopGateFacts.

Lemma docs_research_reported_twice_witness :
  let resolve := fun (root : jstring) (names : list jstring) =>
    fold_left posixJoin names root in
  let sub := Some [(js "a.md", File)] in
  let lookup := fun path : jstring =>
    if JS.eqb path (js "/p/docs")
    then Some (Dir (Some [(js "research", Dir sub)]))
    else if JS.eqb path (js "/p/docs/research") then Some (Dir sub)
    else None in
  let readFileSync := fun _ : jstring => Some (js "Studies show it.") in
  exists l1 l2 l3 found,
    scanDirs posixJoin lookup readFileSync emptyConfig
      (searchDirs resolve (js "/p")) []
    = Some (l1 ++ (js "/p/docs/research/a.md", found)
               :: l2 ++ (js "/p/docs/research/a.md", found) :: l3).
Proof.
  intros resolve sub lookup readFileSync.
  assert (V : exists v vs,
    runCycle4 (Str (js "Studies show it.")) (js "/p/docs/research/a.md")
      (Some emptyConfig) = Some (v :: vs))
    by (vm_compute; eexists; eexists; reflexivity).
  destruct V as (v & vs & V).
  assert (F : In (js "/p/docs/research/a.md")
                (findMarkdownFiles posixJoin
                   (resolve (js "/p") [js "docs"; js "research"])
                   (Dir sub) 5 1))
    by (vm_compute; left; reflexivity).
  assert (R : isResearchFile (Str (js "/p/docs/research/a.md")) = true)
    by (vm_compute; reflexivity).
  destruct (@docs_research_reported_twice posixJoin resolve lookup
              readFileSync emptyConfig (js "/p")
              [(js "research", Dir sub)] sub
              (js "/p/docs/research/a.md") (js "Studies show it.") v vs
              eq_refl eq_refl (or_introl eq_refl) eq_refl F R eq_refl V)
    as (l1 & l2 & l3 & E).
  exists l1, l2, l3, (v :: vs). exact E.
Defined.

(* ================================================================== *)
(** ** The audit metadata *)
(* ================================================================== *)

Lemma slice_prefix (s : jstring) (n : nat) :
  slice s 0 (Z.of_nat n) = firstn n s.
Proof.
  unfold slice, relIndex. cbv zeta. cbn [Z.ltb Z.compare].
  destruct (Z.ltb_spec (Z.of_nat n) 0); [lia|].
  rewrite (Z.min_l 0) by lia. cbn [Z.to_nat skipn]. rewrite Z.sub_0_r.
  destruct (Nat.le_gt_cases n (length s)).
  - rewrite Z.min_l by lia. now rewrite Nat2Z.id.
  - rewrite Z.min_r by lia. rewrite Nat2Z.id.
    rewrite !firstn_all2 by lia. reflexivity.
Qed.

(** Of a tool input whose command is a string, the logged command is the
    first 200 code units of the command: never more, and the whole command
    when it is shorter; an empty or absent command is not logged. *)
Theorem logged_command_is_bounded :
  forall (toolInput : ToolInput) (c : jstring),
    stringField toolInput "command" = true ->
    (mdCommand (auditMetadata toolInput) = None <->
     getField toolInput "command" = []) /\
    (mdCommand (auditMetadata toolInput) = Some c ->
    c = firstn 200 (getField toolInput "command") /\
    length c <= 200 /\
    (length (getField toolInput "command") <= 200 ->
     c = getField toolInput "command")).
Proof.
  intros toolInput c _. unfold auditMetadata. cbn [mdCommand].
  destruct (getField toolInput "command") as [|c0 cmd];
    cbn [truthy option_map].
  - split; [now split | discriminate].
  - split; [split; discriminate|]. intros H. injection H as <-.
    change 200%Z with (Z.of_nat 200). rewrite slice_prefix.
    split; [reflexivity|]. split.
    + rewrite length_firstn. lia.
    + intros L. now apply firstn_all2.
Qed.

Lemma logged_command_is_bounded_witness :
  js "ls" = firstn 200 (getField [(js "command", FStr (js "ls"))] "command").
Proof.
  exact (proj1 (proj2 (@logged_command_is_bounded
                         [(js "command", FStr (js "ls"))] (js "ls") eq_refl)
                  eq_refl)).
Defined.

Lemma write_extraction (input : HookInput) :
  toLowerCase (toolNameOf input) = js "write" ->
  extractContent (toolNameOf input) (toolInputOf input)
  = mkExtracted (getField (toolInputOf input) "content") (js "file-write")
      (getFileExtension (Str (getField (toolInputOf input) "file_path")))
      (getField (toolInputOf input) "file_path").
Proof. unfold extractContent. intros ->. now rewrite eqb_refl. Qed.

(** The audit label and the gate.  The post-tool audit labels a research
    file with cycle 4 whatever the configuration says; with cycle 4
    switched off the gate has run cycles 1 and 2 on the same Write, and none
    of its violations is of cycle 4. *)
Theorem audit_label_ignores_cycle4_toggle :
  forall (config : Config) (input : HookInput),
    toLowerCase (toolNameOf input) = js "write" ->
    getField (toolInputOf input) "content" <> [] ->
    isResearchFile (Str (getField (toolInputOf input) "file_path")) = true ->
    cycle4Enabled config = false ->
    mdApplicableCycles (auditMetadata (toolInputOf input))
    = Some (js "Cycle 4 (Research Verification)") /\
    exists vs,
      gateViolations config (Some input) = Some vs /\
      forall v, In v vs -> cycle v = 1%N \/ cycle v = 2%N.
Proof.
  intros config input W NE R C. split.
  - unfold auditMetadata. cbn [mdApplicableCycles].
    destruct (getField (toolInputOf input) "file_path") as [|c0 p];
      [discriminate R|].
    cbn [truthy option_map]. now rewrite R.
  - unfold gateViolations. rewrite (write_extraction input W).
    cbn [content].
    destruct (getField (toolInputOf input) "content") as [|c0 t];
      [now elim NE|].
    unfold allViolations. cbn [filePath content fileExt context].
    rewrite R, C. cbn [andb]. eexists. split; [reflexivity|].
    intros v Hv. apply in_app_or in Hv as [Hv | Hv].
    + left. exact (runCycle1_cycle _ _ _ _ _ Hv).
    + right. exact (runCycle2_cycle _ _ _ _ _ Hv).
Qed.

Lemma audit_label_ignores_cycle4_toggle_witness :
  let input :=
    mkHookInput (Some (js "Write"))
      (Some [(js "file_path", FStr (js "docs/research/report.md"));
             (js "content", FStr (js "Studies show growth."))]) in
  mdApplicableCycles (auditMetadata (toolInputOf input))
  = Some (js "Cycle 4 (Research Verification)").
Proof.
  intros input.
  assert (W : toLowerCase (toolNameOf input) = js "write")
    by (vm_compute; reflexivity).
  assert (NE : getField (toolInputOf input) "content" <> [])
    by (vm_compute; discriminate).
  assert (R : isResearchFile (Str (getField (toolInputOf input) "file_path"))
              = true) by (vm_compute; reflexivity).
  exact (proj1 (@audit_label_ignores_cycle4_toggle
                  (mkConfig None (Some (mkCycle4Config (Some false))))
                  input W NE R eq_refl)).
Defined.

(* ================================================================== *)
(** ** The decision of the gate and the sourcing pass *)
(* ================================================================== *)

Lemma join_In (sep x : jstring) (l : list jstring) :
  In x l -> exists a b, JS.join sep l = a ++ x ++ b.
Proof.
  induction l as [|y l IH]; intros H; [destruct H|].
  destruct H as [-> | H].
  - destruct l as [|z l].
    + exists [], []. cbn [JS.join app]. now rewrite app_nil_r.
    + exists [], (sep ++ JS.join sep (z :: l)). reflexivity.
  - destruct (IH H) as (a & b & E). destruct l as [|z l]; [destruct H|].
    exists (y ++ sep ++ a), b.
    change (JS.join sep (y :: z :: l)) with (y ++ sep ++ JS.join sep (z :: l)).
    rewrite E, <- !app_assoc. reflexivity.
Qed.

Lemma gateViolations_total (config : Config) (input : option HookInput) :
  exists vs, gateViolations config input = Some vs.
Proof.
  unfold gateViolations. destruct input as [input|]; [|now eexists].
  destruct (content (extractContent (toolNameOf input) (toolInputOf input)));
    [now eexists|].
  unfold allViolations.
  destruct (isResearchFile _ && cycle4Enabled config); [|now eexists].
  apply runCycle4_total.
Qed.

Lemma reasonText_holds (v : Violation) (vs : list Violation) :
  In v vs ->
  (exists a b, reasonText vs = a ++ reasonOf v ++ b) /\
  includes (reasonText vs) (ruleId v) = true /\
  includes (reasonText vs) (vmessage v) = true.
Proof.
  intros Hv.
  destruct (@join_In [LF; LF] (reasonOf v) (map reasonOf vs))
    as (a & b & J); [now apply in_map|].
  assert (R : reasonText vs
              = (js "Triple Verification BLOCKED this operation:"
                   ++ [LF; LF] ++ a)
                ++ reasonOf v
                ++ (b ++ [LF; LF] ++ js "Fix these issues and try again.")).
  { unfold reasonText. rewrite J, <- !app_assoc. reflexivity. }
  split; [eexists; eexists; exact R|]. rewrite R. unfold reasonOf.
  split; apply includes_app; apply includes_infix.
  - exists (js "[Cycle " ++ numberToString (N.to_nat (cycle v))
              ++ js " - "), (js "] " ++ vmessage v).
    rewrite <- !app_assoc. reflexivity.
  - exists (js "[Cycle " ++ numberToString (N.to_nat (cycle v))
              ++ js " - " ++ ruleId v ++ js "] "), [].
    rewrite <- !app_assoc, app_nil_r. reflexivity.
Qed.

(** The gate decides.  For a configuration whose disabledRules is an
    array of strings or absent, and a tool input whose fields file_path,
    content, new_string, command, url and query are strings or absent, the
    hook always ends, with one outcome.  It prints nothing exactly when
    stdin does not parse as JSON or the tool name is a truthy value that is
    not a string: the exception is caught and the process exits.  It prints
    an approval when stdin is blank or holds a falsy value.  In every other
    case it prints one decision: an approval when there is no violation, a
    block otherwise, whose reason holds the line of every violation, with
    its rule id and its message. *)
Theorem gate_decides :
  forall (config : Config) (stdin : Stdin),
    modelled stdin = true ->
    exists outcome,
      preToolGate config stdin = Some outcome /\
      (outcome = Silent <->
       stdin = StdinUnparsable \/ exists t, stdin = StdinValue NameOther t) /\
      (stdin = StdinBlank \/ stdin = StdinFalsy ->
       outcome = Printed Approve) /\
      (forall name toolInput (input : HookInput),
         stdin = StdinValue name toolInput ->
         hookInput name toolInput = Some input ->
         exists vs,
           gateViolations config (Some input) = Some vs /\
           (vs = [] -> outcome = Printed Approve) /\
           (vs <> [] ->
            outcome = Printed (Block (reasonText vs)) /\
            forall v, In v vs ->
              (exists a b, reasonText vs = a ++ reasonOf v ++ b) /\
              includes (reasonText vs) (ruleId v) = true /\
              includes (reasonText vs) (vmessage v) = true)).
Proof.
  intros config stdin _.
  assert (D : forall input : HookInput, exists vs,
    gateViolations config (Some input) = Some vs /\
    exists d, gate config (Some input) = Some d /\
      (vs = [] -> d = Approve) /\
      (vs <> [] ->
       d = Block (reasonText vs) /\
       forall v, In v vs ->
         (exists a b, reasonText vs = a ++ reasonOf v ++ b) /\
         includes (reasonText vs) (ruleId v) = true /\
         includes (reasonText vs) (vmessage v) = true)).
  { intros input.
    destruct (gateViolations_total config (Some input)) as (vs & E).
    exists vs. split; [exact E|]. unfold gate. rewrite E.
    destruct vs as [|v0 vs].
    - exists Approve. split; [reflexivity|].
      split; [reflexivity | intros NE; now elim NE].
    - exists (Block (reasonText (v0 :: vs))). split; [reflexivity|].
      split; [discriminate|]. intros _. split; [reflexivity|].
      intros v Hv. now apply reasonText_holds. }
  assert (Run : forall name t input,
    hookInput name t = Some input ->
    exists d, preToolGate config (StdinValue name t) = Some (Printed d) /\
              gate config (Some input) = Some d).
  { intros name t input H. unfold preToolGate. cbn [readStdinJSON].
    rewrite H. destruct (D input) as (vs & _ & d & G & _).
    exists d. rewrite G. now split. }
  destruct stdin as [| | |name t].
  - exists (Printed Approve). split; [reflexivity|]. split; [|split].
    + split; [discriminate | intros [E | (t & E)]; discriminate E].
    + reflexivity.
    + intros name t input E. discriminate E.
  - exists Silent. split; [reflexivity|]. split; [|split].
    + split; [now left | reflexivity].
    + intros [E | E]; discriminate E.
    + intros name t input E. discriminate E.
  - exists (Printed Approve). split; [reflexivity|]. split; [|split].
    + split; [discriminate | intros [E | (t & E)]; discriminate E].
    + reflexivity.
    + intros name t input E. discriminate E.
  - destruct (hookInput name t) as [input|] eqn:H.
    + destruct (Run name t input H) as (d & P & G).
      exists (Printed d). split; [exact P|]. split; [|split].
      * split; [discriminate|].
        intros [E | (t' & E)]; [discriminate E|].
        injection E as -> _. discriminate H.
      * intros [E | E]; discriminate E.
      * intros name' t' input' E H'. injection E as <- <-.
        rewrite H in H'. injection H' as <-.
        destruct (D input) as (vs & V & d' & G' & A & B).
        rewrite G in G'. injection G' as <-.
        exists vs. split; [exact V|]. split.
        -- intros Z. now rewrite (A Z).
        -- intros NE. destruct (B NE) as (-> & I). now split.
    + exists Silent. split; [|split; [|split]].
      * unfold preToolGate. cbn [readStdinJSON]. now rewrite H.
      * split; [|reflexivity]. intros _. right. exists t.
        destruct name; try discriminate H. reflexivity.
      * intros [E | E]; discriminate E.
      * intros name' t' input' E H'. injection E as <- <-.
        rewrite H in H'. discriminate H'.
Qed.

Lemma gate_decides_witness :
  let toolInput := Some [(js "command", FStr (js "chmod 777 /srv"))] in
  let stdin := StdinValue (NameString (js "Bash")) toolInput in
  (exists reason,
     preToolGate emptyConfig stdin = Some (Printed (Block reason)) /\
     includes reason (js "no-chmod-777") = true) /\
  preToolGate emptyConfig (StdinValue NameOther None) = Some Silent.
Proof.
  intros toolInput stdin. split.
  - destruct (gate_decides emptyConfig stdin eq_refl)
      as (outcome & P & _ & _ & D).
    destruct (D (NameString (js "Bash")) toolInput _ eq_refl eq_refl)
      as (vs & E & _ & B).
    assert (V : exists v, vs = [v] /\ ruleId v = js "no-chmod-777").
    { vm_compute in E. injection E as <-. eexists. split; reflexivity. }
    destruct V as (v & -> & Ev).
    destruct B as (G & I); [discriminate|].
    exists (reasonText [v]). split; [now rewrite P, G|].
    rewrite <- Ev. exact (proj1 (proj2 (I v (or_introl eq_refl)))).
  - destruct (gate_decides emptyConfig (StdinValue NameOther None) eq_refl)
      as (outcome & P & S & _).
    rewrite P. f_equal. apply S. right. now exists None.
Defined.

(** The sourcing pass.  On a document without vague language: when it
    holds the verification marker and no-unsourced-claims is not disabled,
    [runCycle4] reports that rule exactly when some extracted claim has no
    source in its window, and the message counts those claims; when it
    does not hold the marker and no-unverified-claims is disabled, nothing
    is reported, the sources are not looked at. *)
Theorem sourcing_pass :
  forall (content filePath : jstring) (config : option Config)
         (claims : list Claim),
    ~ vagueLanguage content ->
    extractClaims content = Some claims ->
    (includes content VERIFICATION_TAG = true ->
     ~ In (js "no-unsourced-claims") (disabledOf4 config) ->
     runCycle4 (Str content) filePath config
     = Some (match filter (fun claim =>
                             negb (hasNearbySource content (cindex claim)))
                     claims with
             | [] => []
             | (_ :: _) as unsourced =>
                 [mkViolation (js "no-unsourced-claims") 4
                    (ruleMessage 2 ++ [LF; LF] ++ js "Found "
                       ++ numberToString (length unsourced)
                       ++ js " unsourced claim(s).")]
             end)) /\
    (includes content VERIFICATION_TAG = false ->
     In (js "no-unverified-claims") (disabledOf4 config) ->
     runCycle4 (Str content) filePath config = Some []).
Proof.
  intros content filePath config claims NV E.
  destruct content as [|c0 s].
  - split; [discriminate | reflexivity].
  - assert (EV : RegExp.exec VAGUE_PATTERN (c0 :: s) = None).
    { apply test_false_exec.
      destruct (RegExp.test VAGUE_PATTERN (c0 :: s)) eqn:T; [|reflexivity].
      elim NV. now apply vague_test_iff. }
    assert (P1 : (if arrayIncludes (disabledOf4 config)
                       (js "no-vague-claims")
                  then None else RegExp.exec VAGUE_PATTERN (c0 :: s)) = None)
      by (rewrite EV; destruct (arrayIncludes _ _); reflexivity).
    split.
    + intros T D. apply arrayIncludes_not_In in D.
      unfold runCycle4. rewrite P1, E, T, D. cbn [negb andb].
      destruct claims as [|cl claims]; [reflexivity|].
      destruct (filter _ (cl :: claims)); reflexivity.
    + intros T D. apply arrayIncludes_In in D.
      unfold runCycle4. rewrite P1, E, T, D. cbn [negb andb].
      destruct claims; reflexivity.
Qed.

Lemma sourcing_pass_witness :
  let content := js "Revenue grew 45% last quarter." in
  let config := Some (mkConfig (Some [js "no-unverified-claims"]) None) in
  runCycle4 (Str content) (js "research/r.md") config = Some [].
Proof.
  intros content config.
  assert (NV : ~ vagueLanguage content).
  { intros V. apply vague_test_iff in V. vm_compute in V. discriminate V. }
  assert (E : extractClaims content = Some [mkClaim (js "45%") 13])
    by (vm_compute; reflexivity).
  apply (proj2 (@sourcing_pass content (js "research/r.md") config _ NV E)).
  - vm_compute. reflexivity.
  - left. reflexivity.
Defined.
